(** * DataLoader: a verified model of [data_loader.py]

    The development embeds the dataset pipeline of the behavioural-cloning
    data loader: log parsing with the side-camera correction, histogram
    rebalancing, flip augmentation with its on-disk memo, the pickle cache
    and the endless batch generator.

    Conventions of the embedding:
    - Python [float] and NumPy [float64] are IEEE-754 binary64 numbers,
      modelled by Rocq's primitive [float];
    - a raised exception is a value [Raise e] of the [result] type;
    - the file system is a finite map from paths to file contents, paired
      with the log of the writes performed;
    - library calls whose algorithm is not part of the repository
      (Python's [float], [np.histogram(.., bins='auto')], the NumPy random
      state, OpenCV's codec, [pickle], [process_image]) are fields of the
      [Runtime] class; what the proofs need of them is stated as explicit
      hypotheses. *)

From Stdlib Require Import ZArith Floats Lia Bool Ascii String.
From stdpp Require Import base tactics option list gmap strings.

Set Warnings "-inexact-float".

Local Open Scope Z_scope.

(** ** Exceptions and the [result] monad *)

Inductive exn : Set :=
| ValueError
| IndexError
| TypeError
| KeyError
| AssertionError
| FileNotFoundError
| UnpicklingError
| CvError
| StopIteration.

Inductive result (A : Type) : Type :=
| Ok (a : A)
| Raise (e : exn).
Arguments Ok {A} a.
Arguments Raise {A} e.

#[global] Instance result_ret : MRet result := fun _ a => Ok a.
#[global] Instance result_bind : MBind result := fun _ _ f m =>
  match m with
  | Ok a => f a
  | Raise e => Raise e
  end.
#[global] Instance result_fmap : FMap result := fun _ _ f m =>
  match m with
  | Ok a => Ok (f a)
  | Raise e => Raise e
  end.

(** [traverse f l]: a Python list comprehension [[f(x) for x in l]]; the
    first exception raised by [f] aborts it. *)
Fixpoint traverse {A B} (f : A → result B) (l : list A) : result (list B) :=
  match l with
  | [] => Ok []
  | x :: l' =>
      match f x with
      | Raise e => Raise e
      | Ok y =>
          match traverse f l' with
          | Raise e => Raise e
          | Ok ys => Ok (y :: ys)
          end
      end
  end.

(** ** Binary64 helpers *)

Module F64.

(** Exact conversion of an integer (rounded to nearest even beyond 2^53). *)
Definition of_Z (z : Z) : float :=
  SF2Prim (binary_normalize prec emax z 0 false).

(** Correctly rounded quotient of two integers, [d > 0]. *)
Definition of_ratio (neg : bool) (n d : positive) : float :=
  SF2Prim (SFdiv prec emax (S754_finite neg n 0) (S754_finite false d 0)).

(** The value [(-1)^neg * m * 10^e], correctly rounded: what Python's
    [float] returns for a decimal literal. *)
Definition of_decimal (neg : bool) (m : N) (e : Z) : float :=
  match m with
  | N0 => if neg then PrimFloat.neg_zero else PrimFloat.zero
  | Npos p =>
      if 0 <=? e
      then SF2Prim (binary_normalize prec emax
                      ((if neg then Z.neg p else Z.pos p) * 10 ^ e) 0 false)
      else of_ratio neg p (Z.to_pos (10 ^ (- e)))
  end.

(** [floor x] for a finite [x]: the mantissa shifted by the exponent. *)
Definition floor (x : float) : option Z :=
  match Prim2SF x with
  | S754_zero _ => Some 0
  | S754_finite s m e =>
      let v := if s then Z.neg m else Z.pos m in
      Some (if 0 <=? e then v * 2 ^ e else v / 2 ^ (- e))
  | _ => None
  end.

(** Truncation towards zero, the rounding of a C cast to an integer. *)
Definition trunc (x : float) : option Z :=
  match Prim2SF x with
  | S754_zero _ => Some 0
  | S754_finite s m e =>
      let a := if 0 <=? e then Z.pos m * 2 ^ e else Z.pos m / 2 ^ (- e) in
      Some (if s then - a else a)
  | _ => None
  end.

End F64.

(** ** The order of binary64 numbers *)

Module FloatOrder.

(** The position of a number on the extended real line, as a triple
    compared lexicographically: class, exponent and mantissa, the last
    two negated for negative numbers. A NaN has no position. *)
Definition rank (x : spec_float) : option (Z * Z * Z) :=
  match x with
  | S754_nan => None
  | S754_zero _ => Some (0, 0, 0)
  | S754_infinity s => Some (if s then -2 else 2, 0, 0)
  | S754_finite s m e => Some (if s then (-1, - e, Z.neg m) else (1, e, Z.pos m))
  end.

Definition lex_lt (p q : Z * Z * Z) : Prop :=
  let '(a, b, c) := p in
  let '(a', b', c') := q in
  a < a' ∨ (a = a' ∧ (b < b' ∨ (b = b' ∧ c < c'))).

Definition lex_le (p q : Z * Z * Z) : Prop :=
  let '(a, b, c) := p in
  let '(a', b', c') := q in
  a < a' ∨ (a = a' ∧ (b < b' ∨ (b = b' ∧ c ≤ c'))).

Definition lex_cmp (p q : Z * Z * Z) : comparison :=
  let '(a, b, c) := p in
  let '(a', b', c') := q in
  match a ?= a' with
  | Eq => match b ?= b' with Eq => c ?= c' | r => r end
  | r => r
  end.

(** The order of two numbers, read off their ranks. *)
Definition ranked (R : Z * Z * Z → Z * Z * Z → Prop) (x y : float) : Prop :=
  match rank (Prim2SF x), rank (Prim2SF y) with
  | Some p, Some q => R p q
  | _, _ => False
  end.

(** [x] lies in the closed interval [[lo, hi]]. *)
Definition between (lo hi x : float) : Prop :=
  (lo <=? x)%float = true ∧ (x <=? hi)%float = true.

(** What [np.clip] guarantees of its result. *)
Definition clipped (lo hi x : float) : Prop :=
  PrimFloat.is_nan x = true ∨ between lo hi x.

(** Adjacent elements strictly increasing. *)
Fixpoint increasing (l : list float) : bool :=
  match l with
  | x :: (y :: _) as l' => (x <? y)%float && increasing l'
  | _ => true
  end.

End FloatOrder.

(** ** Python strings *)

Module Str.

Definition is_prefix (p s : string) : bool := String.prefix p s.

(** Left-to-right scan of [str.split(sep)] for a non-empty [sep]:
    [skip] counts the characters of a matched separator still to be
    passed over, [cur] is the piece being collected. *)
Fixpoint split_from (sep : string) (skip : nat) (cur : string) (s : string)
  : list string :=
  match s with
  | EmptyString => [cur]
  | String c s' =>
      match skip with
      | S k => split_from sep k cur s'
      | O =>
          if is_prefix sep s
          then cur :: split_from sep (Nat.pred (String.length sep)) EmptyString s'
          else split_from sep O (cur +:+ String c EmptyString) s'
      end
  end.

(** [s.split(sep)]: an empty separator is a [ValueError]. *)
Definition split (sep s : string) : result (list string) :=
  match sep with
  | EmptyString => Raise ValueError
  | _ => Ok (split_from sep O EmptyString s)
  end.

(** [l[-1]] *)
Definition last_item {A} (l : list A) : result A :=
  match last l with
  | Some x => Ok x
  | None => Raise IndexError
  end.

End Str.

(** ** Python's [float(str)] on decimal literals

    [PyFloat.float_of_string] follows the grammar of the built-in: optional
    surrounding white space, an optional sign, then [inf], [infinity],
    [nan] (any case) or a decimal number with optional fraction and
    exponent (single underscores allowed between digits). The value is the
    correctly rounded binary64 number. Anything else is a [ValueError]. *)

Module PyFloat.

Definition is_space (c : ascii) : bool :=
  let n := nat_of_ascii c in
  ((9 <=? n) && (n <=? 13) || (n =? 32))%nat.

Definition digit_of (c : ascii) : option N :=
  let n := N_of_ascii c in
  if ((48 <=? n) && (n <=? 57))%N then Some (n - 48)%N else None.

Definition lower (c : ascii) : ascii :=
  let n := nat_of_ascii c in
  if ((65 <=? n) && (n <=? 90))%nat then ascii_of_nat (n + 32) else c.

Fixpoint lstrip (l : list ascii) : list ascii :=
  match l with
  | c :: l' => if is_space c then lstrip l' else l
  | [] => []
  end.

Definition strip (l : list ascii) : list ascii :=
  reverse (lstrip (reverse (lstrip l))).

Definition starts_with_digit (l : list ascii) : bool :=
  match l with
  | c :: _ => bool_decide (is_Some (digit_of c))
  | [] => false
  end.

(** Reads a digit part; returns the accumulated number, the count of
    digits read and the unread rest. *)
Fixpoint read_digits (acc : N) (cnt : nat) (l : list ascii)
  : N * nat * list ascii :=
  match l with
  | [] => (acc, cnt, [])
  | c :: l' =>
      match digit_of c with
      | Some d => read_digits (10 * acc + d)%N (S cnt) l'
      | None =>
          if (Ascii.eqb c "_" && negb (cnt =? 0)%nat && starts_with_digit l')%bool
          then read_digits acc cnt l'
          else (acc, cnt, l)
      end
  end.

Definition read_sign (l : list ascii) : bool * list ascii :=
  match l with
  | "-"%char :: l' => (true, l')
  | "+"%char :: l' => (false, l')
  | _ => (false, l)
  end.

Definition read_exponent (l : list ascii) : option Z :=
  match l with
  | [] => Some 0
  | c :: l' =>
      if Ascii.eqb (lower c) "e"
      then
        let '(neg, l'') := read_sign l' in
        match read_digits 0 0 l'' with
        | (_, O, _) => None
        | (e, _, []) => Some (if neg then - Z.of_N e else Z.of_N e)
        | _ => None
        end
      else None
  end.

Definition read_decimal (neg : bool) (l : list ascii) : option float :=
  let '(m1, c1, rest1) := read_digits 0 0 l in
  let '(m2, c2, rest2) :=
    match rest1 with
    | "."%char :: frac => read_digits m1 0 frac
    | _ => (m1, O, rest1)
    end in
  if ((c1 + c2)%nat =? 0)%nat then None
  else
    match read_exponent rest2 with
    | Some e => Some (F64.of_decimal neg m2 (e - Z.of_nat c2))
    | None => None
    end.

Definition float_of_string (s : string) : result float :=
  let '(neg, body) := read_sign (strip (list_ascii_of_string s)) in
  let word := string_of_list_ascii (map lower body) in
  if bool_decide (word = "inf"%string ∨ word = "infinity"%string)
  then Ok (if neg then neg_infinity else infinity)
  else if bool_decide (word = "nan"%string) then Ok nan
  else
    match read_decimal neg body with
    | Some x => Ok x
    | None => Raise ValueError
    end.

End PyFloat.

(** ** Interfaces of the libraries the loader calls *)

(** The built-in [float(value)]; [Raise ValueError] on a non-numeric field. *)
Class Builtins := { py_float : string → result float }.

(** ** Data model *)

(** A measurement row [(steering_angle, throttle, break_force)]. *)
Definition measurement : Type := float * float * float.

Definition steering (m : measurement) : float := m.1.1.

(** The two shapes a measurement array takes: [np.array([])] is the
    one-dimensional empty array, [np.array(rows)] of a non-empty list of
    triples has shape [(n, 3)]; [np.delete] keeps the number of dimensions,
    so a two-dimensional array may have zero rows. *)
Inductive ndarray : Type :=
| Arr1 (xs : list float)
| Arr2 (rows : list measurement).

(** The loader's configuration, as set by [__init__]. *)
Record DataLoader : Type := {
  train_file : string;
  log_file : string;
  img_folder : string;
  path_separator : string;
  angle_correction : option float;
  normalize_factor : option float;
  flip_min_angle : option float
}.

(** [__init__]'s defaults. *)
Definition init (train_file log_file img_folder : string) : DataLoader :=
  {| train_file := train_file; log_file := log_file; img_folder := img_folder;
     path_separator := "\";
     angle_correction := Some 0.1%float;
     normalize_factor := Some 2.5%float;
     flip_min_angle := Some 0%float |}.

(** ** NumPy on measurement arrays *)

Module np.

(** [np.array(rows)] for a Python list of 3-tuples. *)
Definition array (rows : list measurement) : ndarray :=
  match rows with
  | [] => Arr1 []
  | _ => Arr2 rows
  end.

(** [len(a)] *)
Definition len (a : ndarray) : nat :=
  match a with
  | Arr1 xs => length xs
  | Arr2 rows => length rows
  end.

(** [a[:,0]]: too many indices for a one-dimensional array. *)
Definition col0 (a : ndarray) : result (list float) :=
  match a with
  | Arr1 _ => Raise IndexError
  | Arr2 rows => Ok (steering <$> rows)
  end.

(** [np.clip(x, a_min, a_max)] on one element; a NaN passes through. *)
Definition clip (a_min a_max x : float) : float :=
  if (x <? a_min)%float then a_min
  else if (a_max <? x)%float then a_max
  else x.

Definition clip_row (a_min a_max : float) (m : measurement) : measurement :=
  let '(s, t, b) := m in (clip a_min a_max s, clip a_min a_max t, clip a_min a_max b).

(** The rows met when iterating over an array: scalars for a
    one-dimensional array, triples for a two-dimensional one. *)
Inductive row : Type :=
| Scalar (x : float)
| Triple (m : measurement).

Definition rows (a : ndarray) : list row :=
  match a with
  | Arr1 xs => Scalar <$> xs
  | Arr2 ms => Triple <$> ms
  end.

(** [steering_angle, throttle, break_force = measurement] *)
Definition unpack (r : row) : result measurement :=
  match r with
  | Triple m => Ok m
  | Scalar _ => Raise TypeError
  end.

(** The elements of [l] whose index, counted from [i], is not in [obj]. *)
Fixpoint keep_from {A} (i : nat) (obj : list nat) (l : list A) : list A :=
  match l with
  | [] => []
  | x :: l' =>
      if bool_decide (i ∈ obj) then keep_from (S i) obj l'
      else x :: keep_from (S i) obj l'
  end.

(** [np.delete(l, obj, axis=0)] for a list [obj] of non-negative indices:
    an index past the end is an [IndexError]; repeated indices count
    once; the kept elements stay in order. *)
Definition delete_list {A} (l : list A) (obj : list nat) : result (list A) :=
  if bool_decide (Forall (λ i, i < length l)%nat obj)
  then Ok (keep_from 0 obj l)
  else Raise IndexError.

Definition delete (a : ndarray) (obj : list nat) : result ndarray :=
  match a with
  | Arr1 xs => Arr1 <$> delete_list xs obj
  | Arr2 ms => Arr2 <$> delete_list ms obj
  end.

(** [np.append(a, values, axis=0)] for a Python list [values] of triples:
    [np.concatenate] demands equal numbers of dimensions, and the empty
    list converts to a one-dimensional array, a non-empty list of
    triples to a two-dimensional one. *)
Definition append (a : ndarray) (values : list measurement) : result ndarray :=
  match a, values with
  | Arr1 xs, [] => Ok (Arr1 xs)
  | Arr1 _, _ :: _ => Raise ValueError
  | Arr2 _, [] => Raise ValueError
  | Arr2 ms, _ :: _ => Ok (Arr2 (ms ++ values))
  end.

(** [l[idx]] for an index array [idx] (NumPy's [take]). *)
Definition take_list {A} (l : list A) (idx : list nat) : list A :=
  omap (λ i, l !! i) idx.

Definition take (a : ndarray) (idx : list nat) : ndarray :=
  match a with
  | Arr1 xs => Arr1 (take_list xs idx)
  | Arr2 ms => Arr2 (take_list ms idx)
  end.

(** [l[lo:hi]] for [0 <= lo <= hi]. *)
Definition slice_list {A} (l : list A) (lo hi : Z) : list A :=
  List.firstn (Z.to_nat (hi - lo)) (List.skipn (Z.to_nat lo) l).

Definition slice (a : ndarray) (lo hi : Z) : ndarray :=
  match a with
  | Arr1 xs => Arr1 (slice_list xs lo hi)
  | Arr2 ms => Arr2 (slice_list ms lo hi)
  end.

(** [np.where(cond)[0]]: the indices where [cond] holds, ascending;
    [where_from i] counts the indices from [i]. *)
Fixpoint where_from {A} (i : nat) (cond : A → bool) (l : list A) : list nat :=
  match l with
  | [] => []
  | x :: l' =>
      if cond x then i :: where_from (S i) cond l'
      else where_from (S i) cond l'
  end.

Definition where_ {A} (cond : A → bool) (l : list A) : list nat :=
  where_from 0 cond l.

End np.

(** ** The log parser *)

(** [img.split(self.path_separator)[-1]] *)
Definition bare_name (sep img : string) : result string :=
  parts ← Str.split sep img; Str.last_item parts.

(** [_parse_line]: the returned measurements are the rows of the Python
    list (no correction) or of the clipped [(3, 3)] array (correction). *)
Definition _parse_line {B : Builtins} (self : DataLoader) (line : list string)
  : result (list string * list measurement) :=
  names ← traverse (bare_name (path_separator self)) (take 3 line);
  match names with
  | [center_img; left_img; right_img] =>
      values ← traverse py_float (take 3 (drop 3 line));
      match values with
      | [steering_angle; throttle; break_force] =>
          match angle_correction self with
          | None => Ok ([center_img], [(steering_angle, throttle, break_force)])
          | Some correction =>
              Ok ([center_img; left_img; right_img],
                  np.clip_row (-1) 1 <$>
                    [(steering_angle, throttle, break_force);
                     ((steering_angle + correction)%float, throttle, break_force);
                     ((steering_angle - correction)%float, throttle, break_force)])
          end
      | _ => Raise ValueError
      end
  | _ => Raise ValueError
  end.

(** ** The process state: files, write log, NumPy's global random state *)

(** A pickled object: the dictionary [{'images': .., 'measurements': ..}]
    maps strings to arrays. *)
Inductive pyval : Type :=
| PyNames (names : list string)
| PyArray (a : ndarray).

(** NumPy calls whose algorithm lies outside the repository.
    - [rng_permutation g n] is [RandomState.permutation(n)] from state [g]
      (both [np.random.choice(.., replace=False)] and sklearn's [shuffle]
      draw one);
    - [histogram_auto angles] is [np.histogram(angles, bins='auto')]:
      the bin counts and the bin edges;
    - [cast_out_of_range x] is what [astype('uint32')] yields when the
      truncation of [x] is not representable (C leaves it undefined). *)
Class Numpy := {
  rng : Type;
  rng_permutation : rng → nat → list nat * rng;
  histogram_auto : list float → result (list Z * list float);
  cast_out_of_range : float → Z
}.

(** The operating system, OpenCV, [csv], [pickle] and the repository's
    [image_processor.process_image], which is not part of the sources.
    [cv2_decode] returns [None] when [cv2.imread] cannot decode a file. *)
Class Platform := {
  blob : Type;
  image : Type;
  tensor : Type;
  path_join : string → string → string;
  csv_reader : blob → list (list string);
  cv2_decode : blob → option image;
  cv2_encode : string → image → result blob;
  cv2_flip1 : image → image;
  process_image : option image → result tensor;
  pickle_dumps : gmap string pyval → blob;
  pickle_loads : blob → result (gmap string pyval)
}.

Section Process.
Context {B : Builtins} {N : Numpy} {P : Platform}.

Record state : Type := State {
  files : gmap string blob;
  writes : list string;
  random : rng
}.

(** Computations that read and write the process state and may raise. *)
Definition run (A : Type) : Type := state → result A * state.

#[global] Instance run_ret : MRet run := λ _ a s, (Ok a, s).
#[global] Instance run_bind : MBind run := λ _ _ f m s,
  match m s with
  | (Ok a, s') => f a s'
  | (Raise e, s') => (Raise e, s')
  end.

Definition lift {A} (r : result A) : run A := λ s, (r, s).

(** A [for] loop threading an accumulator. *)
Fixpoint for_each {S A} (f : S → A → run S) (acc : S) (l : list A) : run S :=
  match l with
  | [] => mret acc
  | x :: l' => acc' ← f acc x; for_each f acc' l'
  end.

(** [os.path.isfile(path)] *)
Definition isfile (path : string) : run bool :=
  λ s, (Ok (bool_decide (is_Some (files s !! path))), s).

(** [open(path)] for reading. *)
Definition open_read (path : string) : run blob :=
  λ s, match files s !! path with
       | Some b => (Ok b, s)
       | None => (Raise FileNotFoundError, s)
       end.

(** Writing a whole file; the path is appended to the write log. *)
Definition write_file (path : string) (b : blob) : run unit :=
  λ s, (Ok (), {| files := <[path := b]> (files s);
                  writes := writes s ++ [path];
                  random := random s |}).

(** [cv2.imread(path)]: [None] for a missing or undecodable file. *)
Definition imread (path : string) : run (option image) :=
  λ s, (Ok (files s !! path ≫= cv2_decode), s).

(** [cv2.flip(img, 1)]: OpenCV raises on [None]. *)
Definition flip (img : option image) : result image :=
  match img with
  | Some i => Ok (cv2_flip1 i)
  | None => Raise CvError
  end.

(** [cv2.imwrite(path, img)] *)
Definition imwrite (path : string) (img : image) : run unit :=
  b ← lift (cv2_encode path img); write_file path b.

(** Two states with the same files and the same write log. *)
Definition same_disk (s s' : state) : Prop :=
  files s' = files s ∧ writes s' = writes s.

(** [RandomState.permutation(n)] on the global state. *)
Definition permutation (n : nat) : run (list nat) :=
  λ s, let '(p, g) := rng_permutation (random s) n in
       (Ok p, {| files := files s; writes := writes s; random := g |}).

End Process.

(** ** The pipeline stages *)

Section Pipeline.
Context {B : Builtins} {N : Numpy} {P : Platform}.

(** [_load_data_log]: the loop over the rows of the csv reader. *)
Definition accumulate (self : DataLoader) (lines : list (list string))
  : result (list string * list measurement) :=
  foldl (λ acc line,
           '(images, measurements) ← acc;
           '(line_images, line_measurements) ← _parse_line self line;
           Ok (images ++ line_images, measurements ++ line_measurements))
        (Ok ([], [])) lines.

Definition _load_data_log (self : DataLoader) : run (list string * ndarray) :=
  csvfile ← open_read (log_file self);
  '(images, measurements) ← lift (accumulate self (csv_reader csvfile));
  mret (images, np.array measurements).

(** [np.mean(values)]: the counts are summed exactly (they stay far
    below 2^53) and divided in binary64. *)
Definition mean (values : list Z) : float :=
  PrimFloat.div (F64.of_Z (foldr Z.add 0 values)) (F64.of_Z (Z.of_nat (length values))).

(** [x.astype('uint32')] *)
Definition astype_uint32 (x : float) : Z :=
  match F64.trunc x with
  | Some z => if bool_decide (0 ≤ z < 2 ^ 32) then z else cast_out_of_range x mod 2 ^ 32
  | None => cast_out_of_range x mod 2 ^ 32
  end.

(** Membership of an angle in the bin [[bin_left, bin_right)], closed
    on the right for the last bin. *)
Definition in_bin (last : bool) (bin_left bin_right angle : float) : bool :=
  ((bin_left <=? angle) && (if last then angle <=? bin_right else angle <? bin_right))%float.

(** Membership in a bin given as [(last, bin_left, bin_right)]. *)
Definition member (bin : bool * float * float) (angle : float) : bool :=
  in_bin bin.1.1 bin.1.2 bin.2 angle.

(** The bins met by [for i, bin_right in enumerate(bins[1:])], each with
    the test [i == len(bins) - 2]. *)
Definition enumerate_bins (bins : list float) : list (bool * float * float) :=
  imap (λ i right, (bool_decide (i = length bins - 2)%nat, default right (bins !! i), right))
       (tail bins).

(** [np.random.choice(a, size, replace=False)]: the first [size] entries
    of a random permutation of the positions of [a]. *)
Definition choice (a : list nat) (size : Z) : run (list nat) :=
  if bool_decide (Z.of_nat (length a) < size) then lift (Raise ValueError)
  else
    idx ← permutation (length a);
    mret (np.take_list a (take (Z.to_nat size) idx)).

Definition normalize_bin (angles : list float) (max_wanted : Z)
    (drop : list nat) (bin : bool * float * float) : run (list nat) :=
  let '(last, bin_left, bin_right) := bin in
  let bin_angles := np.where_ (in_bin last bin_left bin_right) angles in
  if bool_decide (max_wanted < Z.of_nat (length bin_angles))
  then
    drop_idx ← choice bin_angles (Z.of_nat (length bin_angles) - max_wanted);
    mret (drop ++ drop_idx)
  else mret drop.

Definition _normalize (self : DataLoader) (images : list string)
    (measurements : ndarray) : run (list string * ndarray) :=
  angles ← lift (np.col0 measurements);
  '(values, bins) ← lift (histogram_auto angles);
  factor ← lift (match normalize_factor self with
                 | Some f => Ok f
                 | None => Raise TypeError
                 end);
  let max_wanted := astype_uint32 (mean values * factor)%float in
  drop ← for_each (normalize_bin angles max_wanted) [] (enumerate_bins bins);
  norm_images ← lift (np.delete_list images drop);
  norm_measurements ← lift (np.delete measurements drop);
  mret (norm_images, norm_measurements).

(** The test of [_flip_images]; comparing with [None] is a [TypeError]. *)
Definition qualifies (min_angle steering_angle : float) : bool :=
  ((min_angle <=? steering_angle) || (steering_angle <=? - min_angle))%float.

Definition flipped_name (image : string) : string := "flipped_" +:+ image.

Definition negate (m : measurement) : measurement :=
  let '(steering_angle, throttle, break_force) := m in
  ((- steering_angle)%float, throttle, break_force).

(** An [if] statement without [else]. *)
Definition when_ (cond : bool) (body : run unit) : run unit :=
  if cond then body else mret tt.

(** The path of the flipped copy of [image], the samples the loop visits
    for a two-dimensional array, those it flips, and what it needs of the
    disk to flip one. *)
Definition flipped_path (self : DataLoader) (image : string) : string :=
  path_join (img_folder self) (flipped_name image).

Definition as_sample (im : string * measurement) : string * np.row :=
  (im.1, np.Triple im.2).

Definition qualifying (min_angle : float) (samples : list (string * measurement))
  : list (string * measurement) :=
  filter (λ im, qualifies min_angle (steering im.2) = true) samples.

Definition readable (self : DataLoader) (s : state) (image : string) : Prop :=
  is_Some (files s !! path_join (img_folder self) image ≫= cv2_decode).

(** One iteration of the loop of [_flip_images]. *)
Definition flip_one (self : DataLoader)
    (acc : list string * list measurement) (sample : string * np.row)
  : run (list string * list measurement) :=
  let '(new_images, new_measurements) := acc in
  let '(image, measurement) := sample in
  m ← lift (np.unpack measurement);
  min_angle ← lift (match flip_min_angle self with
                    | Some a => Ok a
                    | None => Raise TypeError
                    end);
  if qualifies min_angle (steering m)
  then
    let img_flipped_name := flipped_name image in
    let img_flipped_path := path_join (img_folder self) img_flipped_name in
    present ← isfile img_flipped_path;
    when_ (negb present)
      (img ← imread (path_join (img_folder self) image);
       img_flipped ← lift (flip img);
       imwrite img_flipped_path img_flipped);;
    mret (new_images ++ [img_flipped_name], new_measurements ++ [negate m])
  else mret acc.

Definition _flip_images (self : DataLoader) (images : list string)
    (measurements : ndarray) : run (list string * ndarray) :=
  '(new_images, new_measurements) ←
    for_each (flip_one self) ([], []) (zip images (np.rows measurements));
  measurements_out ← lift (np.append measurements new_measurements);
  mret (images ++ new_images, measurements_out).

Definition _process_data (self : DataLoader) : run (list string * ndarray) :=
  '(images, measurements) ← _load_data_log self;
  '(images, measurements) ←
    (if normalize_factor self is Some _
     then _normalize self images measurements
     else mret (images, measurements));
  if flip_min_angle self is Some _
  then _flip_images self images measurements
  else mret (images, measurements).

(** [_save_pickle] and [_read_pickle] *)
Definition _save_pickle (self : DataLoader) (images : pyval) (measurements : pyval)
  : run unit :=
  let results : gmap string pyval :=
    <["measurements" := measurements]> (<["images" := images]> ∅) in
  write_file (train_file self) (pickle_dumps results).

Definition getitem (d : gmap string pyval) (key : string) : result pyval :=
  match d !! key with
  | Some v => Ok v
  | None => Raise KeyError
  end.

Definition _read_pickle (self : DataLoader) : run (pyval * pyval) :=
  f ← open_read (train_file self);
  train ← lift (pickle_loads f);
  images ← lift (getitem train "images");
  measurements ← lift (getitem train "measurements");
  mret (images, measurements).

Definition load_dataset (self : DataLoader) (regenerate : bool) : run (pyval * pyval) :=
  cached ← isfile (train_file self);
  if regenerate || negb cached
  then
    '(images, measurements) ← _process_data self;
    _save_pickle self (PyNames images) (PyArray measurements);;
    mret (PyNames images, PyArray measurements)
  else _read_pickle self.

End Pipeline.

(** ** The batch generator

    A Python generator is a resumable computation: [next] runs it up to
    the following [yield]. Its state is the suspended frame: the local
    variables and the offsets the [for] loop has still to visit. The
    [while True] loop makes [next] a potentially endless search for the
    following [yield], so it takes fuel: one unit per pass of the loop. *)

Section Generator.
Context {B : Builtins} {N : Numpy} {P : Platform}.

Record batch : Type := Batch { X_batch : list tensor; Y_batch : list float }.

Inductive generator_state : Type :=
| Created (images : list string) (measurements : ndarray) (batch_size : Z)
| Suspended (images : list string) (measurements : ndarray)
            (num_samples : nat) (batch_size : Z) (pending : list Z)
| Finished.

Inductive step : Type :=
| Yielded (b : batch) (g : generator_state)
| OutOfFuel.

(** [map] of an effectful function over a list, left to right. *)
Fixpoint traverse_run {A C} (f : A → run C) (l : list A) : run (list C) :=
  match l with
  | [] => mret []
  | x :: l' => y ← f x; ys ← traverse_run f l'; mret (y :: ys)
  end.

Definition _load_image (self : DataLoader) (image_file : string) : run tensor :=
  img ← imread (path_join (img_folder self) image_file);
  lift (process_image img).

(** [sklearn.utils.shuffle(images, measurements)]: one permutation of
    the positions, applied to both arrays; the inputs are not mutated. *)
Definition shuffle (images : list string) (measurements : ndarray)
  : run (list string * ndarray) :=
  if bool_decide (length images = np.len measurements)
  then
    idx ← permutation (length images);
    mret (np.take_list images idx, np.take measurements idx)
  else lift (Raise ValueError).

(** The multiples of [step > 0] below [stop]. *)
Definition multiples (stop step : Z) : list Z :=
  (λ k, Z.of_nat k * step) <$> seq 0 (Z.to_nat ((stop + step - 1) / step)).

(** [range(0, stop, step)] for [stop >= 0]. *)
Definition py_range (stop step : Z) : result (list Z) :=
  if step =? 0 then Raise ValueError
  else if step <? 0 then Ok []
  else Ok (multiples stop step).

(** [l[offset:offset + batch_size]] *)
Definition chunk {A} (l : list A) (offset batch_size : Z) : list A :=
  np.slice_list l offset (offset + batch_size).

(** What [_load_image] returns on the disk [fs]. *)
Definition load_pure (self : DataLoader) (fs : gmap string blob) (image_file : string)
  : result tensor :=
  process_image (fs !! path_join (img_folder self) image_file ≫= cv2_decode).

(** The images the generator may be asked for can be loaded from [fs]. *)
Definition loadable (self : DataLoader) (fs : gmap string blob)
    (images : list string) : Prop :=
  ∀ image, image ∈ images → ∃ t, load_pure self fs image = Ok t.

(** The generator stands at the start of an epoch. *)
Definition epoch_start (g : generator_state) (images : list string)
    (rows : list measurement) (num_samples : nat) (batch_size : Z) : Prop :=
  g = Created images (Arr2 rows) batch_size ∨
  g = Suspended images (Arr2 rows) num_samples batch_size [].

(** The body of the [for] loop up to its [yield]. *)
Definition make_batch (self : DataLoader) (images : list string)
    (measurements : ndarray) (offset batch_size : Z) : run batch :=
  let images_batch := np.slice_list images offset (offset + batch_size) in
  let measurements_batch := np.slice measurements offset (offset + batch_size) in
  X ← traverse_run (_load_image self) images_batch;
  Y ← lift (np.col0 measurements_batch);
  mret (Batch X Y).

(** [while True: shuffle; for offset in range(..): ..] up to the first
    [yield]. *)
Fixpoint while_true (fuel : nat) (self : DataLoader) (images : list string)
    (measurements : ndarray) (num_samples : nat) (batch_size : Z) : run step :=
  match fuel with
  | O => mret OutOfFuel
  | S fuel' =>
      '(images, measurements) ← shuffle images measurements;
      offsets ← lift (py_range (Z.of_nat num_samples) batch_size);
      match offsets with
      | [] => while_true fuel' self images measurements num_samples batch_size
      | offset :: pending =>
          b ← make_batch self images measurements offset batch_size;
          mret (Yielded b (Suspended images measurements num_samples batch_size pending))
      end
  end.

(** [next(g)] on the generator object [g = self.generator(..)]. After an
    exception the generator is [Finished]. *)
Definition next (fuel : nat) (self : DataLoader) (g : generator_state) : run step :=
  match g with
  | Created images measurements batch_size =>
      let num_samples := length images in
      if bool_decide (num_samples = np.len measurements)
      then while_true fuel self images measurements num_samples batch_size
      else lift (Raise AssertionError)
  | Suspended images measurements num_samples batch_size pending =>
      match pending with
      | offset :: pending' =>
          b ← make_batch self images measurements offset batch_size;
          mret (Yielded b (Suspended images measurements num_samples batch_size pending'))
      | [] => while_true fuel self images measurements num_samples batch_size
      end
  | Finished => lift (Raise StopIteration)
  end.

(** [generator(images, measurements, batch_size)]: calling a generator
    function runs none of its body. *)
Definition generator (images : list string) (measurements : ndarray)
    (batch_size : Z) : generator_state :=
  Created images measurements batch_size.

(** Pulling [k] batches. *)
Fixpoint pull (fuel : nat) (self : DataLoader) (k : nat) (g : generator_state)
  : run (option (list batch * generator_state)) :=
  match k with
  | O => mret (Some ([], g))
  | S k' =>
      st ← next fuel self g;
      match st with
      | OutOfFuel => mret None
      | Yielded b g' =>
          rest ← pull fuel self k' g';
          mret (match rest with
                | Some (bs, g'') => Some (b :: bs, g'')
                | None => None
                end)
      end
  end.

(** A generator object the code can be in, for batch size [b]: created on
    as many images as rows, or suspended in an epoch over [n] images and
    [n] rows with offsets below [n] still to serve. *)
Definition well_formed (b : Z) (g : generator_state) : Prop :=
  match g with
  | Created images measurements batch_size =>
      batch_size = b ∧
      ∃ rows, measurements = Arr2 rows ∧ length images = length rows
  | Suspended images measurements n batch_size pending =>
      batch_size = b ∧ 0 < b ∧
      ∃ rows, measurements = Arr2 rows ∧ length images = n ∧ length rows = n ∧
              Forall (λ o, 0 ≤ o < Z.of_nat n) pending
  | Finished => True
  end.

End Generator.

(** ** A reference runtime

    Executable instances of the interfaces, on which the model is run on
    concrete logs: the decimal parser of [PyFloat], an equal-width
    histogram, a random state that rotates, POSIX paths and files kept as
    structured values. *)

Module Reference.

Definition builtins : Builtins := {| py_float := PyFloat.float_of_string |}.

Definition fmin (x y : float) : float := if (y <? x)%float then y else x.
Definition fmax (x y : float) : float := if (x <? y)%float then y else x.

(** [n + 1] equally spaced edges from [first] to [last]. *)
Definition linspace (first last : float) (n : nat) : list float :=
  (λ i, if bool_decide (i = n) then last
        else (first + (last - first) * F64.of_Z (Z.of_nat i) / F64.of_Z (Z.of_nat n))%float)
    <$> seq 0 (S n).

Definition count_in (angles : list float) (bin : bool * float * float) : Z :=
  let '(last, bin_left, bin_right) := bin in
  Z.of_nat (length (np.where_ (in_bin last bin_left bin_right) angles)).

(** A histogram of [nbins] equal-width bins over the range of the data,
    counted with half-open bins, the last one closed. *)
Definition histogram (nbins : nat) (angles : list float)
  : result (list Z * list float) :=
  if bool_decide (Exists (λ a, PrimFloat.is_nan a = true) angles)
  then Raise ValueError
  else
    let '(first, last) :=
      match angles with
      | [] => (0, 1)%float
      | a :: rest =>
          let lo := foldr fmin a rest in
          let hi := foldr fmax a rest in
          if (lo =? hi)%float then (lo - 0.5, hi + 0.5)%float else (lo, hi)
      end in
    let bins := linspace first last nbins in
    Ok (count_in angles <$> enumerate_bins bins, bins).

Definition numpy (nbins : nat) : Numpy :=
  {| rng := nat;
     rng_permutation g n := (rotate g (seq 0 n), S g);
     histogram_auto := histogram nbins;
     cast_out_of_range _ := 0 |}.

Inductive file : Type :=
| ImageFile (pixels : list (list Z))
| CsvFile (rows : list (list string))
| PickleFile (d : gmap string pyval).

(** [posixpath.join(a, b)] *)
Definition posix_join (a b : string) : string :=
  if String.prefix "/" b then b
  else if bool_decide (a = "") then b
  else if String.prefix "/" (String.rev a) then a +:+ b
  else a +:+ "/" +:+ b.

Definition platform : Platform :=
  {| blob := file;
     image := list (list Z);
     tensor := list (list Z);
     path_join := posix_join;
     csv_reader b := match b with CsvFile rows => rows | _ => [] end;
     cv2_decode b := match b with ImageFile px => Some px | _ => None end;
     cv2_encode _ img := Ok (ImageFile img);
     cv2_flip1 img := reverse <$> img;
     process_image img := match img with Some px => Ok px | None => Raise TypeError end;
     pickle_dumps d := PickleFile d;
     pickle_loads b := match b with PickleFile d => Ok d | _ => Raise UnpicklingError end |}.

(** A loader over the directory [data]. *)
Definition loader (sep : string) (correction factor min_angle : option float)
  : DataLoader :=
  {| train_file := "train.p"; log_file := "driving_log.csv"; img_folder := "data";
     path_separator := sep; angle_correction := correction;
     normalize_factor := factor; flip_min_angle := min_angle |}.

Definition log_of (rows : list (list string)) : list (string * file) :=
  [("driving_log.csv", CsvFile rows)].

Definition photo (name : string) (px : list (list Z)) : string * file :=
  (posix_join "data" name, ImageFile px).

Definition disk (seed : nat) (entries : list (string * file))
  : state (N := numpy 2) (P := platform) :=
  State (N := numpy 2) (P := platform) (list_to_map entries) [] seed.

(** A four-line log and the disk that holds it with its twelve images. *)
Definition example_log : list (list string) :=
  [["IMG/c1.jpg"; "IMG/l1.jpg"; "IMG/r1.jpg"; "0.5"; "0.2"; "0.0"];
   ["IMG/c2.jpg"; "IMG/l2.jpg"; "IMG/r2.jpg"; "0.0"; "0.2"; "0.0"];
   ["IMG/c3.jpg"; "IMG/l3.jpg"; "IMG/r3.jpg"; "0.05"; "0.2"; "0.0"];
   ["IMG/c4.jpg"; "IMG/l4.jpg"; "IMG/r4.jpg"; "-0.3"; "0.2"; "0.0"]].

Definition example_images : list string :=
  ["c1.jpg"; "l1.jpg"; "r1.jpg"; "c2.jpg"; "l2.jpg"; "r2.jpg";
   "c3.jpg"; "l3.jpg"; "r3.jpg"; "c4.jpg"; "l4.jpg"; "r4.jpg"].

Definition example_disk : state (N := numpy 2) (P := platform) :=
  disk 1 (log_of example_log ++ ((λ n, photo n [[1; 2]; [3; 4]]) <$> example_images)).

End Reference.


(** * Properties *)

(** ** Facts on the order of binary64 numbers *)

Module FloatFacts.
Import FloatOrder.

Lemma SFcompare_rank x y :
  SFcompare x y =
    match rank x, rank y with
    | Some p, Some q => Some (lex_cmp p q)
    | _, _ => None
    end.
Proof.
  destruct x as [sx|sx| |sx mx ex], y as [sy|sy| |sy my ey]; simpl; try reflexivity;
    try (destruct sx; reflexivity); try (destruct sy; reflexivity);
    try (destruct sx, sy; reflexivity).
  destruct sx, sy; simpl; try reflexivity.
  rewrite Z.compare_opp, (Z.compare_antisym ex ey).
  destruct (ex ?= ey); reflexivity.
Qed.


Lemma lex_cmp_lt p q : lex_cmp p q = Lt <-> lex_lt p q.
Proof.
  destruct p as [[a b] c], q as [[a' b'] c']; simpl.
  destruct (Z.compare_spec a a'), (Z.compare_spec b b'), (Z.compare_spec c c');
    split; intros; try discriminate; try reflexivity; lia.
Qed.

Lemma lex_cmp_le p q : lex_cmp p q <> Gt <-> lex_le p q.
Proof.
  destruct p as [[a b] c], q as [[a' b'] c']; simpl.
  destruct (Z.compare_spec a a'), (Z.compare_spec b b'), (Z.compare_spec c c');
    split; intros; try discriminate; try congruence; lia.
Qed.

Lemma ltb_iff x y : (x <? y)%float = true <-> ranked lex_lt x y.
Proof.
  rewrite ltb_spec. unfold SFltb, ranked. rewrite SFcompare_rank.
  destruct (rank (Prim2SF x)) as [p|], (rank (Prim2SF y)) as [q|];
    try (split; [discriminate|tauto]).
  pose proof (lex_cmp_lt p q) as E. destruct (lex_cmp p q); split; intros; try tauto; try discriminate;
    destruct E as [E1 E2]; try (specialize (E2 ltac:(assumption))); congruence.
Qed.

Lemma leb_iff x y : (x <=? y)%float = true <-> ranked lex_le x y.
Proof.
  rewrite leb_spec. unfold SFleb, ranked. rewrite SFcompare_rank.
  destruct (rank (Prim2SF x)) as [p|], (rank (Prim2SF y)) as [q|];
    try (split; [discriminate|tauto]).
  pose proof (lex_cmp_le p q) as E. destruct (lex_cmp p q); split; intros; try tauto; try discriminate;
    destruct E as [E1 E2]; try (specialize (E2 ltac:(assumption))); try (apply E1); congruence.
Qed.

Lemma is_nan_iff x : PrimFloat.is_nan x = true <-> rank (Prim2SF x) = None.
Proof.
  unfold PrimFloat.is_nan. rewrite negb_true_iff, FloatAxioms.eqb_spec.
  unfold SFeqb. rewrite SFcompare_rank.
  destruct (rank (Prim2SF x)) as [[[a b] c]|]; [|tauto].
  simpl. rewrite !Z.compare_refl. split; discriminate.
Qed.

Lemma rank_opp x :
  rank (Prim2SF (- x)%float) =
    option_map (fun '(a, b, c) => (- a, - b, - c)) (rank (Prim2SF x)).
Proof.
  rewrite opp_spec.
  destruct (Prim2SF x) as [s|s| |s m e]; simpl; try reflexivity;
    destruct s; simpl; rewrite ?Z.opp_involutive; reflexivity.
Qed.

Lemma rank_abs x :
  rank (Prim2SF (abs x)) =
    option_map (fun '(a, b, c) => if a <? 0 then (- a, - b, - c) else (a, b, c))
               (rank (Prim2SF x)).
Proof.
  rewrite abs_spec.
  destruct (Prim2SF x) as [s|s| |s m e]; simpl; try reflexivity;
    destruct s; simpl; rewrite ?Z.opp_involutive; reflexivity.
Qed.

(** A zero has the only rank of class [0]. *)
Lemma rank_zero_class x a b c :
  rank x = Some (a, b, c) -> (a = 0 -> b = 0 ∧ c = 0) ∧ -2 <= a <= 2.
Proof.
  destruct x as [s|s| |s m e]; simpl; intros E; try discriminate;
    destruct s; inversion E; lia.
Qed.

Lemma lt_le x y : (x <? y)%float = true -> (x <=? y)%float = true.
Proof.
  rewrite ltb_iff, leb_iff. unfold ranked.
  destruct (rank (Prim2SF x)) as [[[a b] c]|], (rank (Prim2SF y)) as [[[a' b'] c']|];
    simpl; try tauto. lia.
Qed.

Lemma le_not_lt x y : (x <=? y)%float = true -> (y <? x)%float = false.
Proof.
  intros L. apply not_true_is_false. revert L.
  rewrite ltb_iff, leb_iff. unfold ranked.
  destruct (rank (Prim2SF x)) as [[[a b] c]|], (rank (Prim2SF y)) as [[[a' b'] c']|];
    simpl; try tauto. lia.
Qed.

Lemma lt_not_le x y : (x <? y)%float = true -> (y <=? x)%float = false.
Proof.
  intros L. apply not_true_is_false. revert L.
  rewrite ltb_iff, leb_iff. unfold ranked.
  destruct (rank (Prim2SF x)) as [[[a b] c]|], (rank (Prim2SF y)) as [[[a' b'] c']|];
    simpl; try tauto. lia.
Qed.

Lemma not_lt_le x y :
  PrimFloat.is_nan x = false -> PrimFloat.is_nan y = false ->
  (x <? y)%float = false -> (y <=? x)%float = true.
Proof.
  intros Nx Ny L. apply not_true_iff_false in L, Nx, Ny.
  rewrite is_nan_iff in Nx, Ny. revert L.
  rewrite ltb_iff, leb_iff. unfold ranked.
  destruct (rank (Prim2SF x)) as [[[a b] c]|], (rank (Prim2SF y)) as [[[a' b'] c']|];
    simpl; try tauto. lia.
Qed.

Lemma lt_le_trans x y z :
  (x <? y)%float = true -> (y <=? z)%float = true -> (x <? z)%float = true.
Proof.
  rewrite !ltb_iff, leb_iff. unfold ranked.
  destruct (rank (Prim2SF x)) as [[[a b] c]|], (rank (Prim2SF y)) as [[[a' b'] c']|],
    (rank (Prim2SF z)) as [[[a'' b''] c'']|]; simpl; try tauto. lia.
Qed.

Lemma lt_trans x y z :
  (x <? y)%float = true -> (y <? z)%float = true -> (x <? z)%float = true.
Proof. intros L1 L2. eapply lt_le_trans; [exact L1|]. apply lt_le, L2. Qed.

(** [a >= m or a <= -m] is [|a| >= m]. *)
Lemma abs_ge m a :
  ((m <=? a) || (a <=? - m))%float = (m <=? abs a)%float.
Proof.
  apply eq_true_iff_eq. rewrite orb_true_iff, !leb_iff. unfold ranked.
  rewrite rank_opp, rank_abs.
  destruct (rank (Prim2SF m)) as [[[a1 b1] c1]|] eqn:Rm,
    (rank (Prim2SF a)) as [[[a2 b2] c2]|] eqn:Ra; simpl; try tauto.
  apply rank_zero_class in Rm, Ra.
  destruct (Z.ltb_spec a2 0); simpl; lia.
Qed.

End FloatFacts.

(** ** NumPy's [clip] *)

Section Clip.
Import FloatOrder FloatFacts.

Lemma clip_clipped x : clipped (-1) 1 (np.clip (-1) 1 x).
Proof.
  unfold np.clip.
  destruct (x <? -1)%float eqn:Lo; [right; split; reflexivity|].
  destruct (1 <? x)%float eqn:Hi; [right; split; reflexivity|].
  destruct (PrimFloat.is_nan x) eqn:Nan; [by left|].
  right. split; apply not_lt_le; auto.
Qed.

Lemma clip_between x : between (-1) 1 x → np.clip (-1) 1 x = x.
Proof.
  intros [Lo Hi]. unfold np.clip.
  by rewrite (le_not_lt _ _ Lo), (le_not_lt _ _ Hi).
Qed.

Lemma clip_row_clipped m :
  let m' := np.clip_row (-1) 1 m in
  clipped (-1) 1 m'.1.1 ∧ clipped (-1) 1 m'.1.2 ∧ clipped (-1) 1 m'.2.
Proof. destruct m as [[s t] b]. simpl. auto using clip_clipped. Qed.

Lemma clip_row_between s t b :
  between (-1) 1 s → between (-1) 1 t → between (-1) 1 b →
  np.clip_row (-1) 1 (s, t, b) = (s, t, b).
Proof. intros. simpl. by rewrite !clip_between. Qed.

End Clip.

(** ** The log parser *)

Section Parser.
Context {B : Builtins}.

Lemma split_from_last sep s : ∀ skip cur,
  is_Some (last (Str.split_from sep skip cur s)).
Proof.
  induction s as [|c s IH]; intros skip cur; simpl; [by eexists|].
  destruct skip; [|apply IH].
  match goal with |- context [if ?p then _ else _] => destruct p end; [|apply IH].
  destruct (IH (Nat.pred (String.length sep)) EmptyString) as [x Hx].
  exists x. by rewrite last_cons, Hx.
Qed.

(** With a non-empty separator every path has a bare name. *)
Lemma bare_name_total sep img : sep ≠ EmptyString → ∃ name, bare_name sep img = Ok name.
Proof.
  intros Hsep. unfold bare_name, Str.split.
  destruct sep as [|c sep]; [done|]. simpl.
  destruct (split_from_last (String c sep) img 0 EmptyString) as [x Hx].
  exists x. unfold Str.last_item. by rewrite Hx.
Qed.

(** [_parse_line] on a line of at least six fields whose paths split and
    whose numbers parse. *)
Lemma parse_line_ok self p1 p2 p3 f1 f2 f3 rest n1 n2 n3 s t b :
  bare_name (path_separator self) p1 = Ok n1 →
  bare_name (path_separator self) p2 = Ok n2 →
  bare_name (path_separator self) p3 = Ok n3 →
  py_float f1 = Ok s → py_float f2 = Ok t → py_float f3 = Ok b →
  _parse_line self (p1 :: p2 :: p3 :: f1 :: f2 :: f3 :: rest) =
    match angle_correction self with
    | None => Ok ([n1], [(s, t, b)])
    | Some c =>
        Ok ([n1; n2; n3],
            np.clip_row (-1) 1 <$>
              [(s, t, b); ((s + c)%float, t, b); ((s - c)%float, t, b)])
    end.
Proof.
  intros H1 H2 H3 H4 H5 H6. unfold _parse_line. simpl.
  rewrite H1, H2, H3. simpl. rewrite H4, H5, H6. simpl.
  by destruct (angle_correction self).
Qed.

(** Whatever [_parse_line] returns pairs every image with one row. *)
Lemma parse_line_lengths self line images measurements :
  _parse_line self line = Ok (images, measurements) →
  length images = length measurements.
Proof.
  unfold _parse_line.
  destruct (traverse _ (take 3 line)) as [names|]; simpl; [|done].
  destruct names as [|n1 [|n2 [|n3 [|]]]]; try done.
  destruct (traverse py_float _) as [values|]; simpl; [|done].
  destruct values as [|v1 [|v2 [|v3 [|]]]]; try done.
  destruct (angle_correction self); intros [= <- <-]; done.
Qed.

End Parser.

(** C2. The log line [IMG/c.jpg, IMG/l.jpg, IMG/r.jpg, 0.5, 0.2, 0.0] parsed
    with separator [/] and correction 0.1 gives the three bare names and the
    measurements (0.5, 0.2, 0.0), (0.6, 0.2, 0.0), (0.4, 0.2, 0.0): centre
    unchanged, left with the correction added, right with it subtracted. *)
Theorem parse_line_example (factor min_angle : option float) :
  _parse_line (B := Reference.builtins)
      (Reference.loader "/" (Some 0.1%float) factor min_angle)
      ["IMG/c.jpg"; "IMG/l.jpg"; "IMG/r.jpg"; "0.5"; "0.2"; "0.0"]
    = Ok (["c.jpg"; "l.jpg"; "r.jpg"],
          [(0.5, 0.2, 0.0); (0.6, 0.2, 0.0); (0.4, 0.2, 0.0)]%float).
Proof. vm_compute. reflexivity. Qed.

(** C3. With a correction [c] set, the three rows [_parse_line] emits are
    the parsed row and its two corrected copies, each clipped element-wise
    to [-1, 1], throttle and brake included; steering 0.95 with correction
    0.1 gives a left steering angle of exactly 1.0. *)
Theorem parse_line_clips {B : Builtins} self c p1 p2 p3 f1 f2 f3 rest s t b :
  angle_correction self = Some c →
  path_separator self ≠ EmptyString →
  py_float f1 = Ok s → py_float f2 = Ok t → py_float f3 = Ok b →
  let emitted :=
    np.clip_row (-1) 1 <$>
      [(s, t, b); ((s + c)%float, t, b); ((s - c)%float, t, b)] in
  (∃ images,
     _parse_line self (p1 :: p2 :: p3 :: f1 :: f2 :: f3 :: rest) = Ok (images, emitted)) ∧
  Forall (λ m : measurement,
            FloatOrder.clipped (-1) 1 m.1.1 ∧
            FloatOrder.clipped (-1) 1 m.1.2 ∧
            FloatOrder.clipped (-1) 1 m.2) emitted ∧
  (s = 0.95%float → c = 0.1%float →
   steering <$> emitted !! 1%nat = Some 1%float).
Proof.
  intros Hc Hsep H1 H2 H3 emitted. split; [|split].
  - destruct (bare_name_total _ p1 Hsep) as [n1 E1].
    destruct (bare_name_total _ p2 Hsep) as [n2 E2].
    destruct (bare_name_total _ p3 Hsep) as [n3 E3].
    exists [n1; n2; n3].
    rewrite (parse_line_ok self _ _ _ _ _ _ rest _ _ _ _ _ _ E1 E2 E3 H1 H2 H3).
    by rewrite Hc.
  - unfold emitted. repeat (apply Forall_cons; split; [apply clip_row_clipped|]).
    apply Forall_nil_2.
  - intros -> ->. reflexivity.
Qed.

Lemma parse_line_clips_witness :
  ∃ images,
    _parse_line (B := Reference.builtins)
        (Reference.loader "/" (Some 0.1%float) None None)
        ["IMG/c.jpg"; "IMG/l.jpg"; "IMG/r.jpg"; "0.95"; "1.5"; "-2"]
      = Ok (images,
            [(0.95, 1, -1); (1, 1, -1); (0.95 - 0.1, 1, -1)]%float).
Proof.
  exact (proj1 (parse_line_clips (B := Reference.builtins)
                  (Reference.loader "/" (Some 0.1%float) None None) 0.1%float
                  "IMG/c.jpg" "IMG/l.jpg" "IMG/r.jpg" "0.95" "1.5" "-2" []
                  0.95%float 1.5%float (-2)%float
                  eq_refl ltac:(discriminate) eq_refl eq_refl eq_refl)).
Defined.

(** C4, as stated, fails: with a correction set the centre row goes through
    the same [np.clip] as the side rows, so a parsed steering angle of 1.5
    is emitted as 1.0. *)
Lemma parse_line_center_counterexample :
  ¬ (∀ (B : Builtins) self line images measurements s t b,
       _parse_line self line = Ok (images, measurements) →
       traverse py_float (take 3 (drop 3 line)) = Ok [s; t; b] →
       head measurements = Some (s, t, b)).
Proof.
  intros claim.
  specialize (claim Reference.builtins
                (Reference.loader "/" (Some 0.1%float) None None)
                ["IMG/c.jpg"; "IMG/l.jpg"; "IMG/r.jpg"; "1.5"; "0.2"; "0.0"]
                ["c.jpg"; "l.jpg"; "r.jpg"]
                [(1, 0.2, 0); (1, 0.2, 0); (1, 0.2, 0)]%float
                1.5%float 0.2%float 0%float eq_refl eq_refl).
  apply (f_equal (λ o, match o with
                       | Some (x, _, _) => (x <? 1.25)%float
                       | None => false
                       end)) in claim.
  vm_compute in claim. discriminate.
Qed.

(** C4, amended. The centre sample always comes first, under its bare
    name. Its measurement is the parsed row when no correction is set, and
    the parsed row clipped element-wise to [-1, 1] when one is; so it is
    the parsed row itself whenever the three parsed values lie in
    [-1, 1]. *)
Theorem parse_line_center {B : Builtins} self p1 p2 p3 f1 f2 f3 rest s t b :
  path_separator self ≠ EmptyString →
  py_float f1 = Ok s → py_float f2 = Ok t → py_float f3 = Ok b →
  ∃ center_img images center measurements,
    _parse_line self (p1 :: p2 :: p3 :: f1 :: f2 :: f3 :: rest)
      = Ok (center_img :: images, center :: measurements) ∧
    bare_name (path_separator self) p1 = Ok center_img ∧
    center = match angle_correction self with
             | None => (s, t, b)
             | Some _ => np.clip_row (-1) 1 (s, t, b)
             end ∧
    (FloatOrder.between (-1) 1 s → FloatOrder.between (-1) 1 t →
     FloatOrder.between (-1) 1 b → center = (s, t, b)).
Proof.
  intros Hsep H1 H2 H3.
  destruct (bare_name_total _ p1 Hsep) as [n1 E1].
  destruct (bare_name_total _ p2 Hsep) as [n2 E2].
  destruct (bare_name_total _ p3 Hsep) as [n3 E3].
  rewrite (parse_line_ok self _ _ _ _ _ _ rest _ _ _ _ _ _ E1 E2 E3 H1 H2 H3).
  destruct (angle_correction self) as [c|].
  - eexists n1, _, _, _. split; [reflexivity|]. split; [done|]. split; [done|].
    intros. by apply clip_row_between.
  - eexists n1, _, _, _. split; [reflexivity|]. done.
Qed.

Lemma parse_line_center_witness :
  ∃ center_img images center measurements,
    _parse_line (B := Reference.builtins)
        (Reference.loader "/" (Some 0.1%float) None None)
        ["IMG/c.jpg"; "IMG/l.jpg"; "IMG/r.jpg"; "1.5"; "0.2"; "0.0"]
      = Ok (center_img :: images, center :: measurements) ∧
    bare_name "/" "IMG/c.jpg" = Ok center_img ∧
    center = np.clip_row (-1) 1 (1.5, 0.2, 0)%float ∧
    (FloatOrder.between (-1) 1 1.5 → FloatOrder.between (-1) 1 0.2 →
     FloatOrder.between (-1) 1 0 → center = (1.5, 0.2, 0)%float).
Proof.
  exact (parse_line_center (B := Reference.builtins)
           (Reference.loader "/" (Some 0.1%float) None None)
           "IMG/c.jpg" "IMG/l.jpg" "IMG/r.jpg" "1.5" "0.2" "0.0" []
           1.5%float 0.2%float 0%float
           ltac:(discriminate) eq_refl eq_refl eq_refl).
Defined.

(** ** Reasoning on [run] computations *)

Section RunFacts.
Context {N : Numpy} {P : Platform}.

Lemma bind_ok {A C} (m : run A) (f : A → run C) s a s1 :
  m s = (Ok a, s1) → (m ≫= f) s = f a s1.
Proof. intros E. unfold mbind, run_bind. by rewrite E. Qed.

Lemma bind_raise {A C} (m : run A) (f : A → run C) s e s1 :
  m s = (Raise e, s1) → (m ≫= f) s = (Raise e, s1).
Proof. intros E. unfold mbind, run_bind. by rewrite E. Qed.

Lemma bind_inv {A C} (m : run A) (f : A → run C) s c s2 :
  (m ≫= f) s = (Ok c, s2) →
  ∃ a s1, m s = (Ok a, s1) ∧ f a s1 = (Ok c, s2).
Proof.
  unfold mbind, run_bind. destruct (m s) as [[a|e] s1]; [|done].
  intros E. by exists a, s1.
Qed.

Lemma lift_inv {A} (r : result A) s a s1 :
  lift r s = (Ok a, s1) → r = Ok a ∧ s1 = s.
Proof. unfold lift. by intros [= -> ->]. Qed.

Lemma ret_inv {A} (a b : A) (s s1 : state) :
  mret (M := run) a s = (Ok b, s1) → b = a ∧ s1 = s.
Proof. unfold mret, run_ret. by intros [= -> ->]. Qed.

(** An invariant of the accumulator survives a loop that returns. *)
Lemma for_each_invariant {S A} (I : S → Prop) (f : S → A → run S) l :
  (∀ acc x s r s1, I acc → f acc x s = (Ok r, s1) → I r) →
  ∀ acc s r s1, I acc → for_each f acc l s = (Ok r, s1) → I r.
Proof.
  intros Hf. induction l as [|x l IH]; intros acc s r s1 Hacc; simpl.
  - by intros [-> _]%ret_inv.
  - intros (acc' & s' & E1 & E2)%bind_inv. eauto.
Qed.

End RunFacts.

(** Decomposes a hypothesis stating that a [run] computation returned. *)
Ltac run_inv H :=
  repeat match type of H with
    | (_ ≫= _) _ = (Ok _, _) =>
        let a := fresh "a" in let s := fresh "s" in let E := fresh "E" in
        apply bind_inv in H as (a & s & E & H)
    | lift _ _ = (Ok _, _) => apply lift_inv in H as [H ->]
    | mret _ _ = (Ok _, _) => apply ret_inv in H as [-> ->]
    end.

(** ** The pairing invariant *)

Section Pairing.
Context {B : Builtins} {N : Numpy} {P : Platform}.

Lemma foldl_raise self lines e :
  foldl (λ acc line,
           '(images, measurements) ← acc;
           '(line_images, line_measurements) ← _parse_line self line;
           Ok (images ++ line_images, measurements ++ line_measurements))
        (Raise e) lines = Raise e.
Proof. induction lines; simpl; auto. Qed.

Lemma accumulate_lengths self lines images measurements :
  accumulate self lines = Ok (images, measurements) →
  length images = length measurements.
Proof.
  unfold accumulate.
  assert (G : ∀ acc : result (list string * list measurement),
             (∀ i m, acc = Ok (i, m) → length i = length m) →
             foldl (λ acc line,
                      '(images, measurements) ← acc;
                      '(line_images, line_measurements) ← _parse_line self line;
                      Ok (images ++ line_images, measurements ++ line_measurements))
                   acc lines = Ok (images, measurements) →
             length images = length measurements).
  { induction lines as [|line lines IH]; intros acc Hacc; simpl; [by auto|].
    apply IH. intros i m.
    destruct acc as [[i0 m0]|]; simpl; [|done].
    destruct (_parse_line self line) as [[li lm]|] eqn:E; simpl; [|done].
    intros [= <- <-]. rewrite !length_app.
    rewrite (Hacc i0 m0 eq_refl). by rewrite (parse_line_lengths _ _ _ _ E). }
  apply G. by intros i m [= <- <-].
Qed.

Lemma array_len rows : np.len (np.array rows) = length rows.
Proof. by destruct rows. Qed.

Lemma load_data_log_lengths self s images measurements s1 :
  _load_data_log self s = (Ok (images, measurements), s1) →
  length images = np.len measurements.
Proof.
  unfold _load_data_log. intros H.
  apply bind_inv in H as (csv & s' & _ & H).
  apply bind_inv in H as ([i m] & s'' & E & H).
  apply lift_inv in E as [E ->]. apply ret_inv in H as [[= -> ->] _].
  rewrite array_len. eauto using accumulate_lengths.
Qed.

Lemma keep_from_length {A C} obj (l : list A) (l' : list C) : ∀ i,
  length l = length l' →
  length (np.keep_from i obj l) = length (np.keep_from i obj l').
Proof.
  revert l'. induction l as [|x l IH]; intros [|y l'] i; simpl; try done.
  intros [= E]. case_bool_decide; simpl; auto.
Qed.

Lemma delete_lengths (images : list string) measurements obj images' measurements' :
  length images = np.len measurements →
  np.delete_list images obj = Ok images' →
  np.delete measurements obj = Ok measurements' →
  length images' = np.len measurements'.
Proof.
  intros Hlen. unfold np.delete, np.delete_list.
  case_bool_decide; [|done]. intros [= <-].
  destruct measurements as [xs|ms]; simpl in *;
    (case_bool_decide; [|done]); intros [= <-]; simpl;
    by apply keep_from_length.
Qed.

Lemma normalize_lengths self images measurements s out s1 :
  length images = np.len measurements →
  _normalize self images measurements s = (Ok out, s1) →
  length out.1 = np.len out.2.
Proof.
  intros Hlen H. unfold _normalize in H.
  apply bind_inv in H as (angles & s' & _ & H).
  apply bind_inv in H as ([values bins] & s'' & _ & H).
  apply bind_inv in H as (factor & s3 & _ & H).
  apply bind_inv in H as (drop & s4 & _ & H).
  apply bind_inv in H as (ni & s5 & E1 & H).
  apply bind_inv in H as (nm & s6 & E2 & H).
  apply lift_inv in E1 as [E1 ->]. apply lift_inv in E2 as [E2 ->].
  apply ret_inv in H as [-> _]. simpl. eauto using delete_lengths.
Qed.

Lemma flip_one_lengths self acc sample s r s1 :
  length acc.1 = length acc.2 →
  flip_one self acc sample s = (Ok r, s1) →
  length r.1 = length r.2.
Proof.
  destruct acc as [ni nm], sample as [image row]. simpl. intros Hlen H.
  unfold flip_one in H.
  apply bind_inv in H as (m & s' & _ & H).
  apply bind_inv in H as (min_angle & s'' & _ & H).
  destruct (qualifies min_angle (steering m)).
  - apply bind_inv in H as (present & s3 & _ & H).
    apply bind_inv in H as (u & s4 & _ & H).
    apply ret_inv in H as [-> _]. simpl. rewrite !length_app. simpl. lia.
  - by apply ret_inv in H as [-> _].
Qed.

Lemma append_len a values a' :
  np.append a values = Ok a' → np.len a' = (np.len a + length values)%nat.
Proof.
  destruct a as [xs|ms], values as [|v values]; simpl; try done;
    intros [= <-]; simpl; rewrite ?length_app; simpl; lia.
Qed.

Lemma flip_images_lengths self images measurements s out s1 :
  length images = np.len measurements →
  _flip_images self images measurements s = (Ok out, s1) →
  length out.1 = np.len out.2.
Proof.
  intros Hlen H. unfold _flip_images in H.
  apply bind_inv in H as ([ni nm] & s' & E & H).
  apply bind_inv in H as (mo & s'' & E2 & H).
  apply lift_inv in E2 as [E2 ->]. apply ret_inv in H as [-> _]. simpl.
  rewrite length_app, (append_len _ _ _ E2), Hlen. f_equal.
  eapply (for_each_invariant (λ acc : list string * list measurement,
                                length acc.1 = length acc.2)) in E; eauto.
  intros. eapply flip_one_lengths; eauto.
Qed.

(** What [_read_pickle] finds after [_save_pickle], for a serializer
    that reads back what it wrote. *)
Lemma save_read_pickle self images measurements s :
  (∀ d, pickle_loads (pickle_dumps d) = Ok d) →
  ∃ s1, _save_pickle self images measurements s = (Ok (), s1) ∧
        _read_pickle self s1 = (Ok (images, measurements), s1).
Proof.
  intros Hrt. eexists. split; [reflexivity|].
  unfold _read_pickle.
  erewrite bind_ok; [|unfold open_read; simpl; by rewrite lookup_insert_eq].
  erewrite bind_ok; [|unfold lift; by rewrite Hrt].
  erewrite bind_ok; [|unfold lift, getitem;
                      by rewrite lookup_insert_ne, lookup_insert_eq].
  erewrite bind_ok; [|unfold lift, getitem; by rewrite lookup_insert_eq].
  reflexivity.
Qed.

End Pairing.

(** C1. Every stage hands on paired sequences: what [_load_data_log]
    accumulates, what [_normalize] and [_flip_images] return for a paired
    input, and what [_read_pickle] reads back after [_save_pickle] of a
    paired dataset, all have as many images as measurements. *)
Theorem pairing_invariant {B : Builtins} {N : Numpy} {P : Platform} :
  (∀ d, pickle_loads (pickle_dumps d) = Ok d) →
  (∀ self lines images measurements,
     accumulate self lines = Ok (images, measurements) →
     length images = length measurements) ∧
  (∀ self s images measurements s1,
     _load_data_log self s = (Ok (images, measurements), s1) →
     length images = np.len measurements) ∧
  (∀ self images measurements s out s1,
     length images = np.len measurements →
     _normalize self images measurements s = (Ok out, s1) →
     length out.1 = np.len out.2) ∧
  (∀ self images measurements s out s1,
     length images = np.len measurements →
     _flip_images self images measurements s = (Ok out, s1) →
     length out.1 = np.len out.2) ∧
  (∀ self images measurements s,
     length images = np.len measurements →
     ∃ s1 images' measurements',
       _save_pickle self (PyNames images) (PyArray measurements) s = (Ok (), s1) ∧
       _read_pickle self s1 = (Ok (PyNames images', PyArray measurements'), s1) ∧
       length images' = np.len measurements').
Proof.
  intros Hrt. repeat split.
  - apply accumulate_lengths.
  - apply load_data_log_lengths.
  - apply normalize_lengths.
  - apply flip_images_lengths.
  - intros self images measurements s Hlen.
    destruct (save_read_pickle self (PyNames images) (PyArray measurements) s Hrt)
      as (s1 & E1 & E2).
    by exists s1, images, measurements.
Qed.

Lemma pairing_invariant_witness :
  let flipped :=
    _flip_images (N := Reference.numpy 2) (P := Reference.platform)
      (Reference.loader "/" None None (Some 0.1%float))
      ["c1.jpg"; "c4.jpg"] (Arr2 [(0.5, 0.2, 0); (-0.3, 0.2, 0)]%float)
      Reference.example_disk in
  flipped.1 = Ok (["c1.jpg"; "c4.jpg"; "flipped_c1.jpg"; "flipped_c4.jpg"],
                  Arr2 [(0.5, 0.2, 0); (-0.3, 0.2, 0);
                        (-0.5, 0.2, 0); (0.3, 0.2, 0)]%float) ∧
  length ["c1.jpg"; "c4.jpg"; "flipped_c1.jpg"; "flipped_c4.jpg"]
    = np.len (Arr2 [(0.5, 0.2, 0); (-0.3, 0.2, 0);
                    (-0.5, 0.2, 0); (0.3, 0.2, 0)]%float).
Proof.
  split; [vm_compute; reflexivity|].
  refine (proj1 (proj2 (proj2 (proj2
            (pairing_invariant (B := Reference.builtins) (N := Reference.numpy 2)
               (P := Reference.platform) (λ d, eq_refl)))))
            (Reference.loader "/" None None (Some 0.1%float))
            ["c1.jpg"; "c4.jpg"] (Arr2 [(0.5, 0.2, 0); (-0.3, 0.2, 0)]%float)
            Reference.example_disk
            (["c1.jpg"; "c4.jpg"; "flipped_c1.jpg"; "flipped_c4.jpg"],
             Arr2 [(0.5, 0.2, 0); (-0.3, 0.2, 0); (-0.5, 0.2, 0); (0.3, 0.2, 0)]%float)
            (_flip_images (Reference.loader "/" None None (Some 0.1%float))
               ["c1.jpg"; "c4.jpg"] (Arr2 [(0.5, 0.2, 0); (-0.3, 0.2, 0)]%float)
               Reference.example_disk).2
            eq_refl _).
  vm_compute. reflexivity.
Defined.

(** C8. [_save_pickle] followed by [_read_pickle] on the same path returns
    the images and the measurements that were saved, element by element
    and in order, for a serializer that reads back what it wrote. *)
Theorem pickle_round_trip {N : Numpy} {P : Platform} self
    (images : list string) (measurements : ndarray) s :
  (∀ d, pickle_loads (pickle_dumps d) = Ok d) →
  ∃ s1,
    _save_pickle self (PyNames images) (PyArray measurements) s = (Ok (), s1) ∧
    _read_pickle self s1 = (Ok (PyNames images, PyArray measurements), s1).
Proof. apply save_read_pickle. Qed.

Lemma pickle_round_trip_witness :
  ∃ s1,
    _save_pickle (N := Reference.numpy 2) (P := Reference.platform)
        (Reference.loader "/" None None None)
        (PyNames ["c1.jpg"; "flipped_c1.jpg"])
        (PyArray (Arr2 [(0.5, 0.2, 0); (-0.5, 0.2, 0)]%float))
        Reference.example_disk = (Ok (), s1) ∧
    _read_pickle (Reference.loader "/" None None None) s1
      = (Ok (PyNames ["c1.jpg"; "flipped_c1.jpg"],
             PyArray (Arr2 [(0.5, 0.2, 0); (-0.5, 0.2, 0)]%float)), s1).
Proof.
  exact (pickle_round_trip (N := Reference.numpy 2) (P := Reference.platform)
           (Reference.loader "/" None None None)
           ["c1.jpg"; "flipped_c1.jpg"]
           (Arr2 [(0.5, 0.2, 0); (-0.5, 0.2, 0)]%float)
           Reference.example_disk (λ d, eq_refl)).
Defined.

(** C10. On a log of zero lines [_load_data_log] returns the empty
    one-dimensional measurement array, and with normalization enabled
    building the dataset fails on [measurements[:,0]] with an [IndexError]
    instead of returning an empty dataset. *)
Theorem empty_log_fails {B : Builtins} {N : Numpy} {P : Platform} self s csvfile factor :
  files s !! log_file self = Some csvfile →
  csv_reader csvfile = [] →
  normalize_factor self = Some factor →
  _load_data_log self s = (Ok ([], Arr1 []), s) ∧
  _normalize self [] (Arr1 []) s = (Raise IndexError, s) ∧
  _process_data self s = (Raise IndexError, s) ∧
  load_dataset self true s = (Raise IndexError, s).
Proof.
  intros Hfile Hcsv Hfactor.
  assert (L : _load_data_log self s = (Ok ([], Arr1 []), s)).
  { unfold _load_data_log.
    erewrite bind_ok; [|unfold open_read; by rewrite Hfile].
    rewrite Hcsv. reflexivity. }
  assert (R : _process_data self s = (Raise IndexError, s)).
  { unfold _process_data. erewrite bind_ok; [|exact L].
    rewrite Hfactor. reflexivity. }
  split; [exact L|]. split; [reflexivity|]. split; [exact R|].
  unfold load_dataset. erewrite bind_ok; [|reflexivity]. simpl.
  erewrite bind_raise; [reflexivity|exact R].
Qed.

Lemma empty_log_fails_witness :
  let s := Reference.disk 0 (Reference.log_of []) in
  let self := Reference.loader "/" (Some 0.1%float) (Some 2.5%float) (Some 0%float) in
  _load_data_log (B := Reference.builtins) self s = (Ok ([], Arr1 []), s) ∧
  _normalize self [] (Arr1 []) s = (Raise IndexError, s) ∧
  _process_data (B := Reference.builtins) self s = (Raise IndexError, s) ∧
  load_dataset (B := Reference.builtins) self true s = (Raise IndexError, s).
Proof.
  exact (empty_log_fails (B := Reference.builtins) (N := Reference.numpy 2)
           (P := Reference.platform)
           (Reference.loader "/" (Some 0.1%float) (Some 2.5%float) (Some 0%float))
           (Reference.disk 0 (Reference.log_of []))
           (Reference.CsvFile []) 2.5%float eq_refl eq_refl eq_refl).
Defined.

(** ** Flip augmentation *)

Section FlipFacts.
Context {N : Numpy} {P : Platform}.
Variables (self : DataLoader) (min_angle : float).
Hypothesis Hmin : flip_min_angle self = Some min_angle.

Lemma flip_one_skip acc image m s :
  qualifies min_angle (steering m) = false →
  flip_one self acc (image, np.Triple m) s = (Ok acc, s).
Proof.
  intros Hq. destruct acc as [ni nm]. unfold flip_one. simpl.
  rewrite Hmin. erewrite bind_ok; [|reflexivity]. erewrite bind_ok; [|reflexivity].
  by rewrite Hq.
Qed.

Lemma flip_one_present acc image m s :
  qualifies min_angle (steering m) = true →
  is_Some (files s !! flipped_path self image) →
  flip_one self acc (image, np.Triple m) s
    = (Ok (acc.1 ++ [flipped_name image], acc.2 ++ [negate m]), s).
Proof.
  intros Hq Hp. destruct acc as [ni nm]. unfold flip_one. simpl.
  rewrite Hmin. erewrite bind_ok; [|reflexivity]. erewrite bind_ok; [|reflexivity].
  rewrite Hq. erewrite bind_ok; [|reflexivity].
  fold (flipped_path self image). rewrite bool_decide_eq_true_2 by done.
  reflexivity.
Qed.

Lemma flip_one_absent acc image m s r s1 :
  qualifies min_angle (steering m) = true →
  files s !! flipped_path self image = None →
  flip_one self acc (image, np.Triple m) s = (Ok r, s1) →
  r = (acc.1 ++ [flipped_name image], acc.2 ++ [negate m]) ∧
  ∃ img b,
    files s !! path_join (img_folder self) image ≫= cv2_decode = Some img ∧
    cv2_encode (flipped_path self image) (cv2_flip1 img) = Ok b ∧
    s1 = State (<[flipped_path self image := b]> (files s))
               (writes s ++ [flipped_path self image]) (random s).
Proof.
  intros Hq Hp. destruct acc as [ni nm]. unfold flip_one. simpl.
  rewrite Hmin. erewrite bind_ok; [|reflexivity]. erewrite bind_ok; [|reflexivity].
  rewrite Hq. erewrite bind_ok; [|reflexivity].
  fold (flipped_path self image).
  rewrite bool_decide_eq_false_2 by (rewrite Hp; by intros [? ?]).
  simpl. intros H.
  apply bind_inv in H as (u & s' & E & H). apply ret_inv in H as [-> ->].
  split; [done|].
  apply bind_inv in E as (img & s2 & E1 & E).
  unfold imread in E1. injection E1 as E1 <-.
  apply bind_inv in E as (flipped & s3 & E2 & E).
  apply lift_inv in E2 as [E2 ->].
  destruct img as [img|]; [|done]. injection E2 as <-.
  unfold imwrite in E.
  apply bind_inv in E as (b & s4 & E3 & E). apply lift_inv in E3 as [E3 ->].
  unfold write_file in E. injection E as <-.
  by exists img, b.
Qed.

Lemma flip_one_write acc image m s img b :
  qualifies min_angle (steering m) = true →
  files s !! flipped_path self image = None →
  files s !! path_join (img_folder self) image ≫= cv2_decode = Some img →
  cv2_encode (flipped_path self image) (cv2_flip1 img) = Ok b →
  flip_one self acc (image, np.Triple m) s
    = (Ok (acc.1 ++ [flipped_name image], acc.2 ++ [negate m]),
       State (<[flipped_path self image := b]> (files s))
             (writes s ++ [flipped_path self image]) (random s)).
Proof.
  intros Hq Hp Himg Hb. destruct acc as [ni nm]. unfold flip_one. simpl.
  rewrite Hmin. erewrite bind_ok; [|reflexivity].
  erewrite bind_ok; [|reflexivity].
  rewrite Hq. erewrite bind_ok; [|reflexivity].
  fold (flipped_path self image).
  rewrite bool_decide_eq_false_2 by (rewrite Hp; by intros [? ?]).
  simpl. erewrite bind_ok; [reflexivity|].
  erewrite bind_ok; [|unfold imread; by rewrite Himg].
  erewrite bind_ok; [|reflexivity].
  unfold imwrite. erewrite bind_ok; [|unfold lift; by rewrite Hb].
  reflexivity.
Qed.

(** What a returning loop did: its output, and its effect on the disk. *)
Lemma flip_loop_inv samples : ∀ acc s r s1,
  for_each (flip_one self) acc (as_sample <$> samples) s = (Ok r, s1) →
  r = (acc.1 ++ (flipped_name ∘ fst <$> qualifying min_angle samples),
       acc.2 ++ (negate ∘ snd <$> qualifying min_angle samples)) ∧
  random s1 = random s ∧
  (∀ p, is_Some (files s !! p) → is_Some (files s1 !! p)) ∧
  (∀ im, im ∈ qualifying min_angle samples →
         is_Some (files s1 !! flipped_path self im.1)) ∧
  ∃ ws, writes s1 = writes s ++ ws ∧ NoDup ws ∧
        ∀ w, w ∈ ws →
             files s !! w = None ∧
             ∃ im, im ∈ qualifying min_angle samples ∧ w = flipped_path self im.1.
Proof.
  induction samples as [|[image m] samples IH]; intros acc s r s1.
  - simpl. intros [-> ->]%ret_inv. rewrite !app_nil_r. destruct acc.
    split_and!; try done.
    + intros im Him. by apply elem_of_nil in Him.
    + exists []. rewrite app_nil_r. split; [done|]. split; [apply NoDup_nil_2|].
      intros w Hw. by apply elem_of_nil in Hw.
  - rewrite fmap_cons. change (as_sample (image, m)) with (image, np.Triple m).
    intros (acc' & s' & E1 & E2)%bind_inv.
    unfold qualifying. rewrite filter_cons. simpl.
    destruct (qualifies min_angle (steering m)) eqn:Hq.
    + rewrite decide_True by (simpl; congruence). fold (qualifying min_angle samples).
      destruct (files s !! flipped_path self image) as [b0|] eqn:Hp.
      * rewrite flip_one_present in E1 by (rewrite ?Hp; eauto).
        injection E1 as <- <-.
        apply IH in E2 as (-> & Hr & Hmono & Hall & ws & Hw & Hnd & Hws).
        simpl. rewrite <- !app_assoc. split_and!; try done.
        -- intros im [->|Him]%elem_of_cons; [|by auto].
           apply Hmono. simpl. by rewrite Hp.
        -- exists ws. split_and!; try done.
           intros w Hin. destruct (Hws w Hin) as (? & im & ? & ?).
           split; [done|]. exists im. split; [by right|done].
      * apply (flip_one_absent _ _ _ _ _ _ Hq Hp) in E1
          as (-> & img & b & _ & _ & ->).
        apply IH in E2 as (-> & Hr & Hmono & Hall & ws & Hw & Hnd & Hws).
        cbn [files writes random fst snd] in *.
        rewrite <- !app_assoc. split_and!; try done.
        -- intros p Hsome. apply Hmono.
           destruct (decide (flipped_path self image = p)) as [<-|Hne].
           ++ rewrite lookup_insert_eq. eauto.
           ++ by rewrite lookup_insert_ne.
        -- intros im [->|Him]%elem_of_cons; [|by auto].
           apply Hmono. simpl. rewrite lookup_insert_eq. eauto.
        -- exists (flipped_path self image :: ws). rewrite Hw, <- app_assoc.
           split_and!; [done| |].
           ++ constructor; [|done]. intros Hin.
              destruct (Hws _ Hin) as [Hnone _].
              by rewrite lookup_insert_eq in Hnone.
           ++ intros w [->|Hin]%elem_of_cons.
              ** split; [done|]. exists (image, m). split; [by left|done].
              ** destruct (Hws w Hin) as (Hnone & im & ? & ?). split.
                 --- destruct (decide (flipped_path self image = w)) as [<-|Hne].
                     +++ by rewrite lookup_insert_eq in Hnone.
                     +++ by rewrite lookup_insert_ne in Hnone.
                 --- exists im. split; [by right|done].
    + rewrite decide_False by (simpl; congruence).
      fold (qualifying min_angle samples).
      rewrite flip_one_skip in E1 by done. injection E1 as <- <-.
      by apply IH in E2.
Qed.

(** Once every flipped file is there the loop writes nothing. *)
Lemma flip_loop_again samples : ∀ acc s,
  (∀ im, im ∈ qualifying min_angle samples →
         is_Some (files s !! flipped_path self im.1)) →
  for_each (flip_one self) acc (as_sample <$> samples) s
    = (Ok (acc.1 ++ (flipped_name ∘ fst <$> qualifying min_angle samples),
           acc.2 ++ (negate ∘ snd <$> qualifying min_angle samples)), s).
Proof.
  induction samples as [|[image m] samples IH]; intros acc s Hall.
  - simpl. rewrite !app_nil_r. by destruct acc.
  - rewrite fmap_cons. change (as_sample (image, m)) with (image, np.Triple m).
    cbn [for_each]. revert Hall. unfold qualifying. rewrite filter_cons. simpl.
    destruct (qualifies min_angle (steering m)) eqn:Hq.
    + rewrite decide_True by (simpl; congruence). fold (qualifying min_angle samples).
      intros Hall. erewrite bind_ok; cycle 1.
      { apply flip_one_present; [done|]. apply (Hall (image, m)). by left. }
      rewrite IH by (intros; apply Hall; by right).
      simpl. by rewrite <- !app_assoc.
    + rewrite decide_False by (simpl; congruence).
      fold (qualifying min_angle samples). intros Hall.
      erewrite bind_ok; [|by apply flip_one_skip]. by apply IH.
Qed.

(** With readable sources and a working codec the loop returns. *)
Lemma flip_loop_total samples :
  (∀ p img, ∃ b, cv2_encode p img = Ok b) →
  (∀ p img b, cv2_encode p img = Ok b → is_Some (cv2_decode b)) →
  ∀ acc s,
    (∀ im, im ∈ qualifying min_angle samples → readable self s im.1) →
    ∃ r s1, for_each (flip_one self) acc (as_sample <$> samples) s = (Ok r, s1).
Proof.
  intros Henc Hdec.
  induction samples as [|[image m] samples IH]; intros acc s Hall.
  - by eexists _, _.
  - rewrite fmap_cons. change (as_sample (image, m)) with (image, np.Triple m).
    cbn [for_each]. revert Hall. unfold qualifying. rewrite filter_cons. simpl.
    destruct (qualifies min_angle (steering m)) eqn:Hq.
    + rewrite decide_True by (simpl; congruence). fold (qualifying min_angle samples).
      intros Hall.
      destruct (files s !! flipped_path self image) as [b0|] eqn:Hp.
      * erewrite bind_ok; cycle 1.
        { apply flip_one_present; [done|]. rewrite Hp. eauto. }
        apply IH. intros; apply Hall; by right.
      * destruct (Hall (image, m)) as [img Himg]; [by left|]. simpl in Himg.
        destruct (Henc (flipped_path self image) (cv2_flip1 img)) as [b Hb].
        erewrite bind_ok; [|by eapply flip_one_write].
        apply IH. intros im Him. unfold readable. simpl.
        destruct (decide (flipped_path self image = path_join (img_folder self) im.1))
          as [<-|Hne].
        -- rewrite lookup_insert_eq. simpl. eauto.
        -- rewrite lookup_insert_ne by done. apply Hall. by right.
    + rewrite decide_False by (simpl; congruence).
      fold (qualifying min_angle samples). intros Hall.
      erewrite bind_ok; [|by apply flip_one_skip]. by apply IH.
Qed.

End FlipFacts.

Section FlipImages.
Context {N : Numpy} {P : Platform}.

Lemma zip_rows (images : list string) rows :
  zip images (np.rows (Arr2 rows)) = as_sample <$> zip images rows.
Proof.
  simpl. revert rows. induction images as [|i images IH]; intros [|m rows];
    simpl; try done. by rewrite IH.
Qed.

(** Without a threshold the first comparison raises. *)
Lemma flip_loop_none self samples acc s r s1 :
  flip_min_angle self = None →
  for_each (flip_one self) acc (as_sample <$> samples) s = (Ok r, s1) →
  samples = [].
Proof.
  intros Hnone. destruct samples as [|[image m] samples]; [done|].
  rewrite fmap_cons. change (as_sample (image, m)) with (image, np.Triple m).
  intros (acc' & s' & E1 & _)%bind_inv.
  destruct acc as [ni nm]. unfold flip_one in E1. simpl in E1.
  rewrite Hnone in E1. done.
Qed.

Lemma in_zip_fst {A C} (l : list A) (k : list C) x : x ∈ zip l k → x.1 ∈ l.
Proof.
  revert k. induction l as [|a l IH]; intros [|c k]; simpl;
    try (by intros ?%elem_of_nil).
  intros [->|Hin]%elem_of_cons; [by left|]. right. eauto.
Qed.

Lemma in_qualifying min_angle samples im :
  im ∈ qualifying min_angle samples → im ∈ samples.
Proof. unfold qualifying. by intros [_ ?]%list_elem_of_filter. Qed.

Lemma qualifying_abs min_angle samples :
  qualifying min_angle samples
    = filter (λ im, (min_angle <=? abs (steering im.2))%float = true) samples.
Proof.
  unfold qualifying. apply list_filter_iff. intros im.
  unfold qualifies. by rewrite FloatFacts.abs_ge.
Qed.

End FlipImages.

(** What a returning [_flip_images] returns: the input samples, in order,
    followed by one new sample for each input sample whose steering angle
    [a] has [|a| >= flip_min_angle] and for no other: the image name is
    [flipped_] followed by the original name, the steering angle is
    negated, throttle and brake are kept. It does return when at least one
    sample qualifies, the images to flip are readable and the codec
    works. *)
Theorem flip_images_appends {N : Numpy} {P : Platform}
    self min_angle images rows s :
  flip_min_angle self = Some min_angle →
  let flipped :=
    filter (λ im, (min_angle <=? abs (steering im.2))%float = true)
           (zip images rows) in
  let expected :=
    (images ++ (flipped_name ∘ fst <$> flipped),
     Arr2 (rows ++ ((λ m, ((- m.1.1)%float, m.1.2, m.2)) ∘ snd <$> flipped))) in
  (∀ out s1, _flip_images self images (Arr2 rows) s = (Ok out, s1) → out = expected) ∧
  (flipped ≠ [] →
   (∀ p img, ∃ b, cv2_encode p img = Ok b) →
   (∀ p img b, cv2_encode p img = Ok b → is_Some (cv2_decode b)) →
   (∀ im, im ∈ flipped → readable self s im.1) →
   ∃ s1, _flip_images self images (Arr2 rows) s = (Ok expected, s1)).
Proof.
  intros Hmin flipped expected. subst expected flipped.
  rewrite <- qualifying_abs.
  assert (Hneg : ∀ l : list (string * measurement),
             (λ m : measurement, ((- m.1.1)%float, m.1.2, m.2)) ∘ snd <$> l
             = negate ∘ snd <$> l).
  { intros l. apply list_fmap_ext. by intros i [img [[a t] b]] _. }
  assert (Happ : ∀ new, new ≠ [] → np.append (Arr2 rows) new = Ok (Arr2 (rows ++ new))).
  { by intros [|m new]. }
  rewrite Hneg. clear Hneg.
  split.
  - intros out s1 H. unfold _flip_images in H. rewrite zip_rows in H.
    apply bind_inv in H as ([ni nm] & s' & E & H).
    apply (flip_loop_inv self min_angle Hmin) in E as ([= -> ->] & _).
    apply bind_inv in H as (mo & s'' & E2 & H).
    apply lift_inv in E2 as [E2 ->]. apply ret_inv in H as [-> _].
    simpl in *.
    destruct (negate ∘ snd <$> qualifying min_angle (zip images rows)) eqn:Hnew;
      [done|]. by injection E2 as <-.
  - intros Hne Henc Hdec Hread.
    destruct (flip_loop_total self min_angle Hmin (zip images rows) Henc Hdec
                ([], []) s Hread) as (r & s1 & E).
    pose proof (flip_loop_inv self min_angle Hmin _ _ _ _ _ E) as (-> & _).
    exists s1. unfold _flip_images. rewrite zip_rows.
    erewrite bind_ok; [|exact E]. cbv beta iota.
    erewrite bind_ok; [reflexivity|].
    unfold lift. cbn [fst snd app]. rewrite Happ; [done|].
    intros Hnil%fmap_nil_inv. done.
Qed.

Lemma flip_images_appends_witness :
  ∃ s1,
    _flip_images (N := Reference.numpy 2) (P := Reference.platform)
        (Reference.loader "/" None None (Some 0.3%float))
        ["c1.jpg"; "c2.jpg"; "c4.jpg"]
        (Arr2 [(0.5, 0.2, 0); (0.1, 0.2, 0); (-0.3, 0.2, 0)]%float)
        Reference.example_disk
      = (Ok (["c1.jpg"; "c2.jpg"; "c4.jpg"; "flipped_c1.jpg"; "flipped_c4.jpg"],
             Arr2 [(0.5, 0.2, 0); (0.1, 0.2, 0); (-0.3, 0.2, 0);
                   (-0.5, 0.2, 0); (0.3, 0.2, 0)]%float), s1).
Proof.
  refine (proj2 (flip_images_appends (N := Reference.numpy 2) (P := Reference.platform)
                   (Reference.loader "/" None None (Some 0.3%float)) 0.3%float
                   ["c1.jpg"; "c2.jpg"; "c4.jpg"]
                   [(0.5, 0.2, 0); (0.1, 0.2, 0); (-0.3, 0.2, 0)]%float
                   Reference.example_disk eq_refl) _ _ _ _).
  - vm_compute. discriminate.
  - intros p img. by eexists.
  - intros p img b [= <-]. by eexists.
  - apply Forall_forall. vm_compute.
    repeat (constructor; [by eexists|]). constructor.
Defined.

(** C6. Where no sample reaches the threshold the claim has [_flip_images]
    return the samples as they are, with nothing appended. The code does
    not: on two samples of straight driving and the threshold 0.2 of the
    constructor's documentation no angle has [|a| >= 0.2], so
    [new_measurements] stays empty and
    [np.append(measurements, [], axis=0)] raises [ValueError] on the
    two-dimensional array; no dataset is returned and the state is left
    as it was. *)
Theorem flip_images_below_threshold :
  let self := Reference.loader "/" None None (Some 0.2%float) in
  let images := ["c2.jpg"; "c3.jpg"] in
  let rows := [(0, 0.2, 0); (0.05, 0.2, 0)]%float in
  filter (λ im, (0.2 <=? abs (steering im.2))%float = true) (zip images rows) = [] ∧
  _flip_images (N := Reference.numpy 2) (P := Reference.platform)
      self images (Arr2 rows) Reference.example_disk
  = (Raise ValueError, Reference.example_disk) ∧
  ∀ s1, _flip_images (N := Reference.numpy 2) (P := Reference.platform)
          self images (Arr2 rows) Reference.example_disk
        ≠ (Ok (images, Arr2 rows), s1).
Proof.
  intros self images rows.
  assert (E : _flip_images (N := Reference.numpy 2) (P := Reference.platform)
                self images (Arr2 rows) Reference.example_disk
              = (Raise ValueError, Reference.example_disk)).
  { unfold _flip_images. rewrite zip_rows.
    erewrite bind_ok; cycle 1.
    { apply (flip_loop_again self 0.2%float eq_refl).
      intros im Him. vm_compute in Him. by apply elem_of_nil in Him. }
    reflexivity. }
  split_and!; [vm_compute; reflexivity|exact E|].
  intros s1. rewrite E. discriminate.
Qed.

(** C7. A run of [_flip_images] writes a flipped file only at a derived
    path where no file existed, and each such path once. A second run
    over the same images finds every flipped file: it leaves the disk and
    the write log as they are and returns the same output, the flipped
    samples included. *)
Theorem flip_images_idempotent {N : Numpy} {P : Platform}
    self images rows s out s1 :
  _flip_images self images (Arr2 rows) s = (Ok out, s1) →
  (∃ ws, writes s1 = writes s ++ ws ∧ NoDup ws ∧
         ∀ w, w ∈ ws →
              files s !! w = None ∧
              ∃ image, image ∈ images ∧ w = flipped_path self image) ∧
  (∀ p, is_Some (files s !! p) → is_Some (files s1 !! p)) ∧
  _flip_images self images (Arr2 rows) s1 = (Ok out, s1).
Proof.
  intros H. unfold _flip_images in H. rewrite zip_rows in H.
  apply bind_inv in H as ([ni nm] & s' & E & H).
  apply bind_inv in H as (mo & s'' & E2 & H).
  apply lift_inv in E2 as [E2 ->]. apply ret_inv in H as [-> ->].
  destruct (flip_min_angle self) as [min_angle|] eqn:Hmin; cycle 1.
  { pose proof (flip_loop_none _ _ _ _ _ _ Hmin E) as Hnil.
    rewrite Hnil in E. simpl in E. apply ret_inv in E as [[= -> ->] _]. done. }
  pose proof (flip_loop_inv self min_angle Hmin _ _ _ _ _ E)
    as ([= -> ->] & _ & Hmono & Hall & ws & Hw & Hnd & Hws).
  split; [|split; [exact Hmono|]].
  - exists ws. split; [done|]. split; [done|].
    intros w Hin. destruct (Hws w Hin) as (Hnone & im & Him & ->).
    split; [done|]. exists im.1. split; [|done].
    eapply in_zip_fst, in_qualifying, Him.
  - unfold _flip_images. rewrite zip_rows.
    erewrite bind_ok; [|by apply (flip_loop_again self min_angle Hmin)].
    cbv beta iota. cbn [fst snd app] in *. erewrite bind_ok; [reflexivity|].
    unfold lift. by rewrite E2.
Qed.

Lemma flip_images_idempotent_witness :
  let self := Reference.loader "/" None None (Some 0.3%float) in
  let images := ["c1.jpg"; "c2.jpg"; "c4.jpg"; "c1.jpg"] in
  let rows := [(0.5, 0.2, 0); (0.1, 0.2, 0); (-0.3, 0.2, 0); (0.5, 0.2, 0)]%float in
  let first := _flip_images (N := Reference.numpy 2) (P := Reference.platform)
                 self images (Arr2 rows) Reference.example_disk in
  writes first.2 = ["data/flipped_c1.jpg"; "data/flipped_c4.jpg"] ∧
  _flip_images self images (Arr2 rows) first.2
    = (Ok (images ++ ["flipped_c1.jpg"; "flipped_c4.jpg"; "flipped_c1.jpg"],
           Arr2 (rows ++ [(-0.5, 0.2, 0); (0.3, 0.2, 0); (-0.5, 0.2, 0)]%float)),
       first.2).
Proof.
  split; [vm_compute; reflexivity|].
  refine (proj2 (proj2 (flip_images_idempotent
                          (N := Reference.numpy 2) (P := Reference.platform)
                          (Reference.loader "/" None None (Some 0.3%float))
                          ["c1.jpg"; "c2.jpg"; "c4.jpg"; "c1.jpg"]
                          [(0.5, 0.2, 0); (0.1, 0.2, 0); (-0.3, 0.2, 0); (0.5, 0.2, 0)]%float
                          Reference.example_disk _ _ _))).
  vm_compute. reflexivity.
Defined.

(** ** Index sets: [np.where], [np.delete], [np.random.choice] *)

Section IndexFacts.
Context {A : Type}.
Implicit Types (l : list A) (cond : A → bool) (obj : list nat).

Lemma elem_of_where_from cond l : ∀ i j,
  j ∈ np.where_from i cond l ↔
  (i ≤ j)%nat ∧ ∃ x, l !! (j - i)%nat = Some x ∧ cond x = true.
Proof.
  induction l as [|x l IH]; intros i j; simpl.
  - split; [by intros ?%elem_of_nil|]. by intros (_ & y & ? & _).
  - destruct (cond x) eqn:Hx.
    + rewrite elem_of_cons, IH. split.
      * intros [->|(Hle & y & Hy & Hc)].
        -- split; [lia|]. exists x. by rewrite Nat.sub_diag.
        -- split; [lia|]. exists y. split; [|done].
           replace (j - i)%nat with (S (j - S i)) by lia. done.
      * intros (Hle & y & Hy & Hc).
        destruct (decide (j = i)) as [->|Hne]; [by left|]. right.
        split; [lia|]. exists y. split; [|done].
        replace (j - i)%nat with (S (j - S i)) in Hy by lia. done.
    + rewrite IH. split.
      * intros (Hle & y & Hy & Hc). split; [lia|]. exists y. split; [|done].
        replace (j - i)%nat with (S (j - S i)) by lia. done.
      * intros (Hle & y & Hy & Hc).
        destruct (decide (j = i)) as [->|Hne].
        -- rewrite Nat.sub_diag in Hy. simpl in Hy. congruence.
        -- split; [lia|]. exists y. split; [|done].
           replace (j - i)%nat with (S (j - S i)) in Hy by lia. done.
Qed.

Lemma elem_of_where cond l j :
  j ∈ np.where_ cond l ↔ ∃ x, l !! j = Some x ∧ cond x = true.
Proof.
  unfold np.where_. rewrite elem_of_where_from, Nat.sub_0_r.
  split; [by intros [_ ?]|]. intros ?. split; [lia|done].
Qed.

Lemma where_from_NoDup cond l : ∀ i, NoDup (np.where_from i cond l).
Proof.
  induction l as [|x l IH]; intros i; simpl; [constructor|].
  destruct (cond x); [|done]. constructor; [|done].
  rewrite elem_of_where_from. lia.
Qed.

Lemma where_lt cond l j : j ∈ np.where_ cond l → (j < length l)%nat.
Proof. rewrite elem_of_where. intros (x & Hx & _). by eapply lookup_lt_Some. Qed.

(** Counting the kept elements that satisfy [cond]. *)
Lemma keep_from_count cond obj l : ∀ i,
  length (filter (λ x, cond x = true) (np.keep_from i obj l))
  = length (filter (λ j, j ∉ obj) (np.where_from i cond l)).
Proof.
  induction l as [|x l IH]; intros i; simpl; [done|].
  case_bool_decide as Hi; destruct (cond x) eqn:Hx.
  - rewrite filter_cons_False by (by intros ?). apply IH.
  - apply IH.
  - rewrite !filter_cons_True by done. simpl. by rewrite IH.
  - rewrite filter_cons_False by (by rewrite Hx). apply IH.
Qed.

(** Deleting no index of a [cond]-element keeps the [cond]-elements. *)
Lemma keep_from_untouched cond obj l : ∀ i,
  (∀ j, j ∈ np.where_from i cond l → j ∉ obj) →
  filter (λ x, cond x = true) (np.keep_from i obj l)
  = filter (λ x, cond x = true) l.
Proof.
  induction l as [|x l IH]; intros i Hout; simpl in *; [done|].
  destruct (cond x) eqn:Hx.
  - rewrite bool_decide_eq_false_2 by (apply Hout; by left).
    rewrite !filter_cons_True by done. f_equal. apply IH.
    intros j Hj. apply Hout. by right.
  - rewrite (filter_cons_False _ x l) by (by rewrite Hx).
    case_bool_decide.
    + by apply IH.
    + rewrite filter_cons_False by (by rewrite Hx). by apply IH.
Qed.

Lemma keep_from_sublist obj l : ∀ i, np.keep_from i obj l `sublist_of` l.
Proof.
  induction l as [|x l IH]; intros i; simpl; [done|].
  case_bool_decide; [by apply sublist_cons|by apply sublist_skip].
Qed.

Lemma keep_from_zip {C} obj l (k : list C) : ∀ i,
  np.keep_from i obj (zip l k) = zip (np.keep_from i obj l) (np.keep_from i obj k).
Proof.
  revert k. induction l as [|x l IH]; intros [|y k] i; simpl; try done.
  - case_bool_decide; [|done]. by destruct (np.keep_from (S i) obj l).
  - case_bool_decide; simpl; by rewrite IH.
Qed.

Lemma where_from_fmap {C} (f : C → A) cond (k : list C) : ∀ i,
  np.where_from i cond (f <$> k) = np.where_from i (cond ∘ f) k.
Proof.
  induction k as [|y k IH]; intros i; simpl; [done|].
  destruct (cond (f y)); by rewrite IH.
Qed.

End IndexFacts.

Section ChoiceFacts.
Context {N : Numpy} {P : Platform}.

(** [a[idx]] for distinct valid positions of a duplicate-free [a]. *)
Lemma take_list_spec {A} (a : list A) idx :
  NoDup a → NoDup idx → (∀ j, j ∈ idx → (j < length a)%nat) →
  NoDup (np.take_list a idx) ∧
  length (np.take_list a idx) = length idx ∧
  (∀ x, x ∈ np.take_list a idx ↔ ∃ j, j ∈ idx ∧ a !! j = Some x).
Proof.
  intros Ha. unfold np.take_list.
  induction idx as [|j idx IH]; intros Hidx Hlt; simpl.
  - split; [constructor|]. split; [done|]. intros x. split.
    + by intros ?%elem_of_nil.
    + by intros (j & ?%elem_of_nil & _).
  - apply NoDup_cons in Hidx as [Hj Hidx].
    destruct (IH Hidx) as (IH1 & IH2 & IH3); [intros; apply Hlt; by right|].
    destruct (lookup_lt_is_Some_2 a j) as [x Hx]; [apply Hlt; by left|].
    rewrite Hx. simpl. split; [|split].
    + constructor; [|done]. rewrite IH3. intros (j' & Hj' & Hx').
      assert (j = j') by exact (NoDup_lookup a j j' x Ha Hx Hx'). by subst.
    + cbn [length]. f_equal. exact IH2.
    + intros y. rewrite elem_of_cons, IH3. split.
      * intros [->|(j' & ? & ?)].
        -- exists j. split; [apply list_elem_of_here|done].
        -- exists j'. split; [by apply list_elem_of_further|done].
      * intros (j' & [->|Hin]%elem_of_cons & Hy); [left; congruence|].
        right. by exists j'.
Qed.

(** [np.random.choice(a, size, replace=False)] draws [size] distinct
    elements of [a] and touches nothing but the random state. *)
Lemma choice_spec (a : list nat) size s :
  (∀ g n, (rng_permutation g n).1 ≡ₚ seq 0 n) →
  NoDup a → 0 ≤ size ≤ Z.of_nat (length a) →
  ∃ d s1, choice a size s = (Ok d, s1) ∧
          files s1 = files s ∧ writes s1 = writes s ∧
          NoDup d ∧ (∀ x, x ∈ d → x ∈ a) ∧ length d = Z.to_nat size.
Proof.
  intros Hperm Ha Hsize. unfold choice.
  rewrite bool_decide_eq_false_2 by lia.
  unfold permutation, mbind, run_bind.
  specialize (Hperm (random s) (length a)).
  destruct (rng_permutation (random s) (length a)) as [p g]. simpl in Hperm.
  eexists _, _. split; [reflexivity|]. simpl. split; [done|]. split; [done|].
  assert (Hnd : NoDup (take (Z.to_nat size) p)).
  { eapply (sublist_NoDup _ p); [|apply sublist_take].
    rewrite Hperm. apply NoDup_seq. }
  assert (Hlt : ∀ j, j ∈ take (Z.to_nat size) p → (j < length a)%nat).
  { intros j Hj. apply elem_of_take in Hj as (i & Hi & _).
    apply list_elem_of_lookup_2 in Hi. rewrite Hperm in Hi.
    apply elem_of_seq in Hi. lia. }
  destruct (take_list_spec a _ Ha Hnd Hlt) as (H1 & H2 & H3).
  split; [done|]. split.
  - intros x (j & _ & Hx)%H3. by eapply list_elem_of_lookup_2.
  - rewrite H2, length_take. apply Permutation_length in Hperm.
    rewrite length_seq in Hperm. lia.
Qed.

(** Removing [d] distinct members leaves at most [length m - length d]. *)
Lemma filter_out_length (m d drop : list nat) :
  NoDup d → (∀ x, x ∈ d → x ∈ m) → (∀ x, x ∈ d → x ∈ drop) →
  (length (filter (λ j, j ∉ drop) m) + length d ≤ length m)%nat.
Proof.
  intros Hd Hdm Hdrop.
  destruct (submseteq_Permutation d m) as [k Hk]; [by apply NoDup_submseteq|].
  rewrite Hk, filter_app, !length_app.
  assert (filter (λ j, j ∉ drop) d = []) as ->.
  { clear Hd Hdm Hk. induction d as [|x d IH]; [done|].
    rewrite filter_cons_False by (intros Hx; apply Hx, Hdrop; by left).
    apply IH. intros; apply Hdrop; by right. }
  pose proof (length_filter (λ j, j ∉ drop) k). simpl. lia.
Qed.

End ChoiceFacts.

(** ** Histogram bins *)

Section BinFacts.
Import FloatOrder FloatFacts.

Lemma enumerate_bins_lookup bins k last bin_left bin_right :
  enumerate_bins bins !! k = Some (last, bin_left, bin_right) →
  bins !! k = Some bin_left ∧ bins !! S k = Some bin_right ∧
  last = bool_decide (k = length bins - 2)%nat.
Proof.
  unfold enumerate_bins. rewrite list_lookup_imap, lookup_tail.
  destruct (bins !! S k) as [r|] eqn:Hr; [|done]. simpl.
  destruct (lookup_lt_is_Some_2 bins k) as [l Hl].
  { apply lookup_lt_Some in Hr. lia. }
  rewrite Hl. simpl. by intros [= <- <- <-].
Qed.

(** Strictly increasing edges are increasing at any distance. *)
Lemma increasing_lookup bins :
  increasing bins = true →
  ∀ i j x y, (i < j)%nat → bins !! i = Some x → bins !! j = Some y →
             (x <? y)%float = true.
Proof.
  induction bins as [|e bins IH]; [by intros _ i j x y _ ?|].
  intros Hinc.
  assert (Htail : increasing bins = true).
  { destruct bins; [done|]. simpl in Hinc. by apply andb_true_iff in Hinc as [_ ?]. }
  assert (Hhead : ∀ j y, bins !! j = Some y → (e <? y)%float = true).
  { clear IH. revert e Hinc Htail.
    induction bins as [|e' bins IH']; intros e Hinc Htail j y; [done|].
    simpl in Hinc. apply andb_true_iff in Hinc as [He Hinc'].
    destruct j as [|j]; simpl; [by intros [= <-]|].
    intros Hy. eapply lt_trans; [exact He|].
    eapply IH'; [exact Hinc'| |exact Hy].
    destruct bins; [done|]. simpl in Hinc'. by apply andb_true_iff in Hinc' as [_ ?]. }
  intros i j x y Hij Hx Hy. destruct j as [|j]; [lia|].
  destruct i as [|i]; simpl in *.
  - injection Hx as <-. eauto.
  - eapply (IH Htail i j); [lia|done|done].
Qed.

(** No angle belongs to two bins. *)
Lemma bins_disjoint bins k1 k2 bin1 bin2 angle :
  increasing bins = true →
  enumerate_bins bins !! k1 = Some bin1 →
  enumerate_bins bins !! k2 = Some bin2 →
  member bin1 angle = true → member bin2 angle = true →
  k1 = k2.
Proof.
  intros Hinc.
  assert (G : ∀ k1 k2 bin1 bin2,
             (k1 < k2)%nat →
             enumerate_bins bins !! k1 = Some bin1 →
             enumerate_bins bins !! k2 = Some bin2 →
             member bin1 angle = true → member bin2 angle = true → False).
  { clear k1 k2 bin1 bin2.
    intros k1 k2 [[last1 l1] r1] [[last2 l2] r2] Hlt H1 H2.
    apply enumerate_bins_lookup in H1 as (_ & Hr1 & ->).
    apply enumerate_bins_lookup in H2 as (Hl2 & Hr2 & _).
    unfold member, in_bin. simpl.
    rewrite bool_decide_eq_false_2
      by (apply lookup_lt_Some in Hr2; lia).
    intros [_ Ha1]%andb_true_iff [Ha2 _]%andb_true_iff.
    assert (Hle : (r1 <=? l2)%float = true).
    { destruct (decide (S k1 = k2)) as [<-|Hne].
      - assert (r1 = l2) as -> by congruence.
        apply not_lt_le; [| |].
        + apply not_true_iff_false. rewrite is_nan_iff.
          apply ltb_iff in Ha1. unfold ranked in Ha1.
          destruct (rank (Prim2SF angle)); [|done].
          by destruct (rank (Prim2SF l2)).
        + apply not_true_iff_false. rewrite is_nan_iff.
          apply ltb_iff in Ha1. unfold ranked in Ha1.
          destruct (rank (Prim2SF angle)); [|done].
          by destruct (rank (Prim2SF l2)).
        + apply le_not_lt.
          apply leb_iff in Ha2. apply leb_iff. unfold ranked in *.
          destruct (rank (Prim2SF l2)) as [[[a b] c]|]; [|done].
          simpl. lia.
      - apply lt_le. eapply (increasing_lookup bins Hinc (S k1) k2); [lia|done|done]. }
    pose proof (lt_le_trans _ _ _ Ha1 Hle) as Hlt2.
    by rewrite (le_not_lt _ _ Ha2) in Hlt2. }
  intros H1 H2 M1 M2.
  destruct (Nat.lt_trichotomy k1 k2) as [?|[?|?]]; [|done|]; exfalso; eauto.
Qed.

End BinFacts.

(** ** Rebalancing *)

Section NormalizeFacts.
Context {N : Numpy} {P : Platform}.

Lemma astype_uint32_nonneg x : 0 ≤ astype_uint32 x.
Proof.
  unfold astype_uint32.
  destruct (F64.trunc x) as [z|]; [case_bool_decide; [lia|]|];
    apply Z.mod_pos_bound; lia.
Qed.

(** Where the floor is a [uint32] the cast returns it. *)
Lemma astype_uint32_floor x z :
  F64.floor x = Some z → 0 ≤ z < 2 ^ 32 → astype_uint32 x = z.
Proof.
  unfold astype_uint32, F64.floor, F64.trunc.
  destruct (Prim2SF x) as [sg|sg| |sg m e]; try done.
  - intros [= <-] _. by rewrite bool_decide_eq_true_2 by lia.
  - destruct sg.
    + intros [= <-] Hz. exfalso. destruct (0 <=? e) eqn:He.
      * assert (0 < 2 ^ e) by (apply Z.pow_pos_nonneg; lia). nia.
      * assert (0 < 2 ^ (- e)) by (apply Z.pow_pos_nonneg; lia).
        assert (Z.neg m / 2 ^ (- e) < 0); [|lia].
        apply Z.div_lt_upper_bound; lia.
    + intros [= <-] Hz. by rewrite bool_decide_eq_true_2.
Qed.

(** The loop over the bins: it returns, leaves the disk alone, drops only
    members of over-full bins, and of each bin at least its excess. *)
Lemma normalize_loop angles max_wanted bl :
  (∀ g n, (rng_permutation g n).1 ≡ₚ seq 0 n) →
  0 ≤ max_wanted →
  ∀ drop s,
    ∃ extra s1,
      for_each (normalize_bin angles max_wanted) drop bl s = (Ok (drop ++ extra), s1) ∧
      files s1 = files s ∧ writes s1 = writes s ∧
      (∀ i, i ∈ extra →
            ∃ bin, bin ∈ bl ∧ i ∈ np.where_ (member bin) angles ∧
                   max_wanted < Z.of_nat (length (np.where_ (member bin) angles))) ∧
      (∀ bin, bin ∈ bl →
              ∃ d, NoDup d ∧ (∀ i, i ∈ d → i ∈ extra) ∧
                   (∀ i, i ∈ d → i ∈ np.where_ (member bin) angles) ∧
                   Z.of_nat (length (np.where_ (member bin) angles)) - max_wanted
                     ≤ Z.of_nat (length d)).
Proof.
  intros Hperm Hmw. induction bl as [|bin bl IH]; intros drop s.
  - exists [], s. rewrite app_nil_r. split_and!; try done.
    + intros i Hi. by apply elem_of_nil in Hi.
    + intros bin Hb. by apply elem_of_nil in Hb.
  - cbn [for_each].
    assert (Hstep : ∃ d s',
               normalize_bin angles max_wanted drop bin s = (Ok (drop ++ d), s') ∧
               files s' = files s ∧ writes s' = writes s ∧
               NoDup d ∧ (∀ i, i ∈ d → i ∈ np.where_ (member bin) angles) ∧
               (d ≠ [] → max_wanted < Z.of_nat (length (np.where_ (member bin) angles))) ∧
               Z.of_nat (length (np.where_ (member bin) angles)) - max_wanted
                 ≤ Z.of_nat (length d)).
    { destruct bin as [[last l] r]. unfold normalize_bin, member. simpl.
      set (members := np.where_ (in_bin last l r) angles).
      case_bool_decide as Hover.
      - destruct (choice_spec members (Z.of_nat (length members) - max_wanted) s Hperm)
          as (d & s' & E & Hf & Hw & Hnd & Hsub & Hlen);
          [apply where_from_NoDup|lia|].
        exists d, s'. erewrite bind_ok; [|exact E].
        split_and!; try done. lia.
      - exists [], s. rewrite app_nil_r. split_and!; try done.
        + constructor.
        + intros i Hi. by apply elem_of_nil in Hi.
        + simpl. lia. }
    destruct Hstep as (d & s' & E & Hf & Hw & Hnd & Hsub & Hover & Hlen).
    destruct (IH (drop ++ d) s') as (extra & s1 & E' & Hf' & Hw' & Hin & Hall).
    exists (d ++ extra), s1. erewrite bind_ok; [|exact E].
    rewrite E', <- app_assoc. split_and!; try congruence.
    + intros i [Hi|Hi]%elem_of_app.
      * exists bin. split_and!; [by left|by apply Hsub|].
        apply Hover. intros ->. by apply elem_of_nil in Hi.
      * destruct (Hin i Hi) as (b & ? & ? & ?). exists b. split_and!; [by right|done|done].
    + intros b [->|Hb]%elem_of_cons.
      * exists d. split_and!; try done. intros i Hi. apply elem_of_app. by left.
      * destruct (Hall b Hb) as (d' & ? & Hd' & ? & ?). exists d'.
        split_and!; try done. intros i Hi. apply elem_of_app. right. by apply Hd'.
Qed.

End NormalizeFacts.

Section NormalizeSpec.
Context {N : Numpy} {P : Platform}.

Lemma where_from_length {A} (cond : A → bool) l : ∀ i,
  length (np.where_from i cond l) = length (filter (λ x, cond x = true) l).
Proof.
  induction l as [|x l IH]; intros i; simpl; [done|].
  destruct (cond x) eqn:Hx.
  - rewrite filter_cons_True by done. simpl. by rewrite IH.
  - rewrite filter_cons_False by (by rewrite Hx). apply IH.
Qed.

Lemma members_of_rows bin (rows : list measurement) :
  np.where_ (member bin) (steering <$> rows)
  = np.where_from 0 (λ m, member bin (steering m)) rows.
Proof. unfold np.where_. by rewrite where_from_fmap. Qed.

Lemma delete_list_ok {A} (l : list A) obj :
  (∀ i, i ∈ obj → (i < length l)%nat) →
  np.delete_list l obj = Ok (np.keep_from 0 obj l).
Proof.
  intros Hlt. unfold np.delete_list.
  rewrite bool_decide_eq_true_2; [done|]. by apply Forall_forall.
Qed.

End NormalizeSpec.

(** C5. [_normalize] with factor [F] returns, and with [max_wanted] the
    value the code computes from the mean of the original bin counts (the
    floor of [mean * F] wherever that floor is a [uint32]): every bin,
    half-open and closed on the right for the last one, retains at most
    [max_wanted] samples; a bin that held at most [max_wanted] samples
    keeps all of them; the retained samples are a subsequence of the
    input. The histogram is NumPy's: edges strictly increasing, counts
    taken with the same edge policy. *)
Theorem normalize_bound {N : Numpy} {P : Platform}
    self factor images rows values bins s :
  normalize_factor self = Some factor →
  length images = length rows →
  histogram_auto (steering <$> rows) = Ok (values, bins) →
  FloatOrder.increasing bins = true →
  (∀ g n, (rng_permutation g n).1 ≡ₚ seq 0 n) →
  let count (bin : bool * float * float) (l : list measurement) :=
    Z.of_nat (length (filter (λ m, member bin (steering m) = true) l)) in
  let counts := (λ bin, count bin rows) <$> enumerate_bins bins in
  values = counts →
  let max_wanted := astype_uint32 (mean counts * factor)%float in
  ∃ norm_images norm_rows s1,
    _normalize self images (Arr2 rows) s = (Ok (norm_images, Arr2 norm_rows), s1) ∧
    (∀ z, F64.floor (mean counts * factor)%float = Some z →
          0 ≤ z < 2 ^ 32 → max_wanted = z) ∧
    zip norm_images norm_rows `sublist_of` zip images rows ∧
    length norm_images = length norm_rows ∧
    ∀ bin, bin ∈ enumerate_bins bins →
      count bin norm_rows ≤ max_wanted ∧
      (count bin rows ≤ max_wanted →
       filter (λ im, member bin (steering im.2) = true) (zip norm_images norm_rows)
       = filter (λ im, member bin (steering im.2) = true) (zip images rows)).
Proof.
  intros Hfactor Hlen Hhist Hinc Hperm count counts Hvalues max_wanted.
  set (angles := steering <$> rows) in *.
  destruct (normalize_loop angles max_wanted (enumerate_bins bins) Hperm
              (astype_uint32_nonneg _) [] s)
    as (drop & s1 & Hloop & _ & _ & Hin & Hall).
  simpl in Hloop.
  assert (Hlt : ∀ i, i ∈ drop → (i < length rows)%nat).
  { intros i (bin & _ & Hi & _)%Hin. apply where_lt in Hi.
    unfold angles in Hi. by rewrite length_fmap in Hi. }
  exists (np.keep_from 0 drop images), (np.keep_from 0 drop rows), s1.
  split_and!.
  - unfold _normalize. simpl. fold angles.
    erewrite bind_ok; [|reflexivity].
    erewrite bind_ok; [|unfold lift; by rewrite Hhist].
    rewrite Hfactor. erewrite bind_ok; [|reflexivity].
    rewrite Hvalues. fold max_wanted.
    erewrite bind_ok; [|exact Hloop].
    erewrite bind_ok;
      [|unfold lift; rewrite delete_list_ok; [done|by rewrite Hlen]].
    erewrite bind_ok; [reflexivity|].
    unfold lift. by rewrite delete_list_ok.
  - intros z Hz Hrange. by apply astype_uint32_floor.
  - rewrite <- keep_from_zip. apply keep_from_sublist.
  - by apply keep_from_length.
  - intros bin Hbin. split.
    + unfold count.
      rewrite (keep_from_count (λ m, member bin (steering m))).
      rewrite <- members_of_rows. fold angles.
      destruct (Hall bin Hbin) as (d & Hnd & Hsub & Hmem & Hd).
      pose proof (filter_out_length (np.where_ (member bin) angles) d drop
                    Hnd Hmem Hsub). lia.
    + intros Hsmall. rewrite <- keep_from_zip.
      apply (keep_from_untouched (λ im : string * measurement,
                                    member bin (steering im.2))).
      intros j Hj Hdrop.
      apply elem_of_where_from in Hj as (_ & [img m] & Hjm & Hm).
      rewrite Nat.sub_0_r in Hjm. simpl in Hm.
      apply lookup_zip_with_Some in Hjm as (img' & m' & [= <- <-] & _ & Hrow).
      destruct (Hin j Hdrop) as (bin' & Hbin' & Hj' & Hover).
      apply elem_of_where in Hj' as (a & Ha & Hma).
      unfold angles in Ha. rewrite list_lookup_fmap, Hrow in Ha.
      injection Ha as <-.
      apply list_elem_of_lookup_1 in Hbin as [k Hk].
      apply list_elem_of_lookup_1 in Hbin' as [k' Hk'].
      assert (k = k') as <- by (eapply bins_disjoint; eauto).
      assert (bin' = bin) as -> by congruence.
      unfold count in Hsmall.
      rewrite <- where_from_length with (i := 0%nat) in Hsmall.
      rewrite <- members_of_rows in Hsmall. fold angles in Hsmall. lia.
Qed.

(** The reference random state returns permutations. *)
Lemma reference_permutation nbins (g : rng (Numpy := Reference.numpy nbins)) n :
  (rng_permutation (Numpy := Reference.numpy nbins) g n).1 ≡ₚ seq 0 n.
Proof.
  simpl. unfold rotate.
  rewrite Permutation_app_comm. by rewrite take_drop.
Qed.

Lemma normalize_bound_witness :
  ∃ norm_images norm_rows s1,
    _normalize (N := Reference.numpy 2) (P := Reference.platform)
        (Reference.loader "/" None (Some 0.5%float) None)
        ["a.jpg"; "b.jpg"; "c.jpg"; "d.jpg"]
        (Arr2 [(0, 0.2, 0); (0, 0.2, 0); (0, 0.2, 0); (1, 0.2, 0)]%float)
        Reference.example_disk
      = (Ok (norm_images, Arr2 norm_rows), s1) ∧
    zip norm_images norm_rows
      `sublist_of` zip ["a.jpg"; "b.jpg"; "c.jpg"; "d.jpg"]
                       [(0, 0.2, 0); (0, 0.2, 0); (0, 0.2, 0); (1, 0.2, 0)]%float ∧
    length norm_images = length norm_rows.
Proof.
  destruct (normalize_bound (N := Reference.numpy 2) (P := Reference.platform)
              (Reference.loader "/" None (Some 0.5%float) None) 0.5%float
              ["a.jpg"; "b.jpg"; "c.jpg"; "d.jpg"]
              [(0, 0.2, 0); (0, 0.2, 0); (0, 0.2, 0); (1, 0.2, 0)]%float
              [3; 1] [0; 0.5; 1]%float
              Reference.example_disk
              eq_refl eq_refl eq_refl eq_refl
              (reference_permutation 2) eq_refl)
    as (norm_images & norm_rows & s1 & H1 & _ & H2 & H3 & _).
  exists norm_images, norm_rows, s1. split; [exact H1|]. split; [exact H2|exact H3].
Defined.

(** ** Chunks *)

Section ChunkFacts.
Context {A : Type}.
Implicit Types (l : list A).

Lemma chunk_take_drop l k b :
  0 < b →
  chunk l (Z.of_nat k * b) b = take (Z.to_nat b) (drop (k * Z.to_nat b) l).
Proof.
  intros Hb. unfold chunk, np.slice_list.
  replace (Z.of_nat k * b + b - Z.of_nat k * b) with b by lia.
  replace (Z.to_nat (Z.of_nat k * b)) with (k * Z.to_nat b)%nat by nia.
  done.
Qed.

Lemma chunk_length l o b :
  0 ≤ o → 0 ≤ b →
  length (chunk l o b) = (Z.to_nat b `min` (length l - Z.to_nat o))%nat.
Proof.
  intros Ho Hb. unfold chunk, np.slice_list.
  replace (o + b - o) with b by lia.
  by rewrite length_take, length_drop.
Qed.

Lemma chunk_sublist l o b : chunk l o b `sublist_of` l.
Proof.
  unfold chunk, np.slice_list.
  etrans; [apply sublist_take|apply sublist_drop].
Qed.

Lemma concat_takes l bn q :
  concat ((λ k, take bn (drop (k * bn) l)) <$> seq 0 q) = take (q * bn) l.
Proof.
  induction q as [|q IH]; [done|].
  rewrite seq_S, fmap_app, concat_app, IH. simpl. rewrite app_nil_r.
  rewrite take_take_drop. f_equal. lia.
Qed.

Lemma multiples_length n b : length (multiples n b) = Z.to_nat ((n + b - 1) / b).
Proof. unfold multiples. by rewrite length_fmap, length_seq. Qed.

Lemma multiples_lookup n b k o :
  multiples n b !! k = Some o →
  o = Z.of_nat k * b ∧ (k < length (multiples n b))%nat.
Proof.
  intros H. split; [|by eapply lookup_lt_Some].
  unfold multiples in H. rewrite list_lookup_fmap in H.
  destruct (seq 0 _ !! k) as [k'|] eqn:Hk; [|done].
  apply lookup_seq in Hk as [-> _]. simpl in H. by injection H as <-.
Qed.

(** The number [q] of chunks: [(q - 1) * b < n <= q * b]. *)
Lemma multiples_count n b :
  0 ≤ n → 0 < b →
  let q := Z.of_nat (length (multiples n b)) in
  n ≤ q * b ∧ (0 < n → (q - 1) * b < n).
Proof.
  intros Hn Hb. rewrite multiples_length. simpl.
  assert (0 ≤ (n + b - 1) / b) by (apply Z.div_pos; lia).
  rewrite Z2Nat.id by done.
  pose proof (Z.div_mod (n + b - 1) b ltac:(lia)).
  pose proof (Z.mod_pos_bound (n + b - 1) b Hb).
  split; [nia|]. intros. nia.
Qed.

(** The chunks at the multiples of [b] partition the list. *)
Lemma concat_chunks l b :
  0 < b →
  concat ((λ o, chunk l o b) <$> multiples (Z.of_nat (length l)) b) = l.
Proof.
  intros Hb. unfold multiples. rewrite <- list_fmap_compose.
  erewrite list_fmap_ext; [|intros i k _; simpl; apply chunk_take_drop, Hb].
  rewrite concat_takes. apply take_ge.
  pose proof (multiples_count (Z.of_nat (length l)) b ltac:(lia) Hb) as [Hq _].
  rewrite multiples_length in Hq. nia.
Qed.

(** Every chunk is full, but the last, which holds the rest. *)
Lemma chunk_sizes l b k o :
  0 < b →
  multiples (Z.of_nat (length l)) b !! k = Some o →
  length (chunk l o b)
  = if decide (S k = length (multiples (Z.of_nat (length l)) b))
    then (length l - k * Z.to_nat b)%nat
    else Z.to_nat b.
Proof.
  intros Hb Hk. apply multiples_lookup in Hk as [-> Hlt].
  rewrite chunk_length by lia.
  pose proof (multiples_count (Z.of_nat (length l)) b ltac:(lia) Hb) as [Hq1 Hq2].
  simpl in *.
  replace (Z.to_nat (Z.of_nat k * b)) with (k * Z.to_nat b)%nat by nia.
  case_decide as Hlast.
  - rewrite <- Hlast in Hq1. nia.
  - assert (0 < Z.of_nat (length l)) by (destruct l; simpl in *; [|lia];
      rewrite multiples_length in Hlt; simpl in Hlt;
      rewrite Z.div_small in Hlt by lia; simpl in Hlt; lia).
    specialize (Hq2 ltac:(done)). nia.
Qed.

(** When [b] does not divide the length the last chunk holds the
    remainder. *)
Lemma last_chunk_size l b :
  0 < b → Z.of_nat (length l) mod b ≠ 0 →
  ∃ o, last (multiples (Z.of_nat (length l)) b) = Some o ∧
       Z.of_nat (length (chunk l o b)) = Z.of_nat (length l) mod b.
Proof.
  intros Hb Hmod.
  set (n := Z.of_nat (length l)) in *.
  assert (Hn : 0 < n).
  { destruct (decide (n = 0)) as [E|]; [|lia]. rewrite E in Hmod. done. }
  pose proof (multiples_count n b ltac:(lia) Hb) as [Hq1 Hq2].
  specialize (Hq2 Hn). simpl in *.
  set (q := length (multiples n b)) in *.
  assert (Hq : (0 < q)%nat) by (destruct q; [lia|lia]).
  destruct (lookup_lt_is_Some_2 (multiples n b) (q - 1)) as [o Ho]; [unfold q; lia|].
  exists o. split.
  - rewrite last_lookup. by replace (Nat.pred (length (multiples n b))) with (q - 1)%nat by (unfold q; lia).
  - rewrite (chunk_sizes l b (q - 1) o Hb Ho).
    rewrite decide_True by (fold n; fold q; lia).
    fold n in Hq1, Hq2 |- *.
    assert (Hdiv : n = b * (Z.of_nat q - 1) + n mod b).
    { assert (n / b = Z.of_nat q - 1); [|rewrite <- H; apply Z.div_mod; lia].
      symmetry. apply (Z.div_unique n b (Z.of_nat q - 1) (n - b * (Z.of_nat q - 1))); [|lia].
      left. split; [nia|].
      assert (n ≠ Z.of_nat q * b); [|nia].
      intros E. apply Hmod. rewrite E. apply Z.mod_mul. lia. }
    unfold n in *. nia.
Qed.

End ChunkFacts.

(** ** The generator *)

Section GeneratorFacts.
Context {N : Numpy} {P : Platform}.
Variable self : DataLoader.

Lemma load_image_pure image_file s :
  _load_image self image_file s = (load_pure self (files s) image_file, s).
Proof. reflexivity. Qed.

Lemma traverse_run_pure l s :
  traverse_run (_load_image self) l s = (traverse (load_pure self (files s)) l, s).
Proof.
  induction l as [|x l IH]; [reflexivity|]. cbn [traverse_run traverse].
  destruct (load_pure self (files s) x) as [t|e] eqn:Hx.
  - erewrite bind_ok; [|by rewrite load_image_pure, Hx].
    destruct (traverse (load_pure self (files s)) l) as [ts|e] eqn:Hl.
    + erewrite bind_ok; [reflexivity|exact IH].
    + erewrite bind_raise; [reflexivity|exact IH].
  - erewrite bind_raise; [reflexivity|by rewrite load_image_pure, Hx].
Qed.

Lemma traverse_total {X Y} (f : X → result Y) l :
  (∀ x, x ∈ l → ∃ y, f x = Ok y) → ∃ ys, traverse f l = Ok ys.
Proof.
  induction l as [|x l IH]; intros Hl; simpl; [by eexists|].
  destruct (Hl x) as [y ->]; [by left|].
  destruct IH as [ys ->]; [intros; apply Hl; by right|]. by eexists.
Qed.

Lemma make_batch_ok images rows offset batch_size s :
  loadable self (files s) images →
  ∃ X, traverse (load_pure self (files s)) (chunk images offset batch_size) = Ok X ∧
       make_batch self images (Arr2 rows) offset batch_size s
       = (Ok (Batch X (steering <$> chunk rows offset batch_size)), s).
Proof.
  intros Hload.
  destruct (traverse_total (load_pure self (files s)) (chunk images offset batch_size))
    as [X HX].
  { intros x Hx. apply Hload. eapply elem_of_sublist; [exact Hx|apply chunk_sublist]. }
  exists X. split; [done|]. unfold make_batch.
  erewrite bind_ok; [|rewrite traverse_run_pure; fold (chunk images offset batch_size);
                      by rewrite HX].
  reflexivity.
Qed.

(** The rest of an epoch: one batch for each pending offset. *)
Lemma pull_pending fuel images rows n batch_size s :
  loadable self (files s) images →
  ∀ pending,
    ∃ batches,
      pull fuel self (length pending)
           (Suspended images (Arr2 rows) n batch_size pending) s
      = (Ok (Some (batches, Suspended images (Arr2 rows) n batch_size [])), s) ∧
      Forall2 (λ o b,
                 traverse (load_pure self (files s)) (chunk images o batch_size)
                   = Ok (X_batch b) ∧
                 Y_batch b = steering <$> chunk rows o batch_size)
              pending batches.
Proof.
  intros Hload. induction pending as [|o pending IH].
  - exists []. split; [done|constructor].
  - destruct (make_batch_ok images rows o batch_size s Hload) as (X & HX & Hb).
    destruct IH as (batches & Hpull & Hall).
    exists (Batch X (steering <$> chunk rows o batch_size) :: batches). split.
    + cbn [length pull next].
      erewrite bind_ok; [|erewrite bind_ok; [reflexivity|exact Hb]].
      cbv beta iota. erewrite bind_ok; [|exact Hpull]. reflexivity.
    + constructor; [done|done].
Qed.

End GeneratorFacts.

Section EpochFacts.
Context {N : Numpy} {P : Platform}.
Variable self : DataLoader.

Lemma permutation_valid idx n :
  idx ≡ₚ seq 0 n → length idx = n ∧ ∀ j, j ∈ idx → (j < n)%nat.
Proof.
  intros Hp. split.
  - apply Permutation_length in Hp. by rewrite length_seq in Hp.
  - intros j Hj. rewrite Hp in Hj. apply elem_of_seq in Hj. lia.
Qed.

Lemma take_list_length {A} (l : list A) idx :
  (∀ j, j ∈ idx → (j < length l)%nat) →
  length (np.take_list l idx) = length idx.
Proof.
  unfold np.take_list. induction idx as [|j idx IH]; intros Hv; [done|]. simpl.
  destruct (lookup_lt_is_Some_2 l j) as [x ->]; [apply Hv; by left|].
  simpl. f_equal. apply IH. intros; apply Hv; by right.
Qed.

Lemma take_list_elem_of {A} (l : list A) idx x :
  x ∈ np.take_list l idx → x ∈ l.
Proof.
  unfold np.take_list. rewrite list_elem_of_omap.
  intros (j & _ & Hj). by eapply list_elem_of_lookup_2.
Qed.

(** Slicing the permuted array is taking the slice of the permutation. *)
Lemma take_list_firstn {A} (l : list A) idx : ∀ k,
  (∀ j, j ∈ idx → (j < length l)%nat) →
  take k (np.take_list l idx) = np.take_list l (take k idx).
Proof.
  unfold np.take_list. induction idx as [|j idx IH]; intros k Hv.
  - by destruct k.
  - destruct (lookup_lt_is_Some_2 l j) as [x Hx]; [apply Hv; by left|].
    destruct k as [|k]; simpl; rewrite ?Hx; simpl; [done|].
    f_equal. apply IH. intros; apply Hv; by right.
Qed.

Lemma take_list_skipn {A} (l : list A) idx : ∀ k,
  (∀ j, j ∈ idx → (j < length l)%nat) →
  drop k (np.take_list l idx) = np.take_list l (drop k idx).
Proof.
  unfold np.take_list. induction idx as [|j idx IH]; intros k Hv.
  - by destruct k.
  - destruct (lookup_lt_is_Some_2 l j) as [x Hx]; [apply Hv; by left|].
    destruct k as [|k]; simpl; rewrite ?Hx; simpl; [done|].
    apply IH. intros; apply Hv; by right.
Qed.

Lemma chunk_take_list {A} (l : list A) idx o b :
  (∀ j, j ∈ idx → (j < length l)%nat) →
  chunk (np.take_list l idx) o b = np.take_list l (chunk idx o b).
Proof.
  intros Hv. unfold chunk, np.slice_list.
  rewrite take_list_skipn by done. apply take_list_firstn.
  intros j Hj. apply Hv. eapply elem_of_sublist; [exact Hj|apply sublist_drop].
Qed.

Lemma shuffle_ok images rows s :
  length images = length rows →
  shuffle images (Arr2 rows) s
  = (Ok (np.take_list images (rng_permutation (random s) (length images)).1,
         Arr2 (np.take_list rows (rng_permutation (random s) (length images)).1)),
     State (files s) (writes s) (rng_permutation (random s) (length images)).2).
Proof.
  intros Hlen. unfold shuffle. simpl.
  rewrite bool_decide_eq_true_2 by done.
  unfold mbind, run_bind, permutation.
  by destruct (rng_permutation (random s) (length images)).
Qed.

Lemma py_range_ok n b : 0 < b → py_range n b = Ok (multiples n b).
Proof.
  intros Hb. unfold py_range.
  destruct (Z.eqb_spec b 0); [lia|]. destruct (Z.ltb_spec b 0); [lia|done].
Qed.

Lemma multiples_nonempty n b : 0 < n → 0 < b → multiples n b ≠ [].
Proof.
  intros Hn Hb E. apply (f_equal length) in E. rewrite multiples_length in E.
  simpl in E. assert (1 ≤ (n + b - 1) / b); [|lia].
  apply Z.div_le_lower_bound; lia.
Qed.

(** From the start of an epoch, [while True] shuffles and yields the
    first chunk. *)
Lemma while_true_yields fuel images rows n b s :
  (0 < n)%nat → 0 < b → length images = n → length rows = n →
  (∀ g m, (rng_permutation g m).1 ≡ₚ seq 0 m) →
  loadable self (files s) images →
  let idx := (rng_permutation (random s) n).1 in
  let images' := np.take_list images idx in
  let rows' := np.take_list rows idx in
  let s' := State (files s) (writes s) (rng_permutation (random s) n).2 in
  ∃ o pending X,
    multiples (Z.of_nat n) b = o :: pending ∧
    traverse (load_pure self (files s)) (chunk images' o b) = Ok X ∧
    while_true (S fuel) self images (Arr2 rows) n b s
    = (Ok (Yielded (Batch X (steering <$> chunk rows' o b))
                   (Suspended images' (Arr2 rows') n b pending)), s').
Proof.
  intros Hn Hb Hi Hr Hperm Hload idx images' rows' s'.
  destruct (multiples (Z.of_nat n) b) as [|o pending] eqn:Hm;
    [by apply multiples_nonempty in Hm; [|lia|]|].
  assert (Hload' : loadable self (files s') images').
  { intros x Hx. apply Hload. by eapply take_list_elem_of. }
  destruct (make_batch_ok self images' rows' o b s' Hload') as (X & HX & Hb').
  exists o, pending, X. split; [done|]. split; [done|].
  cbn [while_true]. erewrite bind_ok; [|rewrite shuffle_ok by lia; by rewrite Hi].
  cbv beta iota. erewrite bind_ok; [|unfold lift; by rewrite py_range_ok, Hm].
  cbv beta iota. erewrite bind_ok; [reflexivity|exact Hb'].
Qed.

End EpochFacts.

Section GeneratorRuns.
Context {N : Numpy} {P : Platform}.
Variables (self : DataLoader) (fs : gmap string blob) (images : list string)
          (n : nat) (b : Z).
Hypothesis Hn : (0 < n)%nat.
Hypothesis Hb : 0 < b.
Hypothesis Hperm : ∀ g m, (rng_permutation g m).1 ≡ₚ seq 0 m.
Hypothesis Hload : loadable self fs images.

(** The states the generator goes through. *)
Let reachable (g : generator_state) (s : state) : Prop :=
  ∃ imgs rws,
    length imgs = n ∧ length rws = n ∧ (∀ x, x ∈ imgs → x ∈ images) ∧
    files s = fs ∧
    (g = Created imgs (Arr2 rws) b ∨ ∃ pending, g = Suspended imgs (Arr2 rws) n b pending).

Lemma next_epoch_start fuel g imgs rws s :
  epoch_start g imgs rws n b → length imgs = n → length rws = n →
  next fuel self g s = while_true fuel self imgs (Arr2 rws) n b s.
Proof.
  intros [->| ->] Hi Hr; simpl; [|done].
  rewrite bool_decide_eq_true_2 by lia. by rewrite Hi.
Qed.

Lemma next_progress g s :
  reachable g s →
  ∃ bt g' s', next 1 self g s = (Ok (Yielded bt g'), s') ∧ reachable g' s'.
Proof.
  intros (imgs & rws & Hi & Hr & Hsub & Hfs & Hg).
  assert (Hl : loadable self (files s) imgs).
  { rewrite Hfs. intros x Hx. by apply Hload, Hsub. }
  assert (Hstart : ∀ g0, epoch_start g0 imgs rws n b →
            ∃ bt g' s', next 1 self g0 s = (Ok (Yielded bt g'), s') ∧ reachable g' s').
  { intros g0 Hg0. rewrite (next_epoch_start 1 g0 imgs rws s Hg0 Hi Hr).
    destruct (while_true_yields self 0 imgs rws n b s Hn Hb Hi Hr Hperm Hl)
      as (o & pending & X & _ & _ & ->).
    eexists _, _, _. split; [reflexivity|].
    eexists _, _. split_and!; [| | |done|right; by eexists].
    - pose proof (Hperm (random s) n) as [? ?]%permutation_valid.
      rewrite take_list_length; [done|by rewrite Hi].
    - pose proof (Hperm (random s) n) as [? ?]%permutation_valid.
      rewrite take_list_length; [done|by rewrite Hr].
    - intros x Hx. by eapply Hsub, take_list_elem_of. }
  destruct Hg as [->|[[|o pending] ->]].
  - apply Hstart. by left.
  - apply Hstart. by right.
  - destruct (make_batch_ok self imgs rws o b s Hl) as (X & _ & HX).
    eexists _, _, s. split.
    + simpl. erewrite bind_ok; [reflexivity|exact HX].
    + exists imgs, rws. split_and!; try done. right. by eexists.
Qed.

(** However many batches are asked for, the generator yields them. *)
Lemma pull_progress k : ∀ g s,
  reachable g s →
  ∃ batches g' s',
    pull 1 self k g s = (Ok (Some (batches, g')), s') ∧ length batches = k.
Proof.
  induction k as [|k IH]; intros g s Hg.
  - by exists [], g, s.
  - destruct (next_progress g s Hg) as (bt & g1 & s1 & E & Hg1).
    destruct (IH g1 s1 Hg1) as (bs & g2 & s2 & E' & Hlen).
    exists (bt :: bs), g2, s2. split; [|simpl; by rewrite Hlen].
    cbn [pull]. erewrite bind_ok; [|exact E]. cbv beta iota.
    erewrite bind_ok; [|exact E']. reflexivity.
Qed.

Lemma pull_from_created rows s k :
  length images = n → length rows = n → files s = fs →
  ∃ batches g' s',
    pull 1 self k (generator images (Arr2 rows) b) s = (Ok (Some (batches, g')), s') ∧
    length batches = k.
Proof.
  intros Hi Hr Hfs. apply pull_progress.
  exists images, rows. split_and!; try done. by left.
Qed.

(** One epoch: a shuffle, then one batch for each chunk of the
    permutation. *)
Lemma pull_epoch g imgs rws s :
  epoch_start g imgs rws n b → length imgs = n → length rws = n →
  (∀ x, x ∈ imgs → x ∈ images) → files s = fs →
  let idx := (rng_permutation (random s) n).1 in
  let offsets := multiples (Z.of_nat n) b in
  ∃ batches,
    pull 1 self (length offsets) g s
    = (Ok (Some (batches,
                 Suspended (np.take_list imgs idx) (Arr2 (np.take_list rws idx)) n b [])),
       State (files s) (writes s) (rng_permutation (random s) n).2) ∧
    Forall2 (λ o bt,
               traverse (load_pure self fs) (np.take_list imgs (chunk idx o b))
                 = Ok (X_batch bt) ∧
               Y_batch bt = steering <$> np.take_list rws (chunk idx o b))
            offsets batches.
Proof.
  intros Hg Hi Hr Hsub Hfs idx offsets.
  assert (Hl : loadable self (files s) imgs).
  { rewrite Hfs. intros x Hx. by apply Hload, Hsub. }
  pose proof (Hperm (random s) n) as [Hlen Hvalid]%permutation_valid.
  fold idx in Hlen, Hvalid.
  destruct (while_true_yields self 0 imgs rws n b s Hn Hb Hi Hr Hperm Hl)
    as (o & pending & X & Hm & HX & Hw).
  fold idx in HX, Hw. fold offsets in Hm.
  set (s' := State (files s) (writes s) (rng_permutation (random s) n).2) in *.
  assert (Hl' : loadable self (files s') (np.take_list imgs idx)).
  { intros x Hx. apply Hl. by eapply take_list_elem_of. }
  destruct (pull_pending self 1 (np.take_list imgs idx) (np.take_list rws idx)
              n b s' Hl' pending) as (batches & Hpull & Hall).
  exists (Batch X (steering <$> chunk (np.take_list rws idx) o b) :: batches).
  rewrite Hm. split.
  - cbn [length pull].
    erewrite bind_ok;
      [|rewrite (next_epoch_start 1 g imgs rws s Hg Hi Hr); exact Hw].
    cbv beta iota. erewrite bind_ok; [|exact Hpull]. reflexivity.
  - assert (Hci : ∀ o', chunk (np.take_list imgs idx) o' b
                        = np.take_list imgs (chunk idx o' b))
      by (intros; apply chunk_take_list; by rewrite Hi).
    assert (Hcr : ∀ o', chunk (np.take_list rws idx) o' b
                        = np.take_list rws (chunk idx o' b))
      by (intros; apply chunk_take_list; by rewrite Hr).
    constructor.
    + simpl. rewrite <- Hci, <- Hcr, <- Hfs. done.
    + eapply Forall2_impl; [exact Hall|].
      intros o' bt [H1 H2]. simpl in H1. rewrite <- Hci, <- Hcr, <- Hfs. done.
Qed.

End GeneratorRuns.

Section EmptyGenerator.
Context {N : Numpy} {P : Platform}.

Lemma take_list_nil {A} idx : np.take_list ([] : list A) idx = [].
Proof. unfold np.take_list. by induction idx. Qed.

(** On an empty dataset every pass of [while True] finds an empty range:
    the generator neither yields nor stops. *)
Lemma while_true_spins self b fuel : ∀ s,
  0 < b →
  ∃ s', while_true fuel self [] (Arr2 []) 0 b s = (Ok OutOfFuel, s') ∧
        files s' = files s ∧ writes s' = writes s.
Proof.
  induction fuel as [|fuel IH]; intros s Hb; [by exists s|].
  cbn [while_true]. erewrite bind_ok; [|by rewrite shuffle_ok].
  cbv beta iota. rewrite !take_list_nil.
  erewrite bind_ok; [|unfold lift; by rewrite py_range_ok].
  assert (multiples (Z.of_nat 0) b = []) as ->.
  { unfold multiples. simpl. rewrite Z.div_small by lia. done. }
  cbn [length]. cbv beta iota.
  destruct (IH (State (files s) (writes s) (rng_permutation (random s) 0).2) Hb)
    as (s' & E & ? & ?).
  exists s'. by rewrite E.
Qed.

End EmptyGenerator.

(** C9. For images and measurements of equal length [n] and a batch size
    [b > 0], whose images load: an epoch shuffles both sequences by one
    permutation of the positions and yields one batch for each of the
    consecutive chunks of that permutation at the offsets 0, b, 2b, ...;
    the chunks are full but the last, which holds the rest ([n mod b] when
    [b] does not divide [n]), and together they are the permutation, so
    every index is met once; the labels of a batch are the steering
    angles of its rows; after an epoch the generator stands at the start
    of the next one, and however many batches are pulled it yields them.
    Sizes for [n = 10], [b = 4]: 4, 4, 2. *)
Theorem generator_epochs {N : Numpy} {P : Platform}
    self images rows batch_size s :
  length images = length rows →
  0 < batch_size →
  (∀ g m, (rng_permutation g m).1 ≡ₚ seq 0 m) →
  loadable self (files s) images →
  let n := length images in
  let offsets := multiples (Z.of_nat n) batch_size in
  (∀ idx : list nat,
     idx ≡ₚ seq 0 n →
     concat ((λ o, chunk idx o batch_size) <$> offsets) = idx ∧
     (∀ k o, offsets !! k = Some o →
             length (chunk idx o batch_size)
             = if decide (S k = length offsets)
               then (n - k * Z.to_nat batch_size)%nat
               else Z.to_nat batch_size) ∧
     (Z.of_nat n mod batch_size ≠ 0 →
      ∃ o, last offsets = Some o ∧
           Z.of_nat (length (chunk idx o batch_size)) = Z.of_nat n mod batch_size)) ∧
  ((0 < n)%nat →
   ∀ g imgs rws st,
     epoch_start g imgs rws n batch_size →
     length imgs = n → length rws = n → (∀ x, x ∈ imgs → x ∈ images) →
     files st = files s →
     let idx := (rng_permutation (random st) n).1 in
     idx ≡ₚ seq 0 n ∧
     ∃ batches,
       pull 1 self (length offsets) g st
       = (Ok (Some (batches,
                    Suspended (np.take_list imgs idx) (Arr2 (np.take_list rws idx))
                              n batch_size [])),
          State (files st) (writes st) (rng_permutation (random st) n).2) ∧
       epoch_start (Suspended (np.take_list imgs idx) (Arr2 (np.take_list rws idx))
                              n batch_size [])
                   (np.take_list imgs idx) (np.take_list rws idx) n batch_size ∧
       Forall2 (λ o bt,
                  traverse (load_pure self (files s))
                           (np.take_list imgs (chunk idx o batch_size))
                    = Ok (X_batch bt) ∧
                  Y_batch bt = steering <$> np.take_list rws (chunk idx o batch_size))
               offsets batches) ∧
  ((0 < n)%nat →
   ∀ k, ∃ batches g' s',
     pull 1 self k (generator images (Arr2 rows) batch_size) s
     = (Ok (Some (batches, g')), s') ∧
     length batches = k) ∧
  (n = 0%nat →
   ∀ fuel, ∃ s',
     next fuel self (generator images (Arr2 rows) batch_size) s = (Ok OutOfFuel, s')) ∧
  (∀ idx : list nat,
     length idx = 10%nat →
     (λ o, length (chunk idx o 4)) <$> multiples 10 4 = [4; 4; 2]%nat).
Proof.
  intros Hlen Hb Hperm Hload n offsets. split_and!.
  - intros idx [Hidx _]%permutation_valid. unfold offsets. rewrite <- Hidx.
    split_and!.
    + by apply concat_chunks.
    + intros k o. by apply chunk_sizes.
    + by apply last_chunk_size.
  - intros Hn g imgs rws st Hg Hi Hr Hsub Hfs idx. split; [apply Hperm|].
    destruct (pull_epoch self (files s) images n batch_size Hn Hb Hperm Hload
                g imgs rws st Hg Hi Hr Hsub Hfs) as (batches & E & Hall).
    exists batches. split; [exact E|]. split; [by right|exact Hall].
  - intros Hn k.
    by apply (pull_from_created self (files s) images n batch_size Hn Hb Hperm Hload).
  - intros Hn0 fuel. unfold generator. simpl.
    unfold n in Hn0. destruct images; [|done]. destruct rows; [|done].
    simpl. destruct (while_true_spins self batch_size fuel s Hb) as (s' & E & _).
    by exists s'.
  - intros idx Hidx. change (multiples 10 4) with [0; 4; 8]. simpl.
    rewrite !chunk_length by lia. rewrite Hidx. done.
Qed.

Lemma generator_epochs_witness :
  ∃ batches g' s',
    pull (N := Reference.numpy 2) (P := Reference.platform) 1
         (Reference.loader "/" None None None) 5
         (generator ["c1.jpg"; "c2.jpg"; "c3.jpg"]
                    (Arr2 [(0.5, 0.2, 0); (0, 0.2, 0); (0.05, 0.2, 0)]%float) 2)
         Reference.example_disk
    = (Ok (Some (batches, g')), s') ∧
    length batches = 5%nat.
Proof.
  refine (proj1 (proj2 (proj2
            (generator_epochs (N := Reference.numpy 2) (P := Reference.platform)
               (Reference.loader "/" None None None)
               ["c1.jpg"; "c2.jpg"; "c3.jpg"]
               [(0.5, 0.2, 0); (0, 0.2, 0); (0.05, 0.2, 0)]%float 2
               Reference.example_disk eq_refl eq_refl
               (reference_permutation 2) _))) _ 5%nat).
  - intros image Himg.
    repeat (apply elem_of_cons in Himg as [->|Himg];
            [eexists; vm_compute; reflexivity|]).
    by apply elem_of_nil in Himg.
  - simpl. lia.
Defined.

(** * Further properties of the loader *)

(** ** The parser on malformed and over-long lines *)

Section ParserEdges.
Context {B : Builtins}.

Lemma traverse_length {X Y} (f : X → result Y) l ys :
  traverse f l = Ok ys → length ys = length l.
Proof.
  revert ys. induction l as [|x l IH]; intros ys; simpl; [by intros [= <-]|].
  destruct (f x); [|done]. destruct (traverse f l); [|done].
  intros [= <-]. simpl. f_equal. by apply IH.
Qed.

End ParserEdges.

(** A line with fewer than six fields never yields a sample: unpacking
    the names or the numbers raises. *)
Theorem parse_line_short {B : Builtins} self line :
  (length line < 6)%nat → ∃ e, _parse_line self line = Raise e.
Proof.
  intros Hlen. unfold _parse_line.
  destruct (traverse _ (take 3 line)) as [names|e] eqn:Hn; [|by eexists].
  apply traverse_length in Hn. rewrite length_take in Hn. simpl.
  destruct names as [|n1 [|n2 [|n3 [|]]]]; try by eexists.
  destruct (traverse py_float _) as [values|e] eqn:Hv; [|by eexists].
  apply traverse_length in Hv. rewrite length_take, length_drop in Hv. simpl.
  destruct values as [|v1 [|v2 [|v3 [|]]]]; try by eexists.
  cbn [length] in Hn, Hv. lia.
Qed.

Lemma parse_line_short_witness :
  ∃ e, _parse_line (B := Reference.builtins)
         (Reference.loader "/" (Some 0.1%float) None None)
         ["IMG/c.jpg"; "IMG/l.jpg"; "IMG/r.jpg"; "0.5"; "0.2"] = Raise e.
Proof.
  exact (parse_line_short (B := Reference.builtins)
           (Reference.loader "/" (Some 0.1%float) None None)
           ["IMG/c.jpg"; "IMG/l.jpg"; "IMG/r.jpg"; "0.5"; "0.2"]
           ltac:(simpl; lia)).
Defined.

(** Fields after the sixth are ignored. *)
Theorem parse_line_extra_fields {B : Builtins} self line extra :
  length line = 6%nat →
  _parse_line self (line ++ extra) = _parse_line self line.
Proof.
  intros Hlen. unfold _parse_line.
  rewrite take_app_le by lia.
  rewrite drop_app_le by lia.
  rewrite (take_app_le (drop 3 line)) by (rewrite length_drop; lia).
  done.
Qed.

Lemma parse_line_extra_fields_witness :
  _parse_line (B := Reference.builtins)
      (Reference.loader "/" (Some 0.1%float) None None)
      (["IMG/c.jpg"; "IMG/l.jpg"; "IMG/r.jpg"; "0.5"; "0.2"; "0.0"] ++ ["30.1"; "x"])
  = _parse_line (B := Reference.builtins)
      (Reference.loader "/" (Some 0.1%float) None None)
      ["IMG/c.jpg"; "IMG/l.jpg"; "IMG/r.jpg"; "0.5"; "0.2"; "0.0"].
Proof.
  exact (parse_line_extra_fields (B := Reference.builtins)
           (Reference.loader "/" (Some 0.1%float) None None)
           ["IMG/c.jpg"; "IMG/l.jpg"; "IMG/r.jpg"; "0.5"; "0.2"; "0.0"]
           ["30.1"; "x"] eq_refl).
Defined.

(** ** Bare file names *)

Section BareName.

Lemma append_cons a s t : String a s +:+ t = String a (s +:+ t).
Proof. reflexivity. Qed.

Lemma append_empty_r s : s +:+ EmptyString = s.
Proof. induction s as [|a s IH]; [done|]. by rewrite append_cons, IH. Qed.

Lemma append_snoc s a t : (s +:+ String a EmptyString) +:+ t = s +:+ String a t.
Proof. induction s as [|x s IH]; [done|]. by rewrite !append_cons, IH. Qed.

Lemma is_prefix_char c a s :
  Str.is_prefix (String c EmptyString) (String a s) = bool_decide (c = a).
Proof.
  unfold Str.is_prefix. simpl. destruct (ascii_dec c a) as [->|Hne].
  - rewrite bool_decide_eq_true_2 by done. by destruct s.
  - by rewrite bool_decide_eq_false_2.
Qed.

(** A string without the separator is a single piece. *)
Lemma split_from_whole c name : ∀ cur,
  c ∉ list_ascii_of_string name →
  Str.split_from (String c EmptyString) 0 cur name = [cur +:+ name].
Proof.
  induction name as [|a name IH]; intros cur Hc; cbn [Str.split_from].
  - by rewrite append_empty_r.
  - cbn [list_ascii_of_string] in Hc. apply not_elem_of_cons in Hc as [Hne Hc].
    rewrite is_prefix_char, bool_decide_eq_false_2 by done.
    rewrite IH by done. by rewrite append_snoc.
Qed.

Lemma split_from_last_piece c name dir : ∀ cur,
  c ∉ list_ascii_of_string name →
  last (Str.split_from (String c EmptyString) 0 cur (dir +:+ String c name))
  = Some name.
Proof.
  induction dir as [|a dir IH]; intros cur Hc.
  - change (EmptyString +:+ String c name) with (String c name).
    cbn [Str.split_from].
    rewrite is_prefix_char, bool_decide_eq_true_2 by done.
    cbn [String.length Nat.pred]. by rewrite split_from_whole.
  - rewrite append_cons. cbn [Str.split_from].
    rewrite is_prefix_char. case_bool_decide.
    + cbn [String.length Nat.pred]. rewrite last_cons. by rewrite IH.
    + by apply IH.
Qed.

End BareName.

(** With a one-character separator, [img.split(sep)[-1]] is the text after
    the last separator: a name that holds no separator is returned as it
    is, whatever directories precede it. *)
Theorem bare_name_last_component c name :
  c ∉ list_ascii_of_string name →
  bare_name (String c EmptyString) name = Ok name ∧
  ∀ dir, bare_name (String c EmptyString) (dir +:+ String c name) = Ok name.
Proof.
  intros Hc. unfold bare_name, Str.split. simpl. split.
  - by rewrite split_from_whole.
  - intros dir. unfold Str.last_item. by rewrite split_from_last_piece.
Qed.

Lemma bare_name_last_component_witness :
  bare_name "\" "center_2017.jpg" = Ok "center_2017.jpg" ∧
  ∀ dir, bare_name "\" (dir +:+ "\center_2017.jpg") = Ok "center_2017.jpg".
Proof.
  refine (bare_name_last_component "\"%char "center_2017.jpg" _).
  intros Hin. repeat (apply elem_of_cons in Hin as [Hin|Hin]; [discriminate|]).
  by apply elem_of_nil in Hin.
Defined.

(** ** The log as a whole *)

Section LogFacts.
Context {B : Builtins}.

Lemma accumulate_snoc self lines line :
  accumulate self (lines ++ [line])
  = '(images, measurements) ← accumulate self lines;
    '(line_images, line_measurements) ← _parse_line self line;
    Ok (images ++ line_images, measurements ++ line_measurements).
Proof. unfold accumulate. by rewrite foldl_app. Qed.

Lemma accumulate_app_raise self lines rest e :
  accumulate self lines = Raise e → accumulate self (lines ++ rest) = Raise e.
Proof.
  intros H. unfold accumulate in *. rewrite foldl_app, H. apply foldl_raise.
Qed.

Lemma parse_line_count self line images measurements :
  _parse_line self line = Ok (images, measurements) →
  length images = if angle_correction self is Some _ then 3%nat else 1%nat.
Proof.
  unfold _parse_line.
  destruct (traverse _ (take 3 line)) as [names|]; simpl; [|done].
  destruct names as [|n1 [|n2 [|n3 [|]]]]; try done.
  destruct (traverse py_float _) as [values|]; simpl; [|done].
  destruct values as [|v1 [|v2 [|v3 [|]]]]; try done.
  destruct (angle_correction self); by intros [= <- <-].
Qed.

End LogFacts.

(** The log gives three samples a line with the side cameras enabled and
    one a line without, whatever the lines hold. *)
Theorem accumulate_count {B : Builtins} self lines images measurements :
  accumulate self lines = Ok (images, measurements) →
  length images
  = ((if angle_correction self is Some _ then 3 else 1) * length lines)%nat.
Proof.
  revert images measurements.
  induction lines as [|line lines IH] using rev_ind; intros images measurements.
  - by intros [= <- <-].
  - rewrite accumulate_snoc.
    destruct (accumulate self lines) as [[i0 m0]|]; [|done]. simpl.
    destruct (_parse_line self line) as [[li lm]|] eqn:E; [|done]. simpl.
    intros [= <- <-]. rewrite !length_app, (IH i0 m0 eq_refl).
    rewrite (parse_line_count _ _ _ _ E). simpl.
    destruct (angle_correction self); lia.
Qed.

Lemma accumulate_count_witness :
  length Reference.example_images
  = ((if angle_correction (Reference.loader "/" (Some 0.1%float) None None)
         is Some _ then 3 else 1) * length Reference.example_log)%nat.
Proof.
  refine (accumulate_count (B := Reference.builtins)
            (Reference.loader "/" (Some 0.1%float) None None)
            Reference.example_log Reference.example_images
            [(0.5, 0.2, 0); (0.5 + 0.1, 0.2, 0); (0.5 - 0.1, 0.2, 0);
             (0, 0.2, 0); (0 + 0.1, 0.2, 0); (0 - 0.1, 0.2, 0);
             (0.05, 0.2, 0); (0.05 + 0.1, 0.2, 0); (0.05 - 0.1, 0.2, 0);
             (-0.3, 0.2, 0); (-0.3 + 0.1, 0.2, 0); (-0.3 - 0.1, 0.2, 0)]%float
            _).
  vm_compute. reflexivity.
Defined.

(** The first line that fails to parse aborts the log with its own
    exception: no partial dataset is returned. *)
Theorem accumulate_first_error {B : Builtins} self good bad rest e :
  Forall (λ line, ∃ r, _parse_line self line = Ok r) good →
  _parse_line self bad = Raise e →
  accumulate self (good ++ bad :: rest) = Raise e.
Proof.
  intros Hgood Hbad.
  assert (Hok : ∃ r, accumulate self good = Ok r).
  { induction good as [|line good IH] using rev_ind; [by eexists|].
    apply Forall_app in Hgood as [Hgood [[[li lm] Hline] _]%Forall_cons].
    destruct (IH Hgood) as [[i0 m0] Hacc].
    rewrite accumulate_snoc, Hacc. simpl. rewrite Hline. simpl. by eexists. }
  destruct Hok as [[i0 m0] Hacc].
  change (good ++ bad :: rest) with (good ++ [bad] ++ rest).
  rewrite app_assoc. apply accumulate_app_raise.
  rewrite accumulate_snoc, Hacc. simpl. by rewrite Hbad.
Qed.

Lemma accumulate_first_error_witness :
  accumulate (B := Reference.builtins)
      (Reference.loader "/" (Some 0.1%float) None None)
      ([["IMG/c1.jpg"; "IMG/l1.jpg"; "IMG/r1.jpg"; "0.5"; "0.2"; "0.0"]]
         ++ ["IMG/c2.jpg"; "IMG/l2.jpg"; "IMG/r2.jpg"; "steering"; "0.2"; "0.0"]
         :: [["IMG/c3.jpg"; "IMG/l3.jpg"]])
  = Raise ValueError.
Proof.
  refine (accumulate_first_error (B := Reference.builtins)
            (Reference.loader "/" (Some 0.1%float) None None)
            [["IMG/c1.jpg"; "IMG/l1.jpg"; "IMG/r1.jpg"; "0.5"; "0.2"; "0.0"]]
            ["IMG/c2.jpg"; "IMG/l2.jpg"; "IMG/r2.jpg"; "steering"; "0.2"; "0.0"]
            [["IMG/c3.jpg"; "IMG/l3.jpg"]] ValueError _ _).
  - repeat constructor. eexists. vm_compute. reflexivity.
  - vm_compute. reflexivity.
Defined.

(** ** What the stages leave alone *)

Section Frames.
Context {B : Builtins} {N : Numpy} {P : Platform}.

Lemma same_disk_trans s1 s2 s3 : same_disk s1 s2 → same_disk s2 s3 → same_disk s1 s3.
Proof. intros [? ?] [? ?]. split; congruence. Qed.

Lemma bind_frame {X Y} (m : run X) (f : X → run Y) s r s' :
  (∀ r1 s1, m s = (r1, s1) → same_disk s s1) →
  (∀ a s1 r2 s2, f a s1 = (r2, s2) → same_disk s1 s2) →
  (m ≫= f) s = (r, s') → same_disk s s'.
Proof.
  intros Hm Hf. unfold mbind, run_bind.
  destruct (m s) as [[a|e] s1] eqn:E.
  - intros H. eapply same_disk_trans; eauto.
  - intros [= <- <-]. eauto.
Qed.

Lemma lift_frame {X} (x : result X) s r s' : lift x s = (r, s') → same_disk s s'.
Proof. by intros [= _ <-]. Qed.

Lemma ret_frame {X} (x : X) (s : state) r s' :
  mret (M := run) x s = (r, s') → same_disk s s'.
Proof. by intros [= _ <-]. Qed.

Lemma for_each_frame {S X} (f : S → X → run S) l :
  (∀ acc x s r s', f acc x s = (r, s') → same_disk s s') →
  ∀ acc s r s', for_each f acc l s = (r, s') → same_disk s s'.
Proof.
  intros Hf. induction l as [|x l IH]; intros acc s r s'; simpl.
  - apply ret_frame.
  - apply bind_frame; eauto.
Qed.

Lemma permutation_frame n s r s' : permutation n s = (r, s') → same_disk s s'.
Proof.
  unfold permutation. destruct (rng_permutation (random s) n).
  by intros [= _ <-].
Qed.

Lemma choice_frame a size s r s' : choice a size s = (r, s') → same_disk s s'.
Proof.
  unfold choice. case_bool_decide; [apply lift_frame|].
  apply bind_frame; [apply permutation_frame|]. intros; by eapply ret_frame.
Qed.

Lemma normalize_bin_frame angles max_wanted drop bin s r s' :
  normalize_bin angles max_wanted drop bin s = (r, s') → same_disk s s'.
Proof.
  destruct bin as [[last l] rt]. unfold normalize_bin. case_bool_decide.
  - apply bind_frame; [apply choice_frame|]. intros; by eapply ret_frame.
  - apply ret_frame.
Qed.

Lemma load_data_log_frame self s r s' : _load_data_log self s = (r, s') → s' = s.
Proof.
  unfold _load_data_log, open_read, mbind, run_bind.
  destruct (files s !! log_file self); [|by intros [= _ <-]].
  unfold lift. destruct (accumulate self _) as [[i m]|]; by intros [= _ <-].
Qed.

Lemma normalize_frame self images measurements s r s' :
  _normalize self images measurements s = (r, s') → same_disk s s'.
Proof.
  unfold _normalize.
  apply bind_frame; [apply lift_frame|]. intros angles s1 r1 s2.
  apply bind_frame; [apply lift_frame|]. intros [values bins] s3 r3 s4.
  apply bind_frame; [apply lift_frame|]. intros factor s5 r5 s6.
  apply bind_frame.
  { intros r0 s0. apply for_each_frame. intros; by eapply normalize_bin_frame. }
  intros drop s7 r7 s8.
  apply bind_frame; [apply lift_frame|]. intros ni s9 r9 s10.
  apply bind_frame; [apply lift_frame|]. intros nm s11 r11 s12.
  apply ret_frame.
Qed.

End Frames.

(** A computation whose result is known returned it. *)
Lemma run_result {N : Numpy} {P : Platform} {X} (x : result X * state) r :
  x.1 = r → x = (r, x.2).
Proof. destruct x. simpl. by intros ->. Qed.

(** Reading the log changes nothing; rebalancing changes only the random
    state; so a build without flip augmentation leaves every file and the
    write log as they were, whether it returns or raises. *)
Theorem build_without_flip_reads_only {B : Builtins} {N : Numpy} {P : Platform}
    self s r s' :
  flip_min_angle self = None →
  _process_data self s = (r, s') →
  same_disk s s'.
Proof.
  intros Hflip. unfold _process_data. rewrite Hflip.
  apply bind_frame.
  { intros r1 s1 ->%load_data_log_frame. done. }
  intros [images measurements] s1 r2 s2.
  apply bind_frame.
  - destruct (normalize_factor self); [apply normalize_frame|apply ret_frame].
  - intros [i m] s3 r3 s4. apply ret_frame.
Qed.

Lemma build_without_flip_reads_only_witness :
  same_disk Reference.example_disk
    (_process_data (B := Reference.builtins)
       (Reference.loader "/" (Some 0.1%float) (Some 1%float) None)
       Reference.example_disk).2.
Proof.
  exact (build_without_flip_reads_only (B := Reference.builtins)
           (Reference.loader "/" (Some 0.1%float) (Some 1%float) None)
           Reference.example_disk _ _ eq_refl
           (surjective_pairing _)).
Defined.

(** The whole build hands on paired sequences: whatever [_process_data]
    returns has as many images as measurements. *)
Theorem process_data_paired {B : Builtins} {N : Numpy} {P : Platform}
    self s out s' :
  _process_data self s = (Ok out, s') → length out.1 = np.len out.2.
Proof.
  unfold _process_data. intros H.
  apply bind_inv in H as ([i0 m0] & s0 & E0 & H).
  apply load_data_log_lengths in E0.
  apply bind_inv in H as ([i1 m1] & s1 & E1 & H).
  assert (Hn : length i1 = np.len m1).
  { destruct (normalize_factor self).
    - by apply normalize_lengths in E1.
    - by apply ret_inv in E1 as [[= -> ->] _]. }
  destruct (flip_min_angle self).
  - by apply flip_images_lengths in H.
  - by apply ret_inv in H as [-> _].
Qed.

Lemma process_data_paired_witness :
  let built := _process_data (B := Reference.builtins)
                 (Reference.loader "/" (Some 0.1%float) (Some 1%float) (Some 0%float))
                 Reference.example_disk in
  match built.1 with
  | Ok out => length out.1 = np.len out.2
  | Raise _ => False
  end.
Proof.
  cbv zeta.
  destruct (_process_data _ _).1 as [out|e] eqn:E.
  - exact (process_data_paired (B := Reference.builtins)
             (Reference.loader "/" (Some 0.1%float) (Some 1%float) (Some 0%float))
             Reference.example_disk out _ (run_result _ _ E)).
  - vm_compute in E. discriminate.
Defined.

(** ** The cache *)

Section CacheFacts.
Context {B : Builtins} {N : Numpy} {P : Platform}.

Lemma read_pickle_frame self s r s' : _read_pickle self s = (r, s') → s' = s.
Proof.
  unfold _read_pickle, open_read, mbind, run_bind, lift.
  destruct (files s !! train_file self); [|by intros [= _ <-]].
  destruct (pickle_loads _); [|by intros [= _ <-]].
  destruct (getitem _ "images"); [|by intros [= _ <-]].
  destruct (getitem _ "measurements"); by intros [= _ <-].
Qed.

End CacheFacts.

(** A cache hit: with the cache file present and [regenerate] false,
    [load_dataset] returns what [_read_pickle] reads and changes nothing,
    neither files nor write log nor random state; the log is not read. *)
Theorem load_dataset_cached {B : Builtins} {N : Numpy} {P : Platform} self s :
  is_Some (files s !! train_file self) →
  load_dataset self false s = _read_pickle self s ∧
  (load_dataset self false s).2 = s.
Proof.
  intros Hfile.
  assert (E : load_dataset self false s = _read_pickle self s).
  { unfold load_dataset. erewrite bind_ok; [|reflexivity].
    by rewrite bool_decide_eq_true_2. }
  split; [exact E|]. rewrite E.
  destruct (_read_pickle self s) as [r s'] eqn:R. by apply read_pickle_frame in R.
Qed.

(** Building and then loading: after [load_dataset] has built and saved a
    dataset (asked to, or for want of a cache file), a plain
    [load_dataset] returns that same dataset from the cache and changes
    nothing more, for a serializer that reads back what it wrote. *)
Theorem load_dataset_then_cached {B : Builtins} {N : Numpy} {P : Platform}
    self regenerate s dataset s1 :
  (∀ d, pickle_loads (pickle_dumps d) = Ok d) →
  regenerate = true ∨ files s !! train_file self = None →
  load_dataset self regenerate s = (Ok dataset, s1) →
  load_dataset self false s1 = (Ok dataset, s1) ∧
  last (writes s1) = Some (train_file self).
Proof.
  intros Hrt Hbuild H. unfold load_dataset in H.
  apply bind_inv in H as (cached & s0 & E0 & H). injection E0 as <- <-.
  assert (Hcond : regenerate || negb (bool_decide (is_Some (files s !! train_file self)))
                  = true).
  { destruct Hbuild as [->|Hnone]; [done|].
    rewrite Hnone, bool_decide_eq_false_2 by (by intros [? ?]).
    by destruct regenerate. }
  rewrite Hcond in H.
  apply bind_inv in H as ([images measurements] & s2 & E1 & H).
  apply bind_inv in H as (u & s3 & E2 & H).
  apply ret_inv in H as [-> ->].
  destruct (save_read_pickle self (PyNames images) (PyArray measurements) s2 Hrt)
    as (s4 & Hs & Hr).
  rewrite Hs in E2. injection E2 as <-. subst s4.
  assert (Hfile : is_Some (files s3 !! train_file self)).
  { unfold _save_pickle, write_file in Hs. injection Hs as <-. simpl.
    rewrite lookup_insert_eq. eauto. }
  split.
  - unfold load_dataset. erewrite bind_ok; [|reflexivity].
    rewrite bool_decide_eq_true_2 by done. exact Hr.
  - unfold _save_pickle, write_file in Hs. injection Hs as <-. simpl.
    by rewrite last_snoc.
Qed.

Lemma load_dataset_then_cached_witness :
  let self := Reference.loader "/" (Some 0.1%float) (Some 1%float) (Some 0%float) in
  let first := load_dataset (B := Reference.builtins) self false Reference.example_disk in
  match first.1 with
  | Ok dataset =>
      load_dataset (B := Reference.builtins) self false first.2 = (Ok dataset, first.2)
  | Raise _ => False
  end.
Proof.
  cbv zeta.
  destruct (load_dataset _ _ _).1 as [dataset|e] eqn:E.
  - exact (proj1 (load_dataset_then_cached (B := Reference.builtins)
                    (Reference.loader "/" (Some 0.1%float) (Some 1%float) (Some 0%float))
                    false Reference.example_disk dataset _
                    (λ d, eq_refl) (or_intror eq_refl) (run_result _ _ E))).
  - vm_compute in E. discriminate.
Defined.

Lemma load_dataset_cached_witness :
  let self := Reference.loader "/" None None None in
  let s := (_save_pickle (N := Reference.numpy 2) (P := Reference.platform) self
              (PyNames ["c1.jpg"]) (PyArray (Arr2 [(0.5, 0.2, 0)%float]))
              Reference.example_disk).2 in
  load_dataset (B := Reference.builtins) self false s = _read_pickle self s ∧
  (load_dataset (B := Reference.builtins) self false s).2 = s.
Proof.
  refine (load_dataset_cached (B := Reference.builtins) (N := Reference.numpy 2)
            (P := Reference.platform) (Reference.loader "/" None None None) _ _).
  vm_compute. eauto.
Defined.

(** What [_read_pickle] raises: [FileNotFoundError] without a cache file,
    the unpickler's exception on a file it cannot read, [KeyError] when
    the pickled dictionary lacks [images] or [measurements]. The state is
    left as it was. *)
Theorem read_pickle_errors {N : Numpy} {P : Platform} self s :
  (files s !! train_file self = None →
   _read_pickle self s = (Raise FileNotFoundError, s)) ∧
  (∀ f e, files s !! train_file self = Some f → pickle_loads f = Raise e →
          _read_pickle self s = (Raise e, s)) ∧
  (∀ f d, files s !! train_file self = Some f → pickle_loads f = Ok d →
          d !! "images" = None ∨ d !! "measurements" = None →
          _read_pickle self s = (Raise KeyError, s)).
Proof.
  unfold _read_pickle, open_read, mbind, run_bind, lift, getitem. split_and!.
  - by intros ->.
  - by intros f e -> ->.
  - intros f d -> -> [Hk|Hk]; rewrite Hk; [done|].
    by destruct (d !! "images").
Qed.

(** ** Rebalancing when no bin is over-full *)

Section NormalizeQuiet.
Context {N : Numpy} {P : Platform}.

Lemma keep_from_nothing {A} (l : list A) : ∀ i, np.keep_from i [] l = l.
Proof.
  induction l as [|x l IH]; intros i; cbn [np.keep_from]; [done|].
  rewrite bool_decide_eq_false_2 by apply not_elem_of_nil. by rewrite IH.
Qed.

Lemma normalize_loop_quiet angles max_wanted bl drop s :
  (∀ bin, bin ∈ bl →
          Z.of_nat (length (np.where_ (member bin) angles)) ≤ max_wanted) →
  for_each (normalize_bin angles max_wanted) drop bl s = (Ok drop, s).
Proof.
  induction bl as [|bin bl IH]; intros Hsmall; [done|].
  cbn [for_each]. erewrite bind_ok; [apply IH; intros; apply Hsmall; by right|].
  specialize (Hsmall bin ltac:(by left)).
  destruct bin as [[last l] r]. unfold normalize_bin. unfold member in Hsmall.
  cbn [fst snd] in Hsmall. cbv zeta.
  rewrite bool_decide_eq_false_2; [done|]. apply Z.le_ngt. exact Hsmall.
Qed.

End NormalizeQuiet.

(** When no bin holds more than [max_wanted] samples [_normalize] returns
    the dataset as it is and draws no random number. *)
Theorem normalize_unchanged {N : Numpy} {P : Platform}
    self factor images rows values bins s :
  normalize_factor self = Some factor →
  histogram_auto (steering <$> rows) = Ok (values, bins) →
  (∀ bin, bin ∈ enumerate_bins bins →
          Z.of_nat (length (filter (λ m, member bin (steering m) = true) rows))
          ≤ astype_uint32 (mean values * factor)%float) →
  _normalize self images (Arr2 rows) s = (Ok (images, Arr2 rows), s).
Proof.
  intros Hfactor Hhist Hsmall. unfold _normalize. simpl.
  erewrite bind_ok; [|reflexivity].
  erewrite bind_ok; [|unfold lift; by rewrite Hhist].
  rewrite Hfactor. erewrite bind_ok; [|reflexivity].
  erewrite bind_ok; cycle 1.
  { apply normalize_loop_quiet. intros bin Hbin.
    rewrite members_of_rows, where_from_length. by apply Hsmall. }
  erewrite bind_ok; [|unfold lift; rewrite delete_list_ok;
                      [done|by intros i ?%elem_of_nil]].
  erewrite bind_ok; [|unfold lift; rewrite delete_list_ok;
                      [done|by intros i ?%elem_of_nil]].
  by rewrite !keep_from_nothing.
Qed.

Lemma normalize_unchanged_witness :
  _normalize (N := Reference.numpy 2) (P := Reference.platform)
      (Reference.loader "/" None (Some 2.5%float) None)
      ["a.jpg"; "b.jpg"; "c.jpg"; "d.jpg"]
      (Arr2 [(0, 0.2, 0); (0, 0.2, 0); (0, 0.2, 0); (1, 0.2, 0)]%float)
      Reference.example_disk
  = (Ok (["a.jpg"; "b.jpg"; "c.jpg"; "d.jpg"],
         Arr2 [(0, 0.2, 0); (0, 0.2, 0); (0, 0.2, 0); (1, 0.2, 0)]%float),
     Reference.example_disk).
Proof.
  refine (normalize_unchanged (N := Reference.numpy 2) (P := Reference.platform)
            (Reference.loader "/" None (Some 2.5%float) None) 2.5%float
            ["a.jpg"; "b.jpg"; "c.jpg"; "d.jpg"]
            [(0, 0.2, 0); (0, 0.2, 0); (0, 0.2, 0); (1, 0.2, 0)]%float
            [3; 1] [0; 0.5; 1]%float Reference.example_disk
            eq_refl eq_refl _).
  intros bin Hbin.
  repeat (apply elem_of_cons in Hbin as [->|Hbin]; [vm_compute; discriminate|]).
  by apply elem_of_nil in Hbin.
Defined.

(** ** Flip augmentation at its edges *)

Section FlipEdges.
Context {N : Numpy} {P : Platform}.

Lemma qualifying_none min_angle samples :
  (∀ im, im ∈ samples → qualifies min_angle (steering im.2) = false) →
  qualifying min_angle samples = [].
Proof.
  intros Hnone. unfold qualifying.
  induction samples as [|im samples IH]; [done|].
  rewrite filter_cons_False by (rewrite Hnone; [done|by left]).
  apply IH. intros; apply Hnone; by right.
Qed.

Lemma qualifying_all min_angle samples :
  (∀ im, im ∈ samples → qualifies min_angle (steering im.2) = true) →
  qualifying min_angle samples = samples.
Proof.
  intros Hall. unfold qualifying.
  induction samples as [|im samples IH]; [done|].
  rewrite filter_cons_True by (apply Hall; by left).
  f_equal. apply IH. intros; apply Hall; by right.
Qed.

(** A step of the loop either leaves the state alone or writes one file
    at a path that held none. *)
Lemma flip_one_effect self acc sample s r s' :
  flip_one self acc sample s = (r, s') →
  s' = s ∨ ∃ p b, files s !! p = None ∧
                  s' = State (<[p := b]> (files s)) (writes s ++ [p]) (random s).
Proof.
  destruct acc as [ni nm], sample as [image row]. unfold flip_one.
  unfold mbind, run_bind, lift, isfile, imread, when_, imwrite, write_file.
  destruct (np.unpack row) as [m|]; [|intros [= _ <-]; by left].
  destruct (flip_min_angle self) as [min_angle|]; [|intros [= _ <-]; by left].
  destruct (qualifies min_angle (steering m)); [|intros [= _ <-]; by left].
  case_bool_decide as Hp; simpl.
  - intros [= _ <-]. by left.
  - destruct (files s !! path_join (img_folder self) image ≫= cv2_decode) as [img|];
      simpl; [|intros [= _ <-]; by left].
    unfold mbind, run_bind, lift.
    destruct (cv2_encode _ _) as [b|]; simpl; intros [= _ <-]; [|by left].
    right. eexists _, b. split; [|done].
    destruct (files s !! _) eqn:E; [|done]. exfalso. apply Hp. eauto.
Qed.

Lemma flip_loop_keeps self samples : ∀ acc s r s',
  for_each (flip_one self) acc samples s = (r, s') →
  ∀ p b, files s !! p = Some b → files s' !! p = Some b.
Proof.
  induction samples as [|sample samples IH]; intros acc s r s'.
  - by intros [= _ <-].
  - cbn [for_each]. unfold mbind, run_bind.
    destruct (flip_one self acc sample s) as [[acc'|e] s1] eqn:E.
    + intros H p b Hp. eapply IH; [exact H|].
      apply flip_one_effect in E as [->|(q & c & Hq & ->)]; [done|]. simpl.
      rewrite lookup_insert_ne; [done|]. intros ->. congruence.
    + intros [= _ <-] p b Hp.
      apply flip_one_effect in E as [->|(q & c & Hq & ->)]; [done|]. simpl.
      rewrite lookup_insert_ne; [done|]. intros ->. congruence.
Qed.

End FlipEdges.

(** [_flip_images] never overwrites: every file that was on the disk
    before the call is there afterwards with the same contents, whether
    the call returns or raises. *)
Theorem flip_images_keeps_files {N : Numpy} {P : Platform}
    self images measurements s r s' p b :
  _flip_images self images measurements s = (r, s') →
  files s !! p = Some b →
  files s' !! p = Some b.
Proof.
  unfold _flip_images, mbind, run_bind. intros H Hp.
  destruct (for_each _ _ _ s) as [[[ni nm]|e] s1] eqn:E.
  - pose proof (flip_loop_keeps _ _ _ _ _ _ E p b Hp) as Hp1.
    unfold lift in H. destruct (np.append measurements nm); by injection H as _ <-.
  - injection H as _ <-. by eapply flip_loop_keeps.
Qed.

Lemma flip_images_keeps_files_witness :
  files (_flip_images (N := Reference.numpy 2) (P := Reference.platform)
           (Reference.loader "/" None None (Some 0%float))
           ["c1.jpg"; "c4.jpg"] (Arr2 [(0.5, 0.2, 0); (-0.3, 0.2, 0)]%float)
           Reference.example_disk).2 !! "data/c1.jpg"
  = Some (Reference.ImageFile [[1; 2]; [3; 4]]).
Proof.
  exact (flip_images_keeps_files (N := Reference.numpy 2) (P := Reference.platform)
           (Reference.loader "/" None None (Some 0%float))
           ["c1.jpg"; "c4.jpg"] (Arr2 [(0.5, 0.2, 0); (-0.3, 0.2, 0)]%float)
           Reference.example_disk _ _ "data/c1.jpg"
           (Reference.ImageFile [[1; 2]; [3; 4]])
           (surjective_pairing _) eq_refl).
Defined.

(** When no sample reaches the threshold, [np.append] is handed the empty
    list next to a two-dimensional array: [_flip_images] raises
    [ValueError] and returns nothing; the disk is untouched. *)
Theorem flip_images_none_qualify {N : Numpy} {P : Platform}
    self min_angle images rows s :
  flip_min_angle self = Some min_angle →
  (∀ im, im ∈ zip images rows → qualifies min_angle (steering im.2) = false) →
  _flip_images self images (Arr2 rows) s = (Raise ValueError, s).
Proof.
  intros Hmin Hnone. unfold _flip_images. rewrite zip_rows.
  erewrite bind_ok; cycle 1.
  { apply (flip_loop_again self min_angle Hmin).
    rewrite qualifying_none by done. by intros im ?%elem_of_nil. }
  rewrite qualifying_none by done. reflexivity.
Qed.

Lemma flip_images_none_qualify_witness :
  _flip_images (N := Reference.numpy 2) (P := Reference.platform)
      (Reference.loader "/" None None (Some 0.3%float))
      ["c2.jpg"; "c3.jpg"] (Arr2 [(0.1, 0.2, 0); (0.05, 0.2, 0)]%float)
      Reference.example_disk
  = (Raise ValueError, Reference.example_disk).
Proof.
  refine (flip_images_none_qualify (N := Reference.numpy 2) (P := Reference.platform)
            (Reference.loader "/" None None (Some 0.3%float)) 0.3%float
            ["c2.jpg"; "c3.jpg"] [(0.1, 0.2, 0); (0.05, 0.2, 0)]%float
            Reference.example_disk eq_refl _).
  intros im Him.
  repeat (apply elem_of_cons in Him as [->|Him]; [vm_compute; reflexivity|]).
  by apply elem_of_nil in Him.
Defined.

(** With the default threshold 0.0 every sample whose angle is a number
    is flipped: a returning [_flip_images] doubles the dataset. *)
Theorem flip_images_doubles {N : Numpy} {P : Platform}
    self images rows s out s' :
  flip_min_angle self = Some 0%float →
  length images = length rows →
  (∀ m, m ∈ rows → PrimFloat.is_nan (steering m) = false) →
  _flip_images self images (Arr2 rows) s = (Ok out, s') →
  out = (images ++ (flipped_name <$> images), Arr2 (rows ++ (negate <$> rows))).
Proof.
  intros Hmin Hlen Hnan H. unfold _flip_images in H. rewrite zip_rows in H.
  apply bind_inv in H as ([ni nm] & s1 & E & H).
  apply (flip_loop_inv self 0%float Hmin) in E as ([= -> ->] & _).
  apply bind_inv in H as (mo & s2 & E2 & H).
  apply lift_inv in E2 as [E2 ->]. apply ret_inv in H as [-> _].
  assert (Hq : qualifying 0 (zip images rows) = zip images rows).
  { apply qualifying_all. intros [img m] Him. simpl.
    assert (Hm : m ∈ rows).
    { apply list_elem_of_lookup_1 in Him as [i Hi].
      apply lookup_zip_with_Some in Hi as (? & ? & [= <- <-] & _ & Hi).
      by eapply list_elem_of_lookup_2. }
    specialize (Hnan m Hm). unfold qualifies.
    apply orb_true_iff. rewrite !FloatFacts.leb_iff. unfold FloatOrder.ranked.
    rewrite FloatFacts.rank_opp.
    apply not_true_iff_false in Hnan. rewrite FloatFacts.is_nan_iff in Hnan.
    change (FloatOrder.rank (Prim2SF 0)) with (Some (0, 0, 0)).
    destruct (FloatOrder.rank (Prim2SF (steering m))) as [[[a b] c]|]; [|done].
    simpl. lia. }
  rewrite Hq in E2 |- *.
  cbn [fst snd app] in *. rewrite !list_fmap_compose, fst_zip by lia.
  rewrite list_fmap_compose, snd_zip in E2 by lia.
  destruct (negate <$> rows) eqn:Hneg; [done|]. by injection E2 as <-.
Qed.

Lemma flip_images_doubles_witness :
  (_flip_images (N := Reference.numpy 2) (P := Reference.platform)
     (Reference.loader "/" None None (Some 0%float))
     ["c1.jpg"; "c2.jpg"] (Arr2 [(0.5, 0.2, 0); (0, 0.2, 0)]%float)
     Reference.example_disk).1
  = Ok (["c1.jpg"; "c2.jpg"] ++ (flipped_name <$> ["c1.jpg"; "c2.jpg"]),
        Arr2 ([(0.5, 0.2, 0); (0, 0.2, 0)]%float
              ++ (negate <$> [(0.5, 0.2, 0); (0, 0.2, 0)]%float))).
Proof.
  destruct (_flip_images _ _ _ _).1 as [out|e] eqn:E.
  - f_equal.
    refine (flip_images_doubles (N := Reference.numpy 2) (P := Reference.platform)
              (Reference.loader "/" None None (Some 0%float))
              ["c1.jpg"; "c2.jpg"] [(0.5, 0.2, 0); (0, 0.2, 0)]%float
              Reference.example_disk out _ eq_refl eq_refl _ (run_result _ _ E)).
    intros m Hm.
    repeat (apply elem_of_cons in Hm as [->|Hm]; [vm_compute; reflexivity|]).
    by apply elem_of_nil in Hm.
  - vm_compute in E. discriminate.
Defined.

(** C10's companion: with normalization disabled an empty log builds the
    empty dataset, flip augmentation enabled or not; nothing is written. *)
Theorem empty_log_unnormalized {B : Builtins} {N : Numpy} {P : Platform}
    self s csvfile :
  files s !! log_file self = Some csvfile →
  csv_reader csvfile = [] →
  normalize_factor self = None →
  _process_data self s = (Ok ([], Arr1 []), s).
Proof.
  intros Hfile Hcsv Hfactor. unfold _process_data.
  erewrite bind_ok; cycle 1.
  { unfold _load_data_log. erewrite bind_ok; [|unfold open_read; by rewrite Hfile].
    rewrite Hcsv. reflexivity. }
  cbv beta iota. rewrite Hfactor. erewrite bind_ok; [|reflexivity].
  cbv beta iota. by destruct (flip_min_angle self).
Qed.

Lemma empty_log_unnormalized_witness :
  _process_data (B := Reference.builtins) (N := Reference.numpy 2)
      (P := Reference.platform)
      (Reference.loader "/" (Some 0.1%float) None (Some 0%float))
      (Reference.disk 0 (Reference.log_of []))
  = (Ok ([], Arr1 []), Reference.disk 0 (Reference.log_of [])).
Proof.
  exact (empty_log_unnormalized (B := Reference.builtins) (N := Reference.numpy 2)
           (P := Reference.platform)
           (Reference.loader "/" (Some 0.1%float) None (Some 0%float))
           (Reference.disk 0 (Reference.log_of []))
           (Reference.CsvFile []) eq_refl eq_refl eq_refl).
Defined.

Section FlipFailure.
Context {N : Numpy} {P : Platform}.

Lemma for_each_app {S X} (f : S → X → run S) l1 l2 acc s :
  for_each f acc (l1 ++ l2) s
  = (for_each f acc l1 ≫= λ acc', for_each f acc' l2) s.
Proof.
  revert acc s. induction l1 as [|x l1 IH]; intros acc s; [done|].
  cbn [app for_each]. unfold mbind, run_bind in *.
  destruct (f acc x s) as [[acc'|e] s1]; [apply IH|done].
Qed.

Lemma flip_one_unreadable self min_angle acc image m s :
  flip_min_angle self = Some min_angle →
  qualifies min_angle (steering m) = true →
  files s !! flipped_path self image = None →
  files s !! path_join (img_folder self) image ≫= cv2_decode = None →
  flip_one self acc (image, np.Triple m) s = (Raise CvError, s).
Proof.
  intros Hmin Hq Hp Hsrc. destruct acc as [ni nm]. unfold flip_one. simpl.
  rewrite Hmin. erewrite bind_ok; [|reflexivity]. erewrite bind_ok; [|reflexivity].
  rewrite Hq. erewrite bind_ok; [|reflexivity].
  fold (flipped_path self image).
  rewrite bool_decide_eq_false_2 by (rewrite Hp; by intros [? ?]).
  simpl. erewrite bind_raise; [reflexivity|].
  erewrite bind_ok; [|unfold imread; by rewrite Hsrc]. reflexivity.
Qed.

End FlipFailure.

(** An unreadable source is a hard failure: when the first sample to flip
    has no flipped file yet and its image cannot be read, [_flip_images]
    raises OpenCV's error and writes nothing. *)
Theorem flip_images_unreadable {N : Numpy} {P : Platform}
    self min_angle before_i before_r image row after_i after_r s :
  flip_min_angle self = Some min_angle →
  length before_i = length before_r →
  (∀ m, m ∈ before_r → qualifies min_angle (steering m) = false) →
  qualifies min_angle (steering row) = true →
  files s !! flipped_path self image = None →
  files s !! path_join (img_folder self) image ≫= cv2_decode = None →
  _flip_images self (before_i ++ image :: after_i)
               (Arr2 (before_r ++ row :: after_r)) s
  = (Raise CvError, s).
Proof.
  intros Hmin Hlen Hbefore Hq Hp Hsrc. unfold _flip_images.
  rewrite zip_rows, zip_with_app by done.
  change (zip_with pair (image :: after_i) (row :: after_r))
    with ((image, row) :: zip after_i after_r).
  rewrite fmap_app, fmap_cons.
  change (as_sample (image, row)) with (image, np.Triple row).
  erewrite bind_raise; [reflexivity|].
  rewrite for_each_app. erewrite bind_ok; cycle 1.
  { apply (flip_loop_again self min_angle Hmin).
    rewrite qualifying_none; [by intros im ?%elem_of_nil|].
    intros [i m] Him. apply Hbefore. simpl.
    apply list_elem_of_lookup_1 in Him as [k Hk].
    apply lookup_zip_with_Some in Hk as (? & ? & [= <- <-] & _ & Hk).
    by eapply list_elem_of_lookup_2. }
  cbn [for_each]. erewrite bind_raise; [reflexivity|].
  by apply (flip_one_unreadable self min_angle).
Qed.

Lemma flip_images_unreadable_witness :
  _flip_images (N := Reference.numpy 2) (P := Reference.platform)
      (Reference.loader "/" None None (Some 0.3%float))
      (["c2.jpg"] ++ "missing.jpg" :: ["c1.jpg"])
      (Arr2 ([(0.1, 0.2, 0)] ++ (0.5, 0.2, 0) :: [(0.5, 0.2, 0)])%float)
      Reference.example_disk
  = (Raise CvError, Reference.example_disk).
Proof.
  refine (flip_images_unreadable (N := Reference.numpy 2) (P := Reference.platform)
            (Reference.loader "/" None None (Some 0.3%float)) 0.3%float
            ["c2.jpg"] [(0.1, 0.2, 0)%float] "missing.jpg" (0.5, 0.2, 0)%float
            ["c1.jpg"] [(0.5, 0.2, 0)%float] Reference.example_disk
            eq_refl eq_refl _ eq_refl eq_refl eq_refl).
  intros m Hm.
  repeat (apply elem_of_cons in Hm as [->|Hm]; [vm_compute; reflexivity|]).
  by apply elem_of_nil in Hm.
Defined.

(** ** The generator: rejected arguments, what it touches, what it yields *)

Section GeneratorEdges.
Context {N : Numpy} {P : Platform}.

Lemma same_disk_refl (s : state) : same_disk s s.
Proof. by split. Qed.

Lemma take_list_same_length {X Y} (l : list X) (k : list Y) idx :
  length l = length k → length (np.take_list l idx) = length (np.take_list k idx).
Proof.
  intros Hlen. unfold np.take_list. induction idx as [|j idx IH]; [done|].
  cbn [omap list_omap]. destruct (l !! j) eqn:Hl, (k !! j) eqn:Hk.
  - cbn [length]. by f_equal.
  - apply lookup_lt_Some in Hl. apply lookup_ge_None in Hk. lia.
  - apply lookup_lt_Some in Hk. apply lookup_ge_None in Hl. lia.
  - exact IH.
Qed.

Lemma shuffle_frame images measurements s r s' :
  shuffle images measurements s = (r, s') → same_disk s s'.
Proof.
  unfold shuffle. case_bool_decide; [|apply lift_frame].
  apply bind_frame; [apply permutation_frame|]. intros; by eapply ret_frame.
Qed.

Lemma make_batch_frame self images measurements o b s r s' :
  make_batch self images measurements o b s = (r, s') → s' = s.
Proof.
  unfold make_batch. cbv zeta. unfold mbind, run_bind. rewrite traverse_run_pure.
  destruct (traverse _ _); [|by intros [= _ <-]].
  unfold lift. destruct (np.col0 _); by intros [= _ <-].
Qed.

Lemma while_true_frame self fuel : ∀ images measurements n b s r s',
  while_true fuel self images measurements n b s = (r, s') → same_disk s s'.
Proof.
  induction fuel as [|fuel IH]; intros images measurements n b s r s'.
  - apply ret_frame.
  - cbn [while_true]. apply bind_frame; [intros ??; apply shuffle_frame|].
    intros [imgs ms] s1 r1 s2. apply bind_frame; [apply lift_frame|].
    intros [|o pending] s3 r3 s4; [apply IH|].
    apply bind_frame; [|intros; by eapply ret_frame].
    intros ?? ->%make_batch_frame. apply same_disk_refl.
Qed.

Lemma while_true_negative self n b fuel : ∀ images rows s,
  length images = length rows → b < 0 →
  ∃ s', while_true fuel self images (Arr2 rows) n b s = (Ok OutOfFuel, s').
Proof.
  induction fuel as [|fuel IH]; intros images rows s Hlen Hb; [by eexists|].
  cbn [while_true]. erewrite bind_ok; [|by apply shuffle_ok].
  cbv beta iota. erewrite bind_ok; cycle 1.
  { unfold lift, py_range. destruct (Z.eqb_spec b 0); [lia|].
    destruct (Z.ltb_spec b 0); [done|lia]. }
  cbv beta iota. apply IH; [|done]. by apply take_list_same_length.
Qed.

Lemma multiples_bound n b o :
  0 < b → o ∈ multiples n b → 0 ≤ o < n.
Proof.
  intros Hb Ho. apply list_elem_of_lookup_1 in Ho as [k Hk].
  apply multiples_lookup in Hk as [-> Hk]. rewrite multiples_length in Hk.
  assert (Z.of_nat k < (n + b - 1) / b) by lia.
  pose proof (Z.mul_div_le (n + b - 1) b Hb). nia.
Qed.

Lemma make_batch_shape self images rows o b s bt s' :
  length images = length rows → 0 ≤ o < Z.of_nat (length images) → 0 < b →
  make_batch self images (Arr2 rows) o b s = (Ok bt, s') →
  length (X_batch bt) = length (Y_batch bt) ∧
  (0 < length (X_batch bt))%nat ∧ Z.of_nat (length (X_batch bt)) ≤ b.
Proof.
  intros Hlen Ho Hb. unfold make_batch. cbv zeta.
  fold (chunk images o b). unfold mbind, run_bind. rewrite traverse_run_pure.
  destruct (traverse _ _) as [X|] eqn:HX; [|done].
  apply traverse_length in HX. simpl. intros [= <- _]. simpl.
  fold (chunk rows o b).
  rewrite length_fmap, HX, !chunk_length by lia. lia.
Qed.

Lemma while_true_shape self n b fuel :
  (∀ g m, (rng_permutation g m).1 ≡ₚ seq 0 m) →
  ∀ images rows s bt g' s',
    length images = n → length rows = n →
    while_true fuel self images (Arr2 rows) n b s = (Ok (Yielded bt g'), s') →
    (length (X_batch bt) = length (Y_batch bt) ∧
     (0 < length (X_batch bt))%nat ∧ Z.of_nat (length (X_batch bt)) ≤ b) ∧
    well_formed b g'.
Proof.
  intros Hperm. induction fuel as [|fuel IH]; intros images rows s bt g' s' Hi Hr;
    [done|].
  cbn [while_true]. erewrite bind_ok; [|apply shuffle_ok; lia].
  cbv beta iota. rewrite Hi.
  pose proof (Hperm (random s) n) as [Hlen Hvalid]%permutation_valid.
  set (idx := (rng_permutation (random s) n).1) in *.
  assert (Hi' : length (np.take_list images idx) = n)
    by (rewrite take_list_length; [done|by rewrite Hi]).
  assert (Hr' : length (np.take_list rows idx) = n)
    by (rewrite take_list_length; [done|by rewrite Hr]).
  unfold py_range. destruct (Z.eqb_spec b 0) as [|Hb0]; [done|].
  destruct (Z.ltb_spec b 0) as [Hneg|Hpos].
  { erewrite bind_ok; [|reflexivity]. cbv beta iota. by apply IH. }
  erewrite bind_ok; [|reflexivity]. cbv beta iota.
  destruct (multiples (Z.of_nat n) b) as [|o pending] eqn:Hm; [by apply IH|].
  assert (Hall : ∀ o', o' ∈ o :: pending → 0 ≤ o' < Z.of_nat n).
  { intros o' Ho'. rewrite <- Hm in Ho'. apply multiples_bound in Ho'; lia. }
  intros (bt0 & s1 & Hmb & [= <- <- <-])%bind_inv. split.
  - eapply make_batch_shape; [| | |exact Hmb]; [lia| |lia].
    rewrite Hi'. apply Hall. by left.
  - simpl. split_and!; [done|lia|]. eexists. split_and!; try done.
    apply Forall_forall. intros o' Ho'. apply Hall. by right.
Qed.

End GeneratorEdges.

(** The generator checks its arguments when it is first resumed, not when
    it is created: on sequences of different lengths the first [next]
    raises [AssertionError] before anything else happens; with a batch
    size of zero it shuffles once and then [range] raises [ValueError]. *)
Theorem generator_rejects {N : Numpy} {P : Platform}
    self images measurements fuel s :
  (length images ≠ np.len measurements →
   ∀ b, next fuel self (generator images measurements b) s
        = (Raise AssertionError, s)) ∧
  (length images = np.len measurements →
   next (S fuel) self (generator images measurements 0) s
   = (Raise ValueError,
      State (files s) (writes s) (rng_permutation (random s) (length images)).2)).
Proof.
  split.
  - intros Hne b. simpl. by rewrite bool_decide_eq_false_2.
  - intros Hlen. cbn [generator next while_true].
    rewrite bool_decide_eq_true_2 by done.
    unfold shuffle. rewrite bool_decide_eq_true_2 by done.
    unfold mbind, run_bind, permutation.
    by destruct (rng_permutation (random s) (length images)).
Qed.

Lemma generator_rejects_witness :
  next (N := Reference.numpy 2) (P := Reference.platform) 1
       (Reference.loader "/" None None None)
       (generator ["c1.jpg"; "c2.jpg"] (Arr2 [(0.5, 0.2, 0)%float]) 2)
       Reference.example_disk
  = (Raise AssertionError, Reference.example_disk) ∧
  next (N := Reference.numpy 2) (P := Reference.platform) 1
       (Reference.loader "/" None None None)
       (generator ["c1.jpg"] (Arr2 [(0.5, 0.2, 0)%float]) 0)
       Reference.example_disk
  = (Raise ValueError,
     State (N := Reference.numpy 2) (P := Reference.platform)
           (files Reference.example_disk) (writes Reference.example_disk) 2%nat).
Proof.
  split.
  - apply (proj1 (generator_rejects (N := Reference.numpy 2) (P := Reference.platform)
             (Reference.loader "/" None None None) ["c1.jpg"; "c2.jpg"]
             (Arr2 [(0.5, 0.2, 0)%float]) 1 Reference.example_disk)).
    simpl. lia.
  - apply (proj2 (generator_rejects (N := Reference.numpy 2) (P := Reference.platform)
             (Reference.loader "/" None None None) ["c1.jpg"]
             (Arr2 [(0.5, 0.2, 0)%float]) 0 Reference.example_disk)).
    reflexivity.
Defined.

(** A negative batch size is not rejected: every epoch's [range] is empty,
    so the generator shuffles for ever and never yields a batch, whatever
    the data; it touches no file. *)
Theorem generator_negative_batch {N : Numpy} {P : Platform}
    self images rows b :
  length images = length rows → b < 0 →
  ∀ fuel s, ∃ s',
    next fuel self (generator images (Arr2 rows) b) s = (Ok OutOfFuel, s') ∧
    same_disk s s'.
Proof.
  intros Hlen Hb fuel s.
  destruct (while_true_negative self (length images) b fuel images rows s Hlen Hb)
    as [s' E].
  exists s'. cbn [generator next]. rewrite bool_decide_eq_true_2 by done.
  split; [done|]. by eapply while_true_frame.
Qed.

Lemma generator_negative_batch_witness :
  ∃ s',
    next (N := Reference.numpy 2) (P := Reference.platform) 5
         (Reference.loader "/" None None None)
         (generator ["c1.jpg"; "c2.jpg"]
                    (Arr2 [(0.5, 0.2, 0); (0, 0.2, 0)]%float) (-2))
         Reference.example_disk
    = (Ok OutOfFuel, s') ∧
    same_disk Reference.example_disk s'.
Proof.
  apply (generator_negative_batch (N := Reference.numpy 2) (P := Reference.platform)
           (Reference.loader "/" None None None) ["c1.jpg"; "c2.jpg"]
           [(0.5, 0.2, 0); (0, 0.2, 0)]%float (-2) eq_refl ltac:(lia)
           5%nat Reference.example_disk).
Defined.

(** Resuming the generator never creates, changes or removes a file,
    whatever its state and whether it yields, fails or runs on: apart from
    the result, only the random state moves. *)
Theorem next_reads_only {N : Numpy} {P : Platform} self fuel g s :
  same_disk s (next fuel self g s).2.
Proof.
  destruct (next fuel self g s) as [r s'] eqn:E. simpl.
  destruct g as [images measurements b|images measurements n b [|o pending]|];
    cbn [next] in E.
  - case_bool_decide; [by eapply while_true_frame|by eapply lift_frame].
  - by eapply while_true_frame.
  - revert E. apply bind_frame; [|intros; by eapply ret_frame].
    intros ?? ->%make_batch_frame. apply same_disk_refl.
  - by eapply lift_frame.
Qed.

(** Every batch the generator yields pairs as many tensors as labels, is
    not empty and holds at most [batch_size] samples, and the generator it
    leaves behind is again well formed: so this holds of every batch of
    every epoch, whether or not later images can be loaded. *)
Theorem batches_well_formed {N : Numpy} {P : Platform}
    self b fuel g bt g' s s' :
  (∀ r m, (rng_permutation r m).1 ≡ₚ seq 0 m) →
  well_formed b g →
  next fuel self g s = (Ok (Yielded bt g'), s') →
  length (X_batch bt) = length (Y_batch bt) ∧
  (0 < length (X_batch bt))%nat ∧
  Z.of_nat (length (X_batch bt)) ≤ b ∧
  well_formed b g'.
Proof.
  intros Hperm Hg E.
  enough ((length (X_batch bt) = length (Y_batch bt) ∧
           (0 < length (X_batch bt))%nat ∧ Z.of_nat (length (X_batch bt)) ≤ b) ∧
          well_formed b g') by tauto.
  destruct g as [images measurements b'|images measurements n b' pending|].
  - destruct Hg as (-> & rows & -> & Hlen). cbn [next] in E.
    rewrite bool_decide_eq_true_2 in E by done.
    by eapply (while_true_shape self (length images) b fuel Hperm images rows).
  - destruct Hg as (-> & Hb & rows & -> & Hi & Hr & Hall). cbn [next] in E.
    destruct pending as [|o pending].
    + by eapply (while_true_shape self n b fuel Hperm images rows).
    + apply bind_inv in E as (bt0 & s1 & Hmb & [= <- <- <-]).
      apply Forall_cons in Hall as [Ho Hall]. split.
      * eapply make_batch_shape; [| | |exact Hmb]; lia.
      * simpl. split_and!; [done|done|]. by exists rows.
  - done.
Qed.

Lemma batches_well_formed_witness :
  let g := generator ["c1.jpg"; "c2.jpg"; "c3.jpg"]
                     (Arr2 [(0.5, 0.2, 0); (0, 0.2, 0); (0.05, 0.2, 0)]%float) 2 in
  let bt := Batch (P := Reference.platform)
                  [[[1; 2]; [3; 4]]; [[1; 2]; [3; 4]]] [0; 0.05]%float in
  let g' := Suspended ["c2.jpg"; "c3.jpg"; "c1.jpg"]
              (Arr2 [(0, 0.2, 0); (0.05, 0.2, 0); (0.5, 0.2, 0)]%float) 3 2 [2] in
  length (X_batch bt) = length (Y_batch bt) ∧
  (0 < length (X_batch bt))%nat ∧
  Z.of_nat (length (X_batch bt)) ≤ 2 ∧
  well_formed 2 g'.
Proof.
  intros g bt g'.
  apply (batches_well_formed (N := Reference.numpy 2) (P := Reference.platform)
           (Reference.loader "/" None None None) 2 1 g bt g'
           Reference.example_disk
           (next (N := Reference.numpy 2) (P := Reference.platform) 1
                 (Reference.loader "/" None None None) g Reference.example_disk).2
           (reference_permutation 2)).
  - split; [done|]. by eexists.
  - apply run_result. vm_compute. reflexivity.
Defined.

(** A value field that [float] rejects (a header row, say) makes the
    whole line fail. *)
Theorem parse_line_bad_number {B : Builtins} self line v e :
  v ∈ take 3 (drop 3 line) → py_float v = Raise e →
  ∃ e', _parse_line self line = Raise e'.
Proof.
  intros Hv He. unfold _parse_line.
  destruct (traverse _ (take 3 line)) as [names|]; [|by eexists]. simpl.
  destruct names as [|n1 [|n2 [|n3 [|]]]]; try by eexists.
  assert (∃ e', traverse py_float (take 3 (drop 3 line)) = Raise e') as [e' ->];
    [|by eexists].
  induction (take 3 (drop 3 line)) as [|w l IH]; [by apply elem_of_nil in Hv|].
  simpl. apply elem_of_cons in Hv as [<-|Hv].
  - rewrite He. by eexists.
  - destruct (py_float w); [|by eexists].
    destruct (IH Hv) as [e' ->]. by eexists.
Qed.

Lemma parse_line_bad_number_witness :
  ∃ e', _parse_line (B := Reference.builtins) (Reference.loader "/" None None None)
          ["center"; "left"; "right"; "steering"; "throttle"; "brake"; "speed"]
        = Raise e'.
Proof.
  apply (parse_line_bad_number (B := Reference.builtins)
           (Reference.loader "/" None None None)
           ["center"; "left"; "right"; "steering"; "throttle"; "brake"; "speed"]
           "steering" ValueError).
  - simpl. by left.
  - vm_compute. reflexivity.
Defined.

Lemma read_pickle_errors_witness :
  _read_pickle (N := Reference.numpy 2) (P := Reference.platform)
      (Reference.loader "/" None None None) (Reference.disk 0 [])
  = (Raise FileNotFoundError, Reference.disk 0 []) ∧
  _read_pickle (N := Reference.numpy 2) (P := Reference.platform)
      (Reference.loader "/" None None None)
      (Reference.disk 0 [("train.p", Reference.CsvFile [])])
  = (Raise UnpicklingError, Reference.disk 0 [("train.p", Reference.CsvFile [])]) ∧
  _read_pickle (N := Reference.numpy 2) (P := Reference.platform)
      (Reference.loader "/" None None None)
      (Reference.disk 0 [("train.p", Reference.PickleFile ∅)])
  = (Raise KeyError, Reference.disk 0 [("train.p", Reference.PickleFile ∅)]).
Proof.
  split_and!.
  - by apply (proj1 (read_pickle_errors (N := Reference.numpy 2)
                       (P := Reference.platform) _ _)).
  - by eapply (proj1 (proj2 (read_pickle_errors (N := Reference.numpy 2)
                                (P := Reference.platform) _ _))).
  - eapply (proj2 (proj2 (read_pickle_errors (N := Reference.numpy 2)
                             (P := Reference.platform) _ _))); [done|done|by left].
Defined.

(** ** Rebalancing, exactly *)

Section NormalizeExact.
Context {N : Numpy} {P : Platform}.

(** The loop over the bins drops, bin after bin, distinct members of the
    bin, as many as the bin holds beyond [max_wanted]. *)
Lemma normalize_loop_exact angles max_wanted bl :
  (∀ g n, (rng_permutation g n).1 ≡ₚ seq 0 n) →
  0 ≤ max_wanted →
  ∀ drop s,
    ∃ ds s1,
      for_each (normalize_bin angles max_wanted) drop bl s
      = (Ok (drop ++ concat ds), s1) ∧
      Forall2 (λ bin d,
                 NoDup d ∧ (∀ i, i ∈ d → i ∈ np.where_ (member bin) angles) ∧
                 Z.of_nat (length d)
                 = Z.max 0 (Z.of_nat (length (np.where_ (member bin) angles))
                            - max_wanted))
              bl ds.
Proof.
  intros Hperm Hmw. induction bl as [|bin bl IH]; intros drop s.
  - exists [], s. simpl. rewrite app_nil_r. split; [done|constructor].
  - cbn [for_each].
    assert (Hstep : ∃ d s',
               normalize_bin angles max_wanted drop bin s = (Ok (drop ++ d), s') ∧
               NoDup d ∧ (∀ i, i ∈ d → i ∈ np.where_ (member bin) angles) ∧
               Z.of_nat (length d)
               = Z.max 0 (Z.of_nat (length (np.where_ (member bin) angles))
                          - max_wanted)).
    { destruct bin as [[last l] r]. unfold normalize_bin, member. simpl.
      set (members := np.where_ (in_bin last l r) angles).
      case_bool_decide as Hover.
      - destruct (choice_spec members (Z.of_nat (length members) - max_wanted) s Hperm)
          as (d & s' & E & _ & _ & Hnd & Hsub & Hlen);
          [apply where_from_NoDup|lia|].
        exists d, s'. erewrite bind_ok; [|exact E].
        split_and!; try done. lia.
      - exists [], s. rewrite app_nil_r. split_and!; try done.
        + constructor.
        + intros i Hi. by apply elem_of_nil in Hi.
        + simpl. lia. }
    destruct Hstep as (d & s' & E & Hnd & Hsub & Hlen).
    destruct (IH (drop ++ d) s') as (ds & s1 & E' & Hall).
    exists (d :: ds), s1. erewrite bind_ok; [|exact E].
    rewrite E'. simpl. rewrite <- app_assoc. split; [done|]. by constructor.
Qed.

Lemma concat_member {X} (R : X → list nat → Prop) bl ds i :
  Forall2 R bl ds → i ∈ concat ds →
  ∃ k bin d, bl !! k = Some bin ∧ ds !! k = Some d ∧ i ∈ d.
Proof.
  induction 1 as [|bin d bl ds HR Hall IH]; simpl; [by intros ?%elem_of_nil|].
  intros [Hi|Hi]%elem_of_app.
  - by exists 0%nat, bin, d.
  - destruct (IH Hi) as (k & bin' & d' & ? & ? & ?). by exists (S k), bin', d'.
Qed.

Lemma concat_contains {X} (ds : list (list X)) k d i :
  ds !! k = Some d → i ∈ d → i ∈ concat ds.
Proof.
  revert k. induction ds as [|d' ds IH]; intros [|k]; simpl; try done.
  - intros [= ->] Hi. apply elem_of_app. by left.
  - intros Hk Hi. apply elem_of_app. right. by eapply IH.
Qed.

(** Removing from [m] exactly the distinct members [d] leaves
    [length m - length d]. *)
Lemma filter_out_exact (m d drop : list nat) :
  NoDup m → NoDup d → (∀ x, x ∈ d → x ∈ m) → (∀ x, x ∈ d → x ∈ drop) →
  (∀ x, x ∈ m → x ∈ drop → x ∈ d) →
  (length (filter (λ j, j ∉ drop) m) + length d = length m)%nat.
Proof.
  intros Hm Hd Hdm Hdrop Hback.
  pose proof (filter_out_length m d drop Hd Hdm Hdrop).
  assert (length (filter (λ j : nat, ¬ (j ∉ drop)) m) ≤ length d)%nat.
  { apply submseteq_length, NoDup_submseteq; [by apply NoDup_filter|].
    intros x [Hx1 Hx2]%list_elem_of_filter. apply Hback; [done|].
    by apply dec_stable. }
  pose proof (filter_app_complement (λ j, j ∉ drop) m) as Hc.
  apply Permutation_length in Hc. rewrite length_app in Hc. lia.
Qed.

End NormalizeExact.

(** What [_normalize] retains, exactly: under the hypotheses of C5 every
    bin keeps the smaller of its count and [max_wanted], so an over-full
    bin is cut down to [max_wanted] samples, neither more nor fewer. *)
Theorem normalize_retains {N : Numpy} {P : Platform}
    self factor images rows values bins s :
  normalize_factor self = Some factor →
  length images = length rows →
  histogram_auto (steering <$> rows) = Ok (values, bins) →
  FloatOrder.increasing bins = true →
  (∀ g n, (rng_permutation g n).1 ≡ₚ seq 0 n) →
  let count (bin : bool * float * float) (l : list measurement) :=
    Z.of_nat (length (filter (λ m, member bin (steering m) = true) l)) in
  let max_wanted := astype_uint32 (mean values * factor)%float in
  ∃ norm_images norm_rows s1,
    _normalize self images (Arr2 rows) s = (Ok (norm_images, Arr2 norm_rows), s1) ∧
    ∀ bin, bin ∈ enumerate_bins bins →
      count bin norm_rows = Z.min (count bin rows) max_wanted.
Proof.
  intros Hfactor Hlen Hhist Hinc Hperm count max_wanted.
  set (angles := steering <$> rows) in *.
  destruct (normalize_loop_exact angles max_wanted (enumerate_bins bins) Hperm
              (astype_uint32_nonneg _) [] s)
    as (ds & s1 & Hloop & Hall).
  simpl in Hloop. set (drop := concat ds) in *.
  assert (Hmember : ∀ i, i ∈ drop →
            ∃ k bin d, enumerate_bins bins !! k = Some bin ∧ ds !! k = Some d ∧
                       i ∈ d ∧ i ∈ np.where_ (member bin) angles).
  { intros i Hi.
    destruct (concat_member _ _ _ i Hall Hi) as (k & bin & d & Hk & Hd & Hid).
    exists k, bin, d. split_and!; try done.
    destruct (Forall2_lookup_lr _ _ _ _ _ _ Hall Hk Hd) as (_ & Hsub & _).
    by apply Hsub. }
  assert (Hlt : ∀ i, i ∈ drop → (i < length rows)%nat).
  { intros i (k & bin & d & _ & _ & _ & Hi)%Hmember. apply where_lt in Hi.
    unfold angles in Hi. by rewrite length_fmap in Hi. }
  exists (np.keep_from 0 drop images), (np.keep_from 0 drop rows), s1. split.
  - unfold _normalize. simpl. fold angles.
    erewrite bind_ok; [|reflexivity].
    erewrite bind_ok; [|unfold lift; by rewrite Hhist].
    rewrite Hfactor. erewrite bind_ok; [|reflexivity].
    fold max_wanted. erewrite bind_ok; [|exact Hloop].
    erewrite bind_ok;
      [|unfold lift; rewrite delete_list_ok; [done|by rewrite Hlen]].
    erewrite bind_ok; [reflexivity|].
    unfold lift. by rewrite delete_list_ok.
  - intros bin Hbin. unfold count.
    rewrite (keep_from_count (λ m, member bin (steering m))).
    rewrite <- (where_from_length (λ m, member bin (steering m)) rows 0).
    rewrite <- members_of_rows. fold angles.
    apply list_elem_of_lookup_1 in Hbin as [k Hk].
    destruct (Forall2_lookup_l _ _ _ _ _ Hall Hk) as (d & Hd & Hnd & Hsub & Hcount).
    pose proof (filter_out_exact (np.where_ (member bin) angles) d drop) as Hexact.
    rewrite <- Hexact in Hcount |- *; [lia| | | | | | | | | |];
      try (apply where_from_NoDup); try done.
    all: try (intros x Hx; by eapply concat_contains).
    all: intros x Hx Hdrop;
      destruct (Hmember x Hdrop) as (k' & bin' & d' & Hk' & Hd' & Hxd' & Hx');
      apply elem_of_where in Hx as (a & Ha & Hma);
      apply elem_of_where in Hx' as (a' & Ha' & Hma');
      assert (a' = a) as -> by congruence;
      assert (k = k') as <- by (eapply bins_disjoint; eauto);
      congruence.
Qed.

Lemma normalize_retains_witness :
  ∃ norm_images norm_rows s1,
    _normalize (N := Reference.numpy 2) (P := Reference.platform)
        (Reference.loader "/" None (Some 0.5%float) None)
        ["a.jpg"; "b.jpg"; "c.jpg"; "d.jpg"]
        (Arr2 [(0, 0.2, 0); (0, 0.2, 0); (0, 0.2, 0); (1, 0.2, 0)]%float)
        Reference.example_disk
      = (Ok (norm_images, Arr2 norm_rows), s1) ∧
    length (filter (λ m, member (false, 0, 0.5)%float (steering m) = true) norm_rows)
    = 1%nat.
Proof.
  destruct (normalize_retains (N := Reference.numpy 2) (P := Reference.platform)
              (Reference.loader "/" None (Some 0.5%float) None) 0.5%float
              ["a.jpg"; "b.jpg"; "c.jpg"; "d.jpg"]
              [(0, 0.2, 0); (0, 0.2, 0); (0, 0.2, 0); (1, 0.2, 0)]%float
              [3; 1] [0; 0.5; 1]%float
              Reference.example_disk
              eq_refl eq_refl eq_refl eq_refl
              (reference_permutation 2))
    as (norm_images & norm_rows & s1 & H1 & H2).
  exists norm_images, norm_rows, s1. split; [exact H1|].
  specialize (H2 (false, 0, 0.5)%float (list_elem_of_here _ _)).
  apply Nat2Z.inj. rewrite H2. vm_compute. reflexivity.
Defined.

(** A build that fails leaves no cache behind: when [_process_data]
    raises, [load_dataset] raises the same exception from the same state
    and [_save_pickle] is not run. *)
Theorem load_dataset_build_fails {B : Builtins} {N : Numpy} {P : Platform}
    self regenerate s e s1 :
  regenerate = true ∨ files s !! train_file self = None →
  _process_data self s = (Raise e, s1) →
  load_dataset self regenerate s = (Raise e, s1).
Proof.
  intros Hbuild E. unfold load_dataset. erewrite bind_ok; [|reflexivity].
  assert (regenerate || negb (bool_decide (is_Some (files s !! train_file self)))
          = true) as ->.
  { destruct Hbuild as [->|Hnone]; [done|].
    rewrite Hnone, bool_decide_eq_false_2 by (by intros [? ?]).
    by destruct regenerate. }
  by erewrite bind_raise.
Qed.

Lemma load_dataset_build_fails_witness :
  load_dataset (B := Reference.builtins) (N := Reference.numpy 2)
      (P := Reference.platform)
      (Reference.loader "/" None None None) false (Reference.disk 0 [])
  = (Raise FileNotFoundError, Reference.disk 0 []).
Proof.
  apply (load_dataset_build_fails (B := Reference.builtins) (N := Reference.numpy 2)
           (P := Reference.platform)
           (Reference.loader "/" None None None) false (Reference.disk 0 [])
           FileNotFoundError (Reference.disk 0 [])).
  - right. reflexivity.
  - reflexivity.
Defined.

(** A loader built with [__init__]'s defaults reads the simulator's
    Windows paths: each name is cut after its last backslash, the side
    cameras are corrected by 0.1 either way, and all three rows are
    clipped. *)
Theorem default_loader_parses {B : Builtins}
    train log folder d1 d2 d3 n1 n2 n3 t1 t2 t3 x y z :
  "\"%char ∉ list_ascii_of_string n1 →
  "\"%char ∉ list_ascii_of_string n2 →
  "\"%char ∉ list_ascii_of_string n3 →
  py_float t1 = Ok x → py_float t2 = Ok y → py_float t3 = Ok z →
  _parse_line (init train log folder)
    [d1 +:+ String "\" n1; d2 +:+ String "\" n2; d3 +:+ String "\" n3; t1; t2; t3]
  = Ok ([n1; n2; n3],
        np.clip_row (-1) 1 <$> [(x, y, z); ((x + 0.1)%float, y, z);
                                ((x - 0.1)%float, y, z)]).
Proof.
  intros H1 H2 H3 Hx Hy Hz. unfold _parse_line.
  cbn [take drop traverse init path_separator angle_correction].
  unfold bare_name, Str.split, Str.last_item. cbn [mbind result_bind].
  rewrite !split_from_last_piece by done. cbn [mbind result_bind].
  by rewrite Hx, Hy, Hz.
Qed.

Lemma default_loader_parses_witness :
  _parse_line (B := Reference.builtins) (init "train.p" "driving_log.csv" "data")
    ["C:\sim\IMG" +:+ String "\" "c.jpg"; "C:\sim\IMG" +:+ String "\" "l.jpg";
     "C:\sim\IMG" +:+ String "\" "r.jpg"; "0.95"; "0.2"; "0"]
  = Ok (["c.jpg"; "l.jpg"; "r.jpg"],
        np.clip_row (-1) 1 <$> [(0.95, 0.2, 0); ((0.95 + 0.1), 0.2, 0);
                                ((0.95 - 0.1), 0.2, 0)]%float).
Proof.
  apply (default_loader_parses (B := Reference.builtins)
           "train.p" "driving_log.csv" "data" "C:\sim\IMG" "C:\sim\IMG" "C:\sim\IMG"
           "c.jpg" "l.jpg" "r.jpg" "0.95" "0.2" "0").
  1-3: intros Hin; repeat (apply elem_of_cons in Hin as [Hin|Hin]; [discriminate|]);
       by apply elem_of_nil in Hin.
  all: vm_compute; reflexivity.
Defined.
